(** * ohlcv-poc: synthetic trade ingestion pipeline

    A shallow embedding of the trade model ([models/trade.model.ts]), the
    trade generator ([services/trade-generator.service.ts]), the InfluxDB
    repository ([repositories/influxdb.repository.ts]), the ingestion
    service ([services/trade-ingestion.service.ts]) and the guards of the
    start and stop routes ([api/routes.ts]), followed by the properties of
    the pipeline.

    Conventions of the embedding.
    - A JavaScript [number] that may be fractional is the rational it
      denotes ([Q]); the special values NaN and the infinities are extra
      constructors of [number].  Rounding of individual IEEE-754
      operations is not modelled.
    - A JavaScript string whose code units are below 256 is the [string]
      of those code units.
    - [Math.random()] is an oracle [rng : nat -> Q]; the k-th call of the
      program returns [rng k].  [Date.now()] is an oracle [now : nat -> Z].
    - An [async] function is run up to its next [await]; the suspended
      activation is a value ([task]) resumed with the outcome of the
      awaited promise. *)

From Stdlib Require Import ZArith QArith Qround Lqa Lia Bool List Ascii String.
From stdpp Require Import gmap strings.
Import ListNotations.

Local Open Scope string_scope.
Local Open Scope list_scope.
Local Open Scope Z_scope.

(** ** JavaScript values *)

Module JS.

(** Thrown values: [new Error(message)]. *)
Inductive exn : Type := Error (message : string).

Inductive result (A : Type) : Type :=
| Ok (a : A)
| Throw (e : exn).
Arguments Ok {A} a.
Arguments Throw {A} e.

(** [number]: finite values, the two infinities and NaN. *)
Inductive number : Type :=
| Fin (q : Q)
| PosInf
| NegInf
| NaN.

Definition of_Z (z : Z) : number := Fin (inject_Z z).

(** [x <= 0] and [x > 0]; every comparison with NaN is false. *)
Definition le0 (x : number) : bool :=
  match x with
  | Fin q => Qle_bool q 0
  | NegInf => true
  | PosInf | NaN => false
  end.

Definition gt0 (x : number) : bool :=
  match x with
  | Fin q => negb (Qle_bool q 0)
  | PosInf => true
  | NegInf | NaN => false
  end.

Definition sgn (q : Q) : Z := Z.sgn (Qnum q).

(** [x / y] *)
Definition div (x y : number) : number :=
  match x, y with
  | NaN, _ | _, NaN => NaN
  | Fin a, Fin b =>
      if Qeq_bool b 0
      then match sgn a with 0 => NaN | Zpos _ => PosInf | Zneg _ => NegInf end
      else Fin (a / b)
  | Fin _, (PosInf | NegInf) => Fin 0
  | PosInf, Fin b => if Qle_bool 0 b then PosInf else NegInf
  | NegInf, Fin b => if Qle_bool 0 b then NegInf else PosInf
  | (PosInf | NegInf), (PosInf | NegInf) => NaN
  end.

(** [x * y] *)
Definition mul (x y : number) : number :=
  match x, y with
  | NaN, _ | _, NaN => NaN
  | Fin a, Fin b => Fin (a * b)
  | Fin a, PosInf | PosInf, Fin a =>
      match sgn a with 0 => NaN | Zpos _ => PosInf | Zneg _ => NegInf end
  | Fin a, NegInf | NegInf, Fin a =>
      match sgn a with 0 => NaN | Zpos _ => NegInf | Zneg _ => PosInf end
  | PosInf, PosInf | NegInf, NegInf => PosInf
  | PosInf, NegInf | NegInf, PosInf => NegInf
  end.

(** White space and line terminators among the code units below 256:
    TAB, LF, VT, FF, CR, SP and NBSP. *)
Definition isWhiteSpace (c : ascii) : bool :=
  let n := nat_of_ascii c in
  ((9 <=? n)%nat && (n <=? 13)%nat) || (n =? 32)%nat || (n =? 160)%nat.

Fixpoint trimStart (s : string) : string :=
  match s with
  | EmptyString => EmptyString
  | String c s' => if isWhiteSpace c then trimStart s' else s
  end.

Fixpoint trimEnd (s : string) : string :=
  match s with
  | EmptyString => EmptyString
  | String c s' =>
      match trimEnd s' with
      | EmptyString => if isWhiteSpace c then EmptyString else String c EmptyString
      | t => String c t
      end
  end.

(** [String.prototype.trim] *)
Definition trim (s : string) : string := trimEnd (trimStart s).

(** A [Date] object holds a time value: an integral number of
    milliseconds since the epoch, or NaN ([None], an invalid date). *)
Record Date : Type := mkDate { getTime : option Z }.

Definition msPerDay : Z := 86400000.
Definition msPerHour : Z := 3600000.
Definition msPerMinute : Z := 60000.
Definition msPerSecond : Z := 1000.
Definition maxTime : Z := 8640000000000000.

(** ECMAScript TimeClip. *)
Definition TimeClip (t : Z) : option Z :=
  if Z.abs t <=? maxTime then Some t else None.

(** [new Date(value)] for an integral [value]. *)
Definition newDate (value : Z) : Date := mkDate (TimeClip value).

Definition Day (t : Z) : Z := t / msPerDay.
Definition HourFromTime (t : Z) : Z := (t / msPerHour) mod 24.
Definition MinFromTime (t : Z) : Z := (t / msPerMinute) mod 60.
Definition SecFromTime (t : Z) : Z := (t / msPerSecond) mod 60.
Definition msFromTime (t : Z) : Z := t mod msPerSecond.

Definition MakeTime (h m s ms : Z) : Z :=
  h * msPerHour + m * msPerMinute + s * msPerSecond + ms.
Definition MakeDate (day time : Z) : Z := day * msPerDay + time.

Definition withTime (f : Z -> Z) (d : Date) : Date :=
  match getTime d with
  | Some t => mkDate (TimeClip (f t))
  | None => d
  end.

(** [Date.prototype.setUTCHours(h)], [setUTCMinutes(m)],
    [setUTCSeconds(s)] and [setUTCMilliseconds(ms)], each with its
    single argument. *)
Definition setUTCHours (h : Z) : Date -> Date :=
  withTime (fun t =>
    MakeDate (Day t) (MakeTime h (MinFromTime t) (SecFromTime t) (msFromTime t))).
Definition setUTCMinutes (m : Z) : Date -> Date :=
  withTime (fun t =>
    MakeDate (Day t) (MakeTime (HourFromTime t) m (SecFromTime t) (msFromTime t))).
Definition setUTCSeconds (s : Z) : Date -> Date :=
  withTime (fun t =>
    MakeDate (Day t) (MakeTime (HourFromTime t) (MinFromTime t) s (msFromTime t))).
Definition setUTCMilliseconds (ms : Z) : Date -> Date :=
  withTime (fun t =>
    MakeDate (Day t) (MakeTime (HourFromTime t) (MinFromTime t) (SecFromTime t) ms)).

(** A run-time value found where the types promise a [Date]. *)
Inductive value : Type :=
| DateObj (d : Date)
| NonDate.

(** [Number.prototype.toFixed(2)] followed by [parseFloat]: the
    multiple of 1/100 nearest to [x], ties away from zero. *)
Definition hundredths (x : Q) : Z :=
  if Qle_bool 0 x then Qfloor (x * 100 + (1 # 2))%Q
  else - Qfloor (- x * 100 + (1 # 2))%Q.
Definition parseFloat_toFixed2 (x : Q) : Q := inject_Z (hundredths x) / 100.

End JS.
Export JS.

(** ** models/trade.model.ts *)

Module TradeModel.

Inductive TradeSide : Type := BUY | SELL.

(** The run-time value of an enum member. *)
Definition TradeSide_value (s : TradeSide) : string :=
  match s with
  | BUY => "buy"
  | SELL => "sell"
  end.

(** The record is generic in the type of [side]: [createTrade] stores
    whatever it is given there. *)
Record Trade (S : Type) : Type := mkTrade {
  symbol : string;
  side : S;
  price : number;
  amount : number;
  timestamp : value
}.
Arguments mkTrade {S}.
Arguments symbol {S}.
Arguments side {S}.
Arguments price {S}.
Arguments amount {S}.
Arguments timestamp {S}.

Definition isValidDate (v : value) : bool :=
  match v with
  | DateObj d => match getTime d with Some _ => true | None => false end
  | NonDate => false
  end.

Definition createTrade {S : Type}
    (symbol : string) (side : S) (price amount : number) (timestamp : value)
  : result (Trade S) :=
  if String.eqb symbol "" || String.eqb (trim symbol) "" then
    Throw (Error "Symbol is required")
  else if le0 price then
    Throw (Error "Price must be greater than zero")
  else if le0 amount then
    Throw (Error "Amount must be greater than zero")
  else if negb (isValidDate timestamp) then
    Throw (Error "Valid timestamp is required")
  else
    Ok (mkTrade symbol side price amount timestamp).

End TradeModel.
Export TradeModel.

(** ** repositories/influxdb.repository.ts *)

Module InfluxDB.

(** The client library's [Point]: a measurement name, tags, typed
    fields and an optional time, filled by a fluent builder.  What the
    library does with a field value it is given (it refuses a float that
    is not finite and truncates an integer) happens outside the
    repository and is not part of the embedding. *)
Inductive FieldValue : Type :=
| FloatField (v : number)
| IntField (v : number).

Record Point : Type := mkPoint {
  name : string;
  tags : gmap string string;
  fields : gmap string FieldValue;
  time : option value
}.

Definition newPoint (measurementName : string) : Point :=
  mkPoint measurementName ∅ ∅ None.
Definition tag (k v : string) (p : Point) : Point :=
  mkPoint (name p) (<[k := v]> (tags p)) (fields p) (time p).
Definition floatField (k : string) (v : number) (p : Point) : Point :=
  mkPoint (name p) (tags p) (<[k := FloatField v]> (fields p)) (time p).
Definition intField (k : string) (v : number) (p : Point) : Point :=
  mkPoint (name p) (tags p) (<[k := IntField v]> (fields p)) (time p).
Definition timestamp (v : value) (p : Point) : Point :=
  mkPoint (name p) (tags p) (fields p) (Some v).

Inductive WritePrecision : Type := ns | us | ms | s.

(** The time a point carries on the wire, in units of the write
    precision, when its time is a valid [Date]. *)
Definition protocolTimestamp (precision : WritePrecision) (p : Point) : option Z :=
  match time p with
  | Some (DateObj d) =>
      match getTime d with
      | Some t =>
          Some match precision with
               | ns => t * 1000000
               | us => t * 1000
               | ms => t
               | s => t / 1000
               end
      | None => None
      end
  | _ => None
  end.

Record InfluxDBConfig : Type := mkInfluxDBConfig {
  url : string;
  token : string;
  org : string;
  bucket : string
}.

Record WriteOptions : Type := mkWriteOptions {
  batchSize : Z;
  flushInterval : Z;
  maxBufferLines : Z;
  maxRetries : Z;
  maxRetryDelay : Z;
  minRetryDelay : Z;
  retryJitter : Z
}.

(** The repository object; [buffered] is the content of the write
    API's buffer, oldest point first. *)
Record InfluxDBRepositoryImpl : Type := mkRepository {
  repo_org : string;
  repo_bucket : string;
  precision : WritePrecision;
  writeOptions : WriteOptions;
  buffered : list Point
}.

Definition createInfluxDBRepository (config : InfluxDBConfig) : InfluxDBRepositoryImpl :=
  let writeOptions := mkWriteOptions 5000 5000 10000 3 15000 1000 1000 in
  mkRepository (org config) (bucket config) ms writeOptions [].

Definition tradeToPoint (trade : Trade TradeSide) : Point :=
  timestamp (TradeModel.timestamp trade)
    (intField "amount" (amount trade)
      (floatField "price" (price trade)
        (tag "side" (TradeSide_value (side trade))
          (tag "symbol" (symbol trade)
            (newPoint "trade"))))).

Definition writePoint (point : Point) (r : InfluxDBRepositoryImpl) : InfluxDBRepositoryImpl :=
  mkRepository (repo_org r) (repo_bucket r) (precision r) (writeOptions r)
    (buffered r ++ [point]).

(** [writeTrades] up to its [await this.writeApi.flush()]. *)
Definition writeTrades (trades : list (Trade TradeSide)) (r : InfluxDBRepositoryImpl)
  : InfluxDBRepositoryImpl :=
  let points := map tradeToPoint trades in
  fold_left (fun r point => writePoint point r) points r.

End InfluxDB.

(** ** services/trade-generator.service.ts *)

Module TradeGenerator.

Record TradeGenerationConfig : Type := mkConfig {
  totalTrades : Z;
  batchSize : Z;
  startDate : Date;
  endDate : Date;
  symbols : list string
}.

(** A key of the [baselinePrices] map: a symbol, or [undefined]
    ([None]), which is what indexing [symbols] out of range yields. *)
Abbreviation key := (option string).

(** The generator object, with [draws], the number of calls of
    [Math.random()] made so far. *)
Record TradeGeneratorServiceImpl : Type := mkGenerator {
  config : TradeGenerationConfig;
  startTimestamp : option Z;
  endTimestamp : option Z;
  timeRange : option Z;
  baselinePrices : gmap key Q;
  draws : nat
}.

Definition M (A : Type) : Type :=
  TradeGeneratorServiceImpl -> A * TradeGeneratorServiceImpl.
Definition ret {A} (a : A) : M A := fun g => (a, g).
Definition bind {A B} (m : M A) (k : A -> M B) : M B :=
  fun g => let (a, g') := m g in k a g'.

Notation "'let*' x ':=' m 'in' k" := (bind m (fun x => k))
  (at level 10, x name, m at level 100, k at level 200, only parsing).

Definition set_baselinePrice (symbol : key) (p : Q) : M unit :=
  fun g =>
    (tt, mkGenerator (config g) (startTimestamp g) (endTimestamp g) (timeRange g)
           (<[symbol := p]> (baselinePrices g)) (draws g)).

Section WithRandom.

Variable rng : nat -> Q.

(** [Math.random()] *)
Definition random : M Q :=
  fun g =>
    (rng (draws g),
     mkGenerator (config g) (startTimestamp g) (endTimestamp g) (timeRange g)
       (baselinePrices g) (S (draws g))).

(** [Math.floor(Math.random() * k)] *)
Definition randomBelow (k : Z) : M Z :=
  let* u := random in ret (Qfloor (u * inject_Z k)).

Fixpoint initializeBaselinePrices (symbols : list string) (prices : gmap key Q)
    (draws : nat) : gmap key Q * nat :=
  match symbols with
  | [] => (prices, draws)
  | symbol :: rest =>
      let basePrice := (50 + rng draws * 450)%Q in
      initializeBaselinePrices rest (<[Some symbol := basePrice]> prices) (S draws)
  end.

(** The constructor, called when [draws] random numbers have been
    drawn already. *)
Definition createTradeGeneratorService (config : TradeGenerationConfig) (draws : nat)
  : TradeGeneratorServiceImpl :=
  let startTimestamp := getTime (startDate config) in
  let endTimestamp := getTime (endDate config) in
  let timeRange :=
    match startTimestamp, endTimestamp with
    | Some s, Some e => Some (e - s)
    | _, _ => None
    end in
  let (prices, draws') := initializeBaselinePrices (symbols config) ∅ draws in
  mkGenerator config startTimestamp endTimestamp timeRange prices draws'.

Definition generateRandomTimestamp : M Date :=
  fun g =>
    (let* u := random in
     let date :=
       match startTimestamp g, timeRange g with
       | Some start, Some range => newDate (start + Qfloor (u * inject_Z range))
       | _, _ => mkDate None
       end in
     let* h := randomBelow 7 in
     let date := setUTCHours (14 + h) date in
     let* m := randomBelow 60 in
     let date := setUTCMinutes m date in
     let* s := randomBelow 60 in
     let date := setUTCSeconds s date in
     let* ms := randomBelow 1000 in
     let date := setUTCMilliseconds ms date in
     ret date) g.

(** [this.baselinePrices.get(symbol) || 100] *)
Definition basePriceOf (g : TradeGeneratorServiceImpl) (symbol : key) : Q :=
  match baselinePrices g !! symbol with
  | Some b => if Qeq_bool b 0 then 100%Q else b
  | None => 100%Q
  end.

Definition generateRandomPrice (symbol : key) : M Q :=
  fun g =>
    (let basePrice := basePriceOf g symbol in
     let* u := random in
     let variation := ((u - (1 # 2)) * (1 # 10))%Q in
     let price := (basePrice * (1 + variation))%Q in
     let* u' := random in
     let drift := ((u' - (1 # 2)) * (1 # 100))%Q in
     let* _ := set_baselinePrice symbol (basePrice * (1 + drift))%Q in
     ret (parseFloat_toFixed2 price)) g.

Definition generateRandomAmount : M Z :=
  let* u := random in
  ret (Qfloor (u * u * 1000)%Q + 1).

(** [symbols[index]] *)
Definition symbolAt (symbols : list string) (index : Z) : key :=
  if index <? 0 then None else symbols !! Z.to_nat index.

(** One iteration of the loop of [generateBatch]. *)
Definition generateTrade : M (result (Trade TradeSide)) :=
  fun g =>
    (let* symbolIndex := randomBelow (Z.of_nat (length (symbols (config g)))) in
     let symbol := symbolAt (symbols (config g)) symbolIndex in
     let* u := random in
     let side := if negb (Qle_bool (1 # 2) u) then BUY else SELL in
     let* price := generateRandomPrice symbol in
     let* amount := generateRandomAmount in
     let* timestamp := generateRandomTimestamp in
     ret match symbol with
         | Some symbol =>
             createTrade symbol side (Fin price) (of_Z amount) (DateObj timestamp)
         | None => Throw (Error "Symbol is required")
         end) g.

(** The loop of [generateBatch] with [n] iterations left. *)
Fixpoint generateLoop (n : nat) (trades : list (Trade TradeSide))
  : M (result (list (Trade TradeSide))) :=
  match n with
  | O => ret (Ok trades)
  | S n' =>
      let* r := generateTrade in
      match r with
      | Ok trade => generateLoop n' (trades ++ [trade])
      | Throw e => ret (Throw e)
      end
  end.

Definition generateBatch (batchSize : Z) : M (result (list (Trade TradeSide))) :=
  generateLoop (Z.to_nat batchSize) [].

Definition getTotalTrades (g : TradeGeneratorServiceImpl) : Z :=
  totalTrades (config g).
Definition getRecommendedBatchSize (g : TradeGeneratorServiceImpl) : Z :=
  batchSize (config g).

End WithRandom.

End TradeGenerator.

(** ** services/trade-ingestion.service.ts *)

Module TradeIngestion.

(** The two collaborators, as the service sees them.  A method takes
    and returns the state of the object it is called on. *)
Class TradeGeneratorService (G : Type) : Type := {
  generateBatch : Z -> G -> result (list (Trade TradeSide)) * G;
  getTotalTrades : G -> Z;
  getRecommendedBatchSize : G -> Z
}.

(** [writeTrades] is the part of the call that runs before the
    returned promise is awaited; how the promise settles is an input
    of the run. *)
Class InfluxDBRepository (R : Type) : Type := {
  writeTrades : list (Trade TradeSide) -> R -> R
}.

Record ProgressData : Type := mkProgressData {
  processed : Z;
  total : Z;
  percentage : number;
  elapsedMs : Z;
  estimatedRemainingMs : number;
  tradesPerSecond : number
}.

Inductive event : Type :=
| progress (d : ProgressData)
| complete (d : ProgressData)
| error (e : exn)
| stopped.

(** What the service does to the outside, in order: events passed to
    [events.emit] and calls of the collaborators. *)
Inductive action : Type :=
| Emit (e : event)
| GenerateBatch (batchSize : Z)
| WriteTrades (trades : list (Trade TradeSide)).

(** The local variables of an activation of [startIngestion]
    suspended at [await this.influxDBRepository.writeTrades(trades)]. *)
Record frame : Type := mkFrame {
  totalTrades : Z;
  batchSize : Z;
  processedTrades : Z;
  startTime : Z;
  currentBatchSize : Z
}.

(** The promise returned by [startIngestion]. *)
Inductive task : Type :=
| Awaiting (f : frame)
| Resolved
| Rejected (e : exn).

Section Service.

Context {G R : Type} `{TradeGeneratorService G} `{InfluxDBRepository R}.

(** [Date.now()]: the k-th call returns [now k]. *)
Variable now : nat -> Z.

(** The service object and its surroundings: [trace] is the history
    of actions, oldest first, and [clock] the number of calls of
    [Date.now()] so far. *)
Record service : Type := mkService {
  tradeGenerator : G;
  influxDBRepository : R;
  isStopped : bool;
  trace : list action;
  clock : nat
}.

Definition createTradeIngestionService (tradeGenerator : G) (influxDBRepository : R)
  : service :=
  mkService tradeGenerator influxDBRepository false [] 0.

Definition set_isStopped (b : bool) (w : service) : service :=
  mkService (tradeGenerator w) (influxDBRepository w) b (trace w) (clock w).
Definition record (a : action) (w : service) : service :=
  mkService (tradeGenerator w) (influxDBRepository w) (isStopped w)
    (trace w ++ [a]) (clock w).
Definition emit (e : event) : service -> service := record (Emit e).
Definition Date_now (w : service) : Z * service :=
  (now (clock w),
   mkService (tradeGenerator w) (influxDBRepository w) (isStopped w)
     (trace w) (S (clock w))).

(** The [while] loop from its test to the next [await], or to the
    end of [startIngestion]. *)
Definition iterate (f : frame) (w : service) : service * task :=
  if (processedTrades f <? totalTrades f) && negb (isStopped w) then
    let remainingTrades := totalTrades f - processedTrades f in
    let currentBatchSize := Z.min (batchSize f) remainingTrades in
    let w := record (GenerateBatch currentBatchSize) w in
    let (r, g) := generateBatch currentBatchSize (tradeGenerator w) in
    let w := mkService g (influxDBRepository w) (isStopped w) (trace w) (clock w) in
    match r with
    | Throw e => (emit (error e) w, Rejected e)
    | Ok trades =>
        let w := record (WriteTrades trades) w in
        let w := mkService (tradeGenerator w)
                   (writeTrades trades (influxDBRepository w))
                   (isStopped w) (trace w) (clock w) in
        (w, Awaiting (mkFrame (totalTrades f) (batchSize f) (processedTrades f)
                        (startTime f) currentBatchSize))
    end
  else if negb (isStopped w) then
    let (t1, w) := Date_now w in
    let (t2, w) := Date_now w in
    (emit (complete
       (mkProgressData (processedTrades f) (totalTrades f) (of_Z 100)
          (t1 - startTime f) (of_Z 0)
          (div (of_Z (processedTrades f))
             (div (of_Z (t2 - startTime f)) (of_Z 1000))))) w,
     Resolved)
  else (w, Resolved).

(** The activation continues when the awaited promise settles:
    [None] when it is fulfilled, [Some e] when it is rejected with [e]. *)
Definition resume (outcome : option exn) (f : frame) (w : service) : service * task :=
  match outcome with
  | Some e => (emit (error e) w, Rejected e)
  | None =>
      let processedTrades := processedTrades f + currentBatchSize f in
      let (t, w) := Date_now w in
      let elapsedMs := t - startTime f in
      let tradesPerSecond :=
        div (of_Z processedTrades) (div (of_Z elapsedMs) (of_Z 1000)) in
      let estimatedRemainingMs :=
        mul (div (of_Z (totalTrades f - processedTrades)) tradesPerSecond)
          (of_Z 1000) in
      let percentage :=
        mul (div (of_Z processedTrades) (of_Z (totalTrades f))) (of_Z 100) in
      let w := emit (progress
                 (mkProgressData processedTrades (totalTrades f) percentage
                    elapsedMs estimatedRemainingMs tradesPerSecond)) w in
      iterate (mkFrame (totalTrades f) (batchSize f) processedTrades
                 (startTime f) (currentBatchSize f)) w
  end.

Definition startIngestion (w : service) : service * task :=
  let w := set_isStopped false w in
  let totalTrades := getTotalTrades (tradeGenerator w) in
  let batchSize := getRecommendedBatchSize (tradeGenerator w) in
  let processedTrades := 0 in
  let (startTime, w) := Date_now w in
  iterate (mkFrame totalTrades batchSize processedTrades startTime 0) w.

(** [stopIngestion] returns a promise that is already resolved. *)
Definition stopIngestion (w : service) : service :=
  let w := set_isStopped true w in
  emit stopped w.

(** What happens to a run after [startIngestion] has returned its
    promise: [stopIngestion] is called, or the pending write settles. *)
Inductive input : Type :=
| stop
| settle (outcome : option exn).

Definition step (st : service * task) (i : input) : service * task :=
  let (w, t) := st in
  match i with
  | stop => (stopIngestion w, t)
  | settle outcome =>
      match t with
      | Awaiting f => resume outcome f w
      | Resolved | Rejected _ => (w, t)
      end
  end.

Definition exec (st : service * task) (schedule : list input) : service * task :=
  fold_left step schedule st.

(** A run: [startIngestion] on [w], then the schedule. *)
Definition run (w : service) (schedule : list input) : service * task :=
  exec (startIngestion w) schedule.

End Service.

Arguments service : clear implicits.

(** Projections of a trace. *)
Definition events (tr : list action) : list event :=
  omap (fun a => match a with Emit e => Some e | _ => None end) tr.
Definition batchSizes (tr : list action) : list Z :=
  omap (fun a => match a with GenerateBatch n => Some n | _ => None end) tr.
Definition writes (tr : list action) : list (list (Trade TradeSide)) :=
  omap (fun a => match a with WriteTrades ts => Some ts | _ => None end) tr.

Definition isProgress (e : event) : bool :=
  match e with progress _ => true | _ => false end.
Definition isComplete (e : event) : bool :=
  match e with complete _ => true | _ => false end.
Definition isError (e : event) : bool :=
  match e with error _ => true | _ => false end.
Definition isStoppedEvent (e : event) : bool :=
  match e with stopped => true | _ => false end.
Definition isTerminal (e : event) : bool :=
  isComplete e || isError e || isStoppedEvent e.

Definition count {A} (p : A -> bool) (l : list A) : nat :=
  length (List.filter p l).

Definition isStop (i : input) : bool :=
  match i with stop => true | settle _ => false end.

Definition isFulfilled (i : input) : bool :=
  match i with settle None => true | _ => false end.

Definition notStopped (e : event) : bool := negb (isStoppedEvent e).

Definition finished (t : task) : bool :=
  match t with Awaiting _ => false | Resolved | Rejected _ => true end.

End TradeIngestion.

(** ** server.ts: the services as [createServer] wires them *)

Module Server.

Import TradeIngestion.

#[export] Instance generatorImpl (rng : nat -> Q)
  : TradeGeneratorService TradeGenerator.TradeGeneratorServiceImpl := {|
  generateBatch := TradeGenerator.generateBatch rng;
  getTotalTrades := TradeGenerator.getTotalTrades;
  getRecommendedBatchSize := TradeGenerator.getRecommendedBatchSize
|}.

#[export] Instance repositoryImpl : InfluxDBRepository InfluxDB.InfluxDBRepositoryImpl := {|
  writeTrades := InfluxDB.writeTrades
|}.

Definition createServices (rng : nat -> Q)
    (tradeGeneration : TradeGenerator.TradeGenerationConfig)
    (influxDB : InfluxDB.InfluxDBConfig)
  : service TradeGenerator.TradeGeneratorServiceImpl InfluxDB.InfluxDBRepositoryImpl :=
  let tradeGenerator :=
    TradeGenerator.createTradeGeneratorService rng tradeGeneration 0 in
  let influxDBRepository := InfluxDB.createInfluxDBRepository influxDB in
  createTradeIngestionService tradeGenerator influxDBRepository.

End Server.

(** ** api/routes.ts: the status tracker and the start and stop routes *)

Module Routes.

Import TradeIngestion.

(** The status strings; [failed] stands for ['error']. *)
Inductive Status : Type := idle | running | completed | failed.

Record StatusResponse : Type := mkStatus {
  status : Status;
  statusProgress : option ProgressData;
  statusError : option string
}.

(** The listeners registered on [progress], [complete] and [error];
    nothing listens to [stopped]. *)
Definition listen (currentStatus : StatusResponse) (e : event) : StatusResponse :=
  match e with
  | progress d =>
      mkStatus running
        (Some (mkProgressData (processed d) (total d) (percentage d) (elapsedMs d)
                 (estimatedRemainingMs d) (tradesPerSecond d)))
        None
  | complete d =>
      mkStatus completed
        (Some (mkProgressData (processed d) (total d) (of_Z 100) (elapsedMs d)
                 (of_Z 0) (tradesPerSecond d)))
        None
  | error (Error message) => mkStatus failed None (Some message)
  | stopped => currentStatus
  end.

Inductive reply : Type := Reply (code : Z) (body : string).

Section Handlers.

Context {G R : Type} `{TradeGeneratorService G} `{InfluxDBRepository R}.
Variable now : nat -> Z.

(** What [registerRoutes] closes over: the tracked status, the
    service, and the promises of the runs started so far. *)
Record app : Type := mkApp {
  currentStatus : StatusResponse;
  tradeIngestionService : service G R;
  runs : list task
}.

(** The events a call of the service has added, passed to the
    listeners in order. *)
Definition deliver (before after : service G R) (currentStatus : StatusResponse)
  : StatusResponse :=
  fold_left listen
    (drop (length (events (trace before))) (events (trace after)))
    currentStatus.

(** [POST /api/start] *)
Definition postStart (a : app) : reply * app :=
  match status (currentStatus a) with
  | running => (Reply 409 "Trade ingestion is already running", a)
  | _ =>
      let currentStatus := mkStatus running None None in
      let (w, t) := startIngestion now (tradeIngestionService a) in
      (Reply 202 "Trade ingestion started",
       mkApp (deliver (tradeIngestionService a) w currentStatus) w (runs a ++ [t]))
  end.

(** [POST /api/stop] *)
Definition postStop (a : app) : reply * app :=
  match status (currentStatus a) with
  | running =>
      let w := stopIngestion (tradeIngestionService a) in
      (Reply 200 "Trade ingestion stopped",
       mkApp (deliver (tradeIngestionService a) w (currentStatus a)) w (runs a))
  | _ => (Reply 409 "Trade ingestion is not running", a)
  end.

End Handlers.

End Routes.

(** ** api/routes.ts: requests and settlements in the order they arrive *)

Module Requests.

Import TradeIngestion Routes.

Section Requests.

Context {G R : Type} `{TradeGeneratorService G} `{InfluxDBRepository R}.
Variable now : nat -> Z.

(** [registerRoutes]: the status is ['idle'] and no run was started. *)
Definition registerRoutes (tradeIngestionService : service G R) : app :=
  mkApp (mkStatus idle None None) tradeIngestionService [].

(** [GET /api/status] *)
Definition getStatus (a : app (G := G) (R := R)) : StatusResponse := currentStatus a.

(** [GET /api/config]: [totalTrades] and [batchSize] of the generator
    that [createServer] has also given to the ingestion service. *)
Definition getConfig (a : app (G := G) (R := R)) : Z * Z :=
  (getTotalTrades (tradeGenerator (tradeIngestionService a)),
   getRecommendedBatchSize (tradeGenerator (tradeIngestionService a))).

(** What reaches the application: a request to one of the two [POST]
    routes, or the settlement of the write that the [i]-th run awaits. *)
Inductive request : Type :=
| PostStart
| PostStop
| WriteSettles (i : nat) (outcome : option exn).

(** The [i]-th run continues; the listeners see the events it emits. *)
Definition settleRun (i : nat) (outcome : option exn) (a : app (G := G) (R := R))
  : app :=
  match runs a !! i with
  | Some (Awaiting f) =>
      let (w, t) := resume now outcome f (tradeIngestionService a) in
      mkApp (deliver (tradeIngestionService a) w (currentStatus a)) w
        (<[i := t]> (runs a))
  | _ => a
  end.

Definition handle (a : app (G := G) (R := R)) (r : request) : app :=
  match r with
  | PostStart => snd (postStart now a)
  | PostStop => snd (postStop a)
  | WriteSettles i outcome => settleRun i outcome a
  end.

Definition serve (a : app (G := G) (R := R)) (requests : list request) : app :=
  fold_left handle requests a.

(** The number of runs whose promise is not settled. *)
Definition pending (a : app (G := G) (R := R)) : nat :=
  count (fun t => negb (finished t)) (runs a).

(** The status is ['running'] while a run is pending, and at most one
    run is. *)
Definition tracked (a : app (G := G) (R := R)) : Prop :=
  (pending a <= 1)%nat
  /\ (pending a = 1%nat -> status (currentStatus a) = running).

End Requests.

End Requests.

(** ** The mocks of the service's unit tests *)

Module Mock.

Import TradeIngestion.

(** [mockTradeGenerator]: [getTotalTrades], [getRecommendedBatchSize]
    and [generateBatch] return configured values. *)
Record mockTradeGenerator : Type := mkMockGenerator {
  mockTotalTrades : Z;
  mockBatchSize : Z;
  mockBatch : list (Trade TradeSide)
}.

#[export] Instance mockGeneratorService : TradeGeneratorService mockTradeGenerator := {|
  generateBatch := fun _ g => (Ok (mockBatch g), g);
  getTotalTrades := mockTotalTrades;
  getRecommendedBatchSize := mockBatchSize
|}.

(** [mockInfluxDBRepository]: remembers the number of calls. *)
#[export] Instance mockRepository : InfluxDBRepository nat := {|
  writeTrades := fun _ calls => S calls
|}.

Definition sampleTrades : list (Trade TradeSide) :=
  [ mkTrade "AAPL" BUY (Fin (15025 # 100)) (of_Z 100)
      (DateObj (newDate 1705321845000));
    mkTrade "MSFT" SELL (Fin (35075 # 100)) (of_Z 50)
      (DateObj (newDate 1705321875000)) ].

Definition mockService (totalTrades batchSize : Z) : service mockTradeGenerator nat :=
  createTradeIngestionService (mkMockGenerator totalTrades batchSize sampleTrades) 0%nat.

End Mock.

(** ** Sample configurations *)

Module Sample.

(** The configuration of the generator's unit tests: the year 2024
    and five symbols. *)
Definition config : TradeGenerator.TradeGenerationConfig :=
  TradeGenerator.mkConfig 1000 100
    (newDate 1704067200000) (newDate 1735689599000)
    ["AAPL"; "MSFT"; "AMZN"; "GOOGL"; "META"].

(** A morning: 2024-06-03 from 00:00:00 to 12:00:00 UTC. *)
Definition morning : TradeGenerator.TradeGenerationConfig :=
  TradeGenerator.mkConfig 1000 100
    (newDate 1717372800000) (newDate 1717416000000)
    ["AAPL"].

(** Random sources that always return the same number. *)
Definition zeros : nat -> Q := fun _ => 0%Q.
Definition halves : nat -> Q := fun _ => (1 # 2)%Q.

Definition generator : TradeGenerator.TradeGeneratorServiceImpl :=
  TradeGenerator.createTradeGeneratorService halves config 0.

Definition morningGenerator : TradeGenerator.TradeGeneratorServiceImpl :=
  TradeGenerator.createTradeGeneratorService zeros morning 0.

Definition influxDB : InfluxDB.InfluxDBConfig :=
  InfluxDB.mkInfluxDBConfig "http://localhost:8086" "test-token" "test-org"
    "test-bucket".

(** A target of seven trades in batches of three. *)
Definition small : TradeGenerator.TradeGenerationConfig :=
  TradeGenerator.mkConfig 7 3
    (newDate 1704067200000) (newDate 1735689599000)
    ["AAPL"; "MSFT"].

(** A clock that advances by 5 ms between two readings. *)
Definition now (k : nat) : Z := 1704067200000 + 5 * Z.of_nat k.

(** Two trades in batches of one, over a list of symbols whose second
    entry is blank. *)
Definition blankSymbol : TradeGenerator.TradeGenerationConfig :=
  TradeGenerator.mkConfig 2 1
    (newDate 1704067200000) (newDate 1735689599000)
    ["AAPL"; " "].

(** A random source that returns 0 twelve times and 1/2 from then on. *)
Definition zerosThenHalves (k : nat) : Q := if (k <? 12)%nat then 0%Q else (1 # 2)%Q.

(** A batch size of zero. *)
Definition noBatch : TradeGenerator.TradeGenerationConfig :=
  TradeGenerator.mkConfig 5 0
    (newDate 1704067200000) (newDate 1735689599000)
    ["AAPL"; "MSFT"].

End Sample.

(** ** Vocabulary of the statements *)

Module Vocabulary.

Definition succeeds {A : Type} (r : result A) : Prop := exists a, r = Ok a.

(** Every random number lies in the interval from 0 (included) to 1
    (excluded). *)
Definition unitInterval (rng : nat -> Q) : Prop :=
  forall k, (0 <= rng k)%Q /\ (rng k < 1)%Q.

(** The states a generator built from [config] can be in: freshly
    constructed, or after any call of [generateBatch]. *)
Inductive reachable (rng : nat -> Q) (config : TradeGenerator.TradeGenerationConfig)
  : TradeGenerator.TradeGeneratorServiceImpl -> Prop :=
| reachable_new (draws : nat) :
    reachable rng config (TradeGenerator.createTradeGeneratorService rng config draws)
| reachable_batch (batchSize : Z) (g : TradeGenerator.TradeGeneratorServiceImpl) :
    reachable rng config g ->
    reachable rng config (snd (TradeGenerator.generateBatch rng batchSize g)).

Definition positivePrices (prices : gmap (option string) Q) : Prop :=
  forall k b, prices !! k = Some b -> (0 < b)%Q.

(** [0.995 ^ n]: the least factor by which [n] price draws can scale
    a baseline. *)
Fixpoint decay (n : nat) : Q :=
  match n with
  | O => 1%Q
  | S n' => ((199 # 200) * decay n')%Q
  end.

Definition timeOfDay (t : Z) : Z := t mod msPerDay.

(** What is common to the two descriptions of a generated trade: a
    configured symbol, a side, a positive price and a positive integral
    amount. *)
Definition tradeFields (config : TradeGenerator.TradeGenerationConfig)
    (t : Trade TradeSide) : Prop :=
  In (symbol t) (TradeGenerator.symbols config)
  /\ (side t = BUY \/ side t = SELL)
  /\ gt0 (price t) = true
  /\ (exists a : Z, amount t = of_Z a /\ 1 <= a).

(** The timestamp lies between [startDate] and [endDate]. *)
Definition withinRange (config : TradeGenerator.TradeGenerationConfig)
    (t : Trade TradeSide) : Prop :=
  exists ts s e,
    timestamp t = DateObj (mkDate (Some ts))
    /\ getTime (TradeGenerator.startDate config) = Some s
    /\ getTime (TradeGenerator.endDate config) = Some e
    /\ s <= ts <= e.

(** The timestamp lies on a UTC day between the day of [startDate]
    and the day of [endDate], at a time of day from 14:00:00.000 to
    20:59:59.999. *)
Definition withinTradingHours (config : TradeGenerator.TradeGenerationConfig)
    (t : Trade TradeSide) : Prop :=
  exists ts s e,
    timestamp t = DateObj (mkDate (Some ts))
    /\ getTime (TradeGenerator.startDate config) = Some s
    /\ getTime (TradeGenerator.endDate config) = Some e
    /\ Day s <= Day ts <= Day e
    /\ 14 * msPerHour <= timeOfDay ts < 21 * msPerHour.

(** The range starts at or before 14:00 of its first day and ends at
    or after 20:59:59.999 of its last day. *)
Definition coversTradingHours (s e : Z) : Prop :=
  timeOfDay s <= 14 * msPerHour /\ 21 * msPerHour - 1 <= timeOfDay e.

(** The generator is set up for [config] and the range from [s] to
    [e], and every configured symbol has a baseline that [n] further
    price draws cannot bring below one cent. *)
Definition batchReady (config : TradeGenerator.TradeGenerationConfig) (s e : Z)
    (n : nat) (g : TradeGenerator.TradeGeneratorServiceImpl) : Prop :=
  TradeGenerator.config g = config
  /\ TradeGenerator.startTimestamp g = Some s
  /\ TradeGenerator.timeRange g = Some (e - s)
  /\ (forall sym, In sym (TradeGenerator.symbols config) ->
        (1 # 100 <= TradeGenerator.basePriceOf g (Some sym) * decay n)%Q).

(** [ceil(total / batchSize)] *)
Definition batchCount (total batchSize : Z) : nat :=
  Z.to_nat ((total + batchSize - 1) / batchSize).

(** Full batches, then the remainder if there is one. *)
Definition expectedBatchSizes (total batchSize : Z) : list Z :=
  repeat batchSize (Z.to_nat (total / batchSize))
  ++ (if total mod batchSize =? 0 then [] else [total mod batchSize]).

(** The sizes of the next [k] batches when [remaining] trades are left. *)
Fixpoint chunks (k : nat) (batchSize remaining : Z) : list Z :=
  match k with
  | O => []
  | S k' =>
      Z.min batchSize remaining
      :: chunks k' batchSize (remaining - Z.min batchSize remaining)
  end.

(** The count of trades after each batch, starting from [acc]. *)
Fixpoint runningTotals (acc : Z) (sizes : list Z) : list Z :=
  match sizes with
  | [] => []
  | n :: rest => (acc + n) :: runningTotals (acc + n) rest
  end.

Definition sumSizes (l : list Z) : Z := fold_right Z.add 0 l.

(** A generator that returns as many trades as it is asked for. *)
Definition honest {G : Type} `{TradeIngestion.TradeGeneratorService G} : Prop :=
  forall (n : Z) (g g' : G) (trades : list (Trade TradeSide)),
    TradeIngestion.generateBatch n g = (Ok trades, g') ->
    length trades = Z.to_nat n.

(** The events of a run so far, [evs], against the number of calls
    of [stopIngestion] so far, the promise of the run and the stop flag:
    one [stopped] event per call; at most one [complete] or [error], and
    none while the run is pending; and, as long as no stop was requested,
    the flag is clear and the events are progress events, followed by one
    [complete] or [error] once the run is over. *)
Definition lifecycle (evs : list TradeIngestion.event) (stops : nat)
    (t : TradeIngestion.task) (flag : bool) : Prop :=
  TradeIngestion.count TradeIngestion.isStoppedEvent evs = stops
  /\ (TradeIngestion.count TradeIngestion.isComplete evs
      + TradeIngestion.count TradeIngestion.isError evs <= 1)%nat
  /\ (TradeIngestion.finished t = false ->
      (TradeIngestion.count TradeIngestion.isComplete evs
       + TradeIngestion.count TradeIngestion.isError evs = 0)%nat)
  /\ (stops = 0%nat ->
      flag = false
      /\ exists ds,
           if TradeIngestion.finished t
           then exists last,
                  evs = map TradeIngestion.progress ds ++ [last]
                  /\ TradeIngestion.isComplete last || TradeIngestion.isError last
                     = true
           else evs = map TradeIngestion.progress ds).

End Vocabulary.
Export Vocabulary.

(** ** Vocabulary of the further properties *)

Module Invariants.

Import TradeIngestion.

(** A string of white space only; the empty string is one. *)
Definition blank (s : string) : Prop :=
  forall c, In c (list_ascii_of_string s) -> isWhiteSpace c = true.

(** What [createTrade] has checked of a trade that [generateBatch]
    returns, and what the generator has put into it. *)
Definition validated (config : TradeGenerator.TradeGenerationConfig)
    (t : Trade TradeSide) : Prop :=
  In (symbol t) (TradeGenerator.symbols config)
  /\ ~ blank (symbol t)
  /\ (exists cents : Z, price t = Fin (inject_Z cents / 100) /\ 1 <= cents)
  /\ (exists a : Z, amount t = of_Z a /\ 1 <= a)
  /\ (exists ts : Z, timestamp t = DateObj (mkDate (Some ts))).

(** [1.005 ^ n]: the bound on the factor by which [n] price draws can
    scale a baseline. *)
Fixpoint growth (n : nat) : Q :=
  match n with
  | O => 1%Q
  | S n' => ((201 # 200) * growth n')%Q
  end.

(** The symbols of [config] as keys of the baseline prices. *)
Definition configured (config : TradeGenerator.TradeGenerationConfig)
    (k : option string) : Prop :=
  exists sym, k = Some sym /\ In sym (TradeGenerator.symbols config).

(** The payloads of the progress events among [evs]. *)
Definition progressData (evs : list event) : list ProgressData :=
  omap (fun e => match e with progress d => Some d | _ => None end) evs.

(** A progress payload reports the target [target] and a count of
    trades that does not exceed it. *)
Definition withinTarget (target : Z) (d : ProgressData) : Prop :=
  total d = target /\ processed d <= target.

(** The books of a run whose target is [target], after [fulfilled]
    writes were acknowledged: [tr] is what the run has done so far and
    [t] its promise.  The batches requested are [sizes], one per progress
    event, followed by at most one more ([rest]), the batch in flight or
    the batch that failed. *)
Definition accounted (target : Z) (fulfilled : nat) (tr : list action) (t : task)
  : Prop :=
  exists sizes rest,
    batchSizes tr = sizes ++ rest
    /\ (length rest <= 1)%nat
    /\ (length sizes <= fulfilled)%nat
    /\ map processed (progressData (events tr)) = runningTotals 0 sizes
    /\ Forall (withinTarget target) (progressData (events tr))
    /\ (length sizes <= length (writes tr))%nat
    /\ (length (writes tr) <= length (sizes ++ rest))%nat
    /\ sumSizes (sizes ++ rest) <= Z.max 0 target
    /\ match t with
       | Awaiting f =>
           totalTrades f = target
           /\ rest = [currentBatchSize f]
           /\ processedTrades f = sumSizes sizes
           /\ length (writes tr) = S (length sizes)
           /\ sumSizes sizes + currentBatchSize f <= target
       | Resolved | Rejected _ => True
       end.

(** The generator keeps [invariant], and the repository, which was
    [r0] when the run began, has received the batches written in [tr],
    in order, each as the generator guarantees. *)
Definition linked {G R : Type} `{InfluxDBRepository R}
    (invariant : G -> Prop) (guarantee : list (Trade TradeSide) -> Prop)
    (r0 : R) (w : service G R) (tr : list action) : Prop :=
  influxDBRepository w = fold_left (fun r trades => writeTrades trades r) (writes tr) r0
  /\ Forall guarantee (writes tr)
  /\ invariant (tradeGenerator w).

End Invariants.

(** * Properties *)

(** ** The trade model *)

Lemma trimEnd_empty_iff (s : string) :
  trimEnd s = "" <-> (forall c, In c (list_ascii_of_string s) -> isWhiteSpace c = true).
Proof.
  induction s as [|c s IH]; simpl.
  - split; [intros _ c [] | reflexivity].
  - destruct (trimEnd s) eqn:E.
    + destruct (isWhiteSpace c) eqn:W.
      * split; [|reflexivity]. intros _ c' [<-|Hc]; [exact W|].
        now apply IH.
      * split; [discriminate|]. intros Hall.
        rewrite (Hall c) in W by now left. discriminate.
    + split; [discriminate|]. intros Hall.
      assert (Hs : String a s0 = "") by (apply IH; intros c' Hc; apply Hall; now right).
      discriminate.
Qed.

Lemma trimStart_blank (s : string) :
  (forall c, In c (list_ascii_of_string s) -> isWhiteSpace c = true)
  <-> (forall c, In c (list_ascii_of_string (trimStart s)) -> isWhiteSpace c = true).
Proof.
  induction s as [|c s IH]; cbn [trimStart]; [reflexivity|].
  destruct (isWhiteSpace c) eqn:W; [|reflexivity].
  rewrite <- IH. cbn [list_ascii_of_string In]. split.
  - intros Hall c' Hc'. apply Hall. now right.
  - intros Hall c' [<-|Hc']; [exact W | now apply Hall].
Qed.

(** [trim] leaves nothing exactly when every code unit is white space. *)
Lemma trim_blank_iff (s : string) :
  trim s = "" <-> (forall c, In c (list_ascii_of_string s) -> isWhiteSpace c = true).
Proof. unfold trim. now rewrite trimEnd_empty_iff, <- trimStart_blank. Qed.

Lemma trim_empty : trim "" = "".
Proof. reflexivity. Qed.

Lemma createTrade_symbol_guard (symbol : string) :
  String.eqb symbol "" || String.eqb (trim symbol) "" = true <-> trim symbol = "".
Proof.
  rewrite orb_true_iff, !String.eqb_eq. split.
  - intros [-> | E]; [apply trim_empty | exact E].
  - now right.
Qed.



(** ** The repository *)


(** ** The generator *)

(** C9.  For a count that is zero or negative, [generateBatch] returns
    the empty array without throwing and leaves the generator, its
    baseline prices included, as it was. *)
Theorem generateBatch_nonpositive (rng : nat -> Q) (count : Z)
    (g : TradeGenerator.TradeGeneratorServiceImpl) :
  count <= 0 ->
  TradeGenerator.generateBatch rng count g = (Ok [], g)
  /\ TradeGenerator.baselinePrices (snd (TradeGenerator.generateBatch rng count g))
     = TradeGenerator.baselinePrices g.
Proof.
  intros Hcount. unfold TradeGenerator.generateBatch.
  destruct count as [|c|c]; [split; reflexivity | lia | split; reflexivity].
Qed.

Lemma generateBatch_nonpositive_witness :
  -3 <= 0
  /\ TradeGenerator.generateBatch Sample.halves (-3) Sample.generator
     = (Ok [], Sample.generator).
Proof.
  split; [lia|].
  apply (generateBatch_nonpositive Sample.halves (-3) Sample.generator). lia.
Defined.

(** The state in which one iteration of [generateBatch] leaves the
    generator: ten more random numbers drawn, one baseline overwritten. *)
Lemma generateTrade_state (rng : nat -> Q) (g : TradeGenerator.TradeGeneratorServiceImpl) :
  let d := TradeGenerator.draws g in
  let symbols := TradeGenerator.symbols (TradeGenerator.config g) in
  let symbol :=
    TradeGenerator.symbolAt symbols
      (Qfloor (rng d * inject_Z (Z.of_nat (length symbols)))) in
  snd (TradeGenerator.generateTrade rng g)
  = TradeGenerator.mkGenerator (TradeGenerator.config g)
      (TradeGenerator.startTimestamp g) (TradeGenerator.endTimestamp g)
      (TradeGenerator.timeRange g)
      (<[symbol := (TradeGenerator.basePriceOf g symbol
                    * (1 + (rng (3 + d)%nat - (1 # 2)) * (1 # 100)))%Q]>
         (TradeGenerator.baselinePrices g))
      (10 + d)%nat.
Proof. reflexivity. Qed.

Lemma generateLoop_S (rng : nat -> Q) (n : nat)
    (acc : list (Trade TradeSide)) (g : TradeGenerator.TradeGeneratorServiceImpl) :
  TradeGenerator.generateLoop rng (S n) acc g
  = (let (r, g1) := TradeGenerator.generateTrade rng g in
     match r with
     | Ok trade => TradeGenerator.generateLoop rng n (acc ++ [trade]) g1
     | Throw e => (Throw e, g1)
     end).
Proof.
  cbn [TradeGenerator.generateLoop]. unfold TradeGenerator.bind.
  destruct (TradeGenerator.generateTrade rng g) as [[trade|e] g1]; reflexivity.
Qed.

Lemma generateLoop_length (rng : nat -> Q) (n : nat) :
  forall acc g trades g',
    TradeGenerator.generateLoop rng n acc g = (Ok trades, g') ->
    length trades = (length acc + n)%nat.
Proof.
  induction n as [|n IH]; intros acc g trades g' E.
  - injection E as <- _. lia.
  - rewrite generateLoop_S in E.
    destruct (TradeGenerator.generateTrade rng g) as [[trade|e] g1].
    + apply IH in E. rewrite E, length_app. cbn [length]. lia.
    + discriminate E.
Qed.

Lemma basePriceOf_positive (g : TradeGenerator.TradeGeneratorServiceImpl) (k : option string) :
  positivePrices (TradeGenerator.baselinePrices g) ->
  (0 < TradeGenerator.basePriceOf g k)%Q.
Proof.
  intros Hpos. unfold TradeGenerator.basePriceOf.
  destruct (TradeGenerator.baselinePrices g !! k) as [b|] eqn:E; [|reflexivity].
  destruct (Qeq_bool b 0); [reflexivity|]. exact (Hpos k b E).
Qed.

Lemma basePriceOf_lookup (g : TradeGenerator.TradeGeneratorServiceImpl)
    (k : option string) (b : Q) :
  TradeGenerator.baselinePrices g !! k = Some b -> (0 < b)%Q ->
  TradeGenerator.basePriceOf g k = b.
Proof.
  intros E Hb. unfold TradeGenerator.basePriceOf. rewrite E.
  destruct (Qeq_bool b 0) eqn:Eb; [|reflexivity].
  apply Qeq_bool_eq in Eb. rewrite Eb in Hb. discriminate Hb.
Qed.

Lemma drift_factor_bounds (u : Q) :
  (0 <= u)%Q -> (u < 1)%Q ->
  (199 # 200 <= 1 + (u - (1 # 2)) * (1 # 100))%Q
  /\ (1 + (u - (1 # 2)) * (1 # 100) < 201 # 200)%Q.
Proof. intros H0 H1. split; lra. Qed.

Lemma positivePrices_insert (prices : gmap (option string) Q) (k : option string) (b : Q) :
  (0 < b)%Q -> positivePrices prices -> positivePrices (<[k := b]> prices).
Proof.
  intros Hb Hpos k' b' E. apply lookup_insert_Some in E as [[_ <-]|[_ E]].
  - exact Hb.
  - exact (Hpos k' b' E).
Qed.

Lemma generateTrade_positive (rng : nat -> Q) (g : TradeGenerator.TradeGeneratorServiceImpl) :
  unitInterval rng ->
  positivePrices (TradeGenerator.baselinePrices g) ->
  positivePrices (TradeGenerator.baselinePrices (snd (TradeGenerator.generateTrade rng g))).
Proof.
  intros Hrng Hpos. rewrite generateTrade_state. cbn [TradeGenerator.baselinePrices].
  apply positivePrices_insert; [|exact Hpos].
  destruct (Hrng (3 + TradeGenerator.draws g)%nat) as [H0 H1].
  destruct (drift_factor_bounds _ H0 H1) as [Hlo _].
  apply Qmult_lt_0_compat; [now apply basePriceOf_positive | lra].
Qed.

Lemma generateLoop_positive (rng : nat -> Q) (n : nat) :
  unitInterval rng ->
  forall trades g,
    positivePrices (TradeGenerator.baselinePrices g) ->
    positivePrices
      (TradeGenerator.baselinePrices (snd (TradeGenerator.generateLoop rng n trades g))).
Proof.
  intros Hrng. induction n as [|n IH]; intros trades g Hpos; [exact Hpos|].
  cbn [TradeGenerator.generateLoop]. unfold TradeGenerator.bind.
  assert (Hstep := generateTrade_positive rng g Hrng Hpos).
  destruct (TradeGenerator.generateTrade rng g) as [[trade|e] g']; cbn [snd] in *.
  - now apply IH.
  - exact Hstep.
Qed.

Lemma initializeBaselinePrices_positive (rng : nat -> Q) (symbols : list string) :
  unitInterval rng ->
  forall prices d,
    positivePrices prices ->
    positivePrices (fst (TradeGenerator.initializeBaselinePrices rng symbols prices d)).
Proof.
  intros Hrng. induction symbols as [|symbol rest IH]; intros prices d Hpos; [exact Hpos|].
  cbn [TradeGenerator.initializeBaselinePrices]. apply IH.
  apply positivePrices_insert; [|exact Hpos].
  destruct (Hrng d) as [H0 _]. lra.
Qed.

(** Baseline prices stay positive in every reachable state. *)
Lemma reachable_positive (rng : nat -> Q) (config : TradeGenerator.TradeGenerationConfig)
    (g : TradeGenerator.TradeGeneratorServiceImpl) :
  unitInterval rng -> reachable rng config g ->
  positivePrices (TradeGenerator.baselinePrices g).
Proof.
  intros Hrng Hreach. induction Hreach as [d|n g Hreach IH].
  - unfold TradeGenerator.createTradeGeneratorService.
    assert (H := initializeBaselinePrices_positive rng
                   (TradeGenerator.symbols config) Hrng ∅ d).
    destruct (TradeGenerator.initializeBaselinePrices rng
                (TradeGenerator.symbols config) ∅ d) as [prices d'].
    cbn [TradeGenerator.baselinePrices fst] in *. apply H.
    intros k b E. rewrite lookup_empty in E. discriminate E.
  - unfold TradeGenerator.generateBatch. now apply generateLoop_positive.
Qed.

Lemma parseFloat_toFixed2_close (x : Q) :
  (0 <= x)%Q ->
  (x - (1 # 200) < parseFloat_toFixed2 x)%Q
  /\ (parseFloat_toFixed2 x <= x + (1 # 200))%Q.
Proof.
  intros Hx. unfold parseFloat_toFixed2, hundredths.
  assert (E : Qle_bool 0 x = true) by now apply Qle_bool_iff.
  rewrite E.
  assert (Hle := Qfloor_le (x * 100 + (1 # 2))).
  assert (Hlt := Qlt_floor (x * 100 + (1 # 2))).
  rewrite inject_Z_plus in Hlt.
  set (n := inject_Z (Qfloor (x * 100 + (1 # 2)))) in *.
  change (inject_Z 1) with 1%Q in Hlt.
  split.
  - apply Qlt_shift_div_l; [reflexivity | lra].
  - apply Qle_shift_div_r; [reflexivity | lra].
Qed.

Lemma unitInterval_halves : unitInterval Sample.halves.
Proof. intros k. split; [discriminate | reflexivity]. Qed.



(** *** Random integers *)

Lemma randomBelow_range (u : Q) (k : Z) :
  (0 <= u)%Q -> (u < 1)%Q -> 0 < k ->
  0 <= Qfloor (u * inject_Z k) < k.
Proof.
  intros H0 H1 Hk.
  assert (Hk' : (inject_Z 0 < inject_Z k)%Q) by (rewrite <- Zlt_Qlt; exact Hk).
  change (inject_Z 0) with 0%Q in Hk'.
  split.
  - change 0 with (Qfloor 0). apply Qfloor_resp_le.
    apply Qmult_le_0_compat; [exact H0 | now apply Qlt_le_weak].
  - rewrite Zlt_Qlt. eapply Qle_lt_trans; [apply Qfloor_le|].
    rewrite <- (Qmult_1_l (inject_Z k)) at 2.
    now apply Qmult_lt_compat_r.
Qed.

Lemma randomBelow_zero (u : Q) : Qfloor (u * inject_Z 0) = 0.
Proof.
  assert (E : (u * inject_Z 0 == 0)%Q) by (change (inject_Z 0) with 0%Q; ring).
  now rewrite E.
Qed.

Lemma randomAmount_range (u : Q) :
  (0 <= u)%Q -> (u < 1)%Q ->
  1 <= Qfloor (u * u * 1000) + 1 <= 1000.
Proof.
  intros H0 H1.
  assert (Hsq0 : (0 <= u * u)%Q) by now apply Qmult_le_0_compat.
  assert (Hsq1 : (u * u < 1)%Q) by nra.
  destruct (randomBelow_range (u * u) 1000 Hsq0 Hsq1 ltac:(lia)) as [Hlo Hhi].
  change (inject_Z 1000) with 1000%Q in *. lia.
Qed.

(** *** Dates *)

Lemma time_components (d h m s ms : Z) :
  0 <= h < 24 -> 0 <= m < 60 -> 0 <= s < 60 -> 0 <= ms < 1000 ->
  let t := MakeDate d (MakeTime h m s ms) in
  Day t = d /\ HourFromTime t = h /\ MinFromTime t = m /\ SecFromTime t = s
  /\ msFromTime t = ms.
Proof.
  intros Hh Hm Hs Hms t. subst t.
  unfold Day, HourFromTime, MinFromTime, SecFromTime, msFromTime, MakeDate, MakeTime,
    msPerDay, msPerHour, msPerMinute, msPerSecond.
  repeat split.
  all: Z.div_mod_to_equations; lia.
Qed.

Lemma time_decompose (t : Z) :
  0 <= HourFromTime t < 24 /\ 0 <= MinFromTime t < 60 /\ 0 <= SecFromTime t < 60
  /\ 0 <= msFromTime t < 1000.
Proof.
  unfold HourFromTime, MinFromTime, SecFromTime, msFromTime,
    msPerHour, msPerMinute, msPerSecond.
  repeat split.
  all: Z.div_mod_to_equations; lia.
Qed.

Lemma TimeClip_within_day (d h m s ms : Z) :
  - 100000000 <= d < 100000000 ->
  0 <= h < 24 -> 0 <= m < 60 -> 0 <= s < 60 -> 0 <= ms < 1000 ->
  TimeClip (MakeDate d (MakeTime h m s ms)) = Some (MakeDate d (MakeTime h m s ms)).
Proof.
  intros Hd Hh Hm Hs Hms. unfold TimeClip.
  destruct (Z.leb_spec (Z.abs (MakeDate d (MakeTime h m s ms))) maxTime) as [|Hgt];
    [reflexivity|].
  exfalso. revert Hgt.
  unfold MakeDate, MakeTime, maxTime, msPerDay, msPerHour, msPerMinute, msPerSecond.
  lia.
Qed.

Lemma Day_range (t : Z) :
  - maxTime <= t < maxTime -> - 100000000 <= Day t < 100000000.
Proof.
  unfold Day, maxTime, msPerDay. intros Ht.
  Z.div_mod_to_equations. lia.
Qed.

(** The four setters, applied to a date in range, replace the time of
    day and keep the day. *)
Lemma setUTC_time (t h m s ms : Z) :
  - maxTime <= t < maxTime ->
  0 <= h < 24 -> 0 <= m < 60 -> 0 <= s < 60 -> 0 <= ms < 1000 ->
  setUTCMilliseconds ms (setUTCSeconds s (setUTCMinutes m (setUTCHours h (newDate t))))
  = mkDate (Some (MakeDate (Day t) (MakeTime h m s ms))).
Proof.
  intros Ht Hh Hm Hs Hms.
  assert (Hd := Day_range t Ht).
  destruct (time_decompose t) as (Hh0 & Hm0 & Hs0 & Hms0).
  assert (E0 : newDate t = mkDate (Some t)).
  { unfold newDate, TimeClip.
    destruct (Z.leb_spec (Z.abs t) maxTime); [reflexivity | lia]. }
  rewrite E0.
  unfold setUTCHours, withTime at 1. cbn [getTime].
  rewrite TimeClip_within_day by assumption.
  destruct (time_components (Day t) h (MinFromTime t) (SecFromTime t) (msFromTime t))
    as (D1 & H1 & M1 & S1 & MS1); try assumption.
  unfold setUTCMinutes, withTime at 1. cbn [getTime].
  rewrite D1, H1, S1, MS1.
  rewrite TimeClip_within_day by assumption.
  destruct (time_components (Day t) h m (SecFromTime t) (msFromTime t))
    as (D2 & H2 & M2 & S2 & MS2); try assumption.
  unfold setUTCSeconds, withTime at 1. cbn [getTime].
  rewrite D2, H2, M2, MS2.
  rewrite TimeClip_within_day by assumption.
  destruct (time_components (Day t) h m s (msFromTime t))
    as (D3 & H3 & M3 & S3 & MS3); try assumption.
  unfold setUTCMilliseconds, withTime at 1. cbn [getTime].
  rewrite D3, H3, M3, S3.
  now rewrite TimeClip_within_day by assumption.
Qed.

(** *** One generated trade *)

Lemma generateRandomTimestamp_eq (rng : nat -> Q)
    (g : TradeGenerator.TradeGeneratorServiceImpl) :
  let d := TradeGenerator.draws g in
  fst (TradeGenerator.generateRandomTimestamp rng g)
  = setUTCMilliseconds (Qfloor (rng (4 + d)%nat * inject_Z 1000))
      (setUTCSeconds (Qfloor (rng (3 + d)%nat * inject_Z 60))
         (setUTCMinutes (Qfloor (rng (2 + d)%nat * inject_Z 60))
            (setUTCHours (14 + Qfloor (rng (1 + d)%nat * inject_Z 7))
               match TradeGenerator.startTimestamp g, TradeGenerator.timeRange g with
               | Some start, Some range =>
                   newDate (start + Qfloor (rng d * inject_Z range))
               | _, _ => mkDate None
               end))).
Proof. reflexivity. Qed.

Lemma generateRandomTimestamp_value (rng : nat -> Q)
    (g : TradeGenerator.TradeGeneratorServiceImpl) (s r : Z) :
  unitInterval rng ->
  TradeGenerator.startTimestamp g = Some s ->
  TradeGenerator.timeRange g = Some r ->
  0 <= r -> - maxTime <= s -> s + r < maxTime ->
  exists ts,
    fst (TradeGenerator.generateRandomTimestamp rng g) = mkDate (Some ts)
    /\ Day s <= Day ts <= Day (s + r)
    /\ 14 * msPerHour <= timeOfDay ts < 21 * msPerHour.
Proof.
  intros Hrng Hs Hr Hr0 Hlo Hhi.
  rewrite generateRandomTimestamp_eq. cbv zeta. rewrite Hs, Hr.
  set (d := TradeGenerator.draws g).
  destruct (Hrng d) as [Ha0 Ha1].
  destruct (Hrng (1 + d)%nat) as [Hb0 Hb1].
  destruct (Hrng (2 + d)%nat) as [Hc0 Hc1].
  destruct (Hrng (3 + d)%nat) as [Hd0 Hd1].
  destruct (Hrng (4 + d)%nat) as [He0 He1].
  assert (Hoff : 0 <= Qfloor (rng d * inject_Z r) <= r).
  { destruct (Z.eq_dec r 0) as [->|Hne].
    - rewrite randomBelow_zero. lia.
    - destruct (randomBelow_range (rng d) r Ha0 Ha1 ltac:(lia)). lia. }
  assert (Hh := randomBelow_range _ 7 Hb0 Hb1 ltac:(lia)).
  assert (Hm := randomBelow_range _ 60 Hc0 Hc1 ltac:(lia)).
  assert (Hsec := randomBelow_range _ 60 Hd0 Hd1 ltac:(lia)).
  assert (Hms := randomBelow_range _ 1000 He0 He1 ltac:(lia)).
  set (off := Qfloor (rng d * inject_Z r)) in *.
  set (h := Qfloor (rng (1 + d)%nat * inject_Z 7)) in *.
  set (m := Qfloor (rng (2 + d)%nat * inject_Z 60)) in *.
  set (sec := Qfloor (rng (3 + d)%nat * inject_Z 60)) in *.
  set (ms := Qfloor (rng (4 + d)%nat * inject_Z 1000)) in *.
  rewrite setUTC_time by lia.
  eexists. split; [reflexivity|].
  destruct (time_components (Day (s + off)) (14 + h) m sec ms) as (D1 & _); try lia.
  cbv zeta in D1. rewrite D1. split.
  - split; unfold Day, msPerDay; apply Z.div_le_mono; lia.
  - unfold timeOfDay, MakeDate, MakeTime, msPerDay, msPerHour, msPerMinute, msPerSecond.
    Z.div_mod_to_equations. lia.
Qed.

Lemma generateTrade_result (rng : nat -> Q) (g : TradeGenerator.TradeGeneratorServiceImpl) :
  let d := TradeGenerator.draws g in
  let symbols := TradeGenerator.symbols (TradeGenerator.config g) in
  let symbol :=
    TradeGenerator.symbolAt symbols
      (Qfloor (rng d * inject_Z (Z.of_nat (length symbols)))) in
  let base := TradeGenerator.basePriceOf g symbol in
  let g5 :=
    TradeGenerator.mkGenerator (TradeGenerator.config g)
      (TradeGenerator.startTimestamp g) (TradeGenerator.endTimestamp g)
      (TradeGenerator.timeRange g)
      (<[symbol := (base * (1 + (rng (3 + d)%nat - (1 # 2)) * (1 # 100)))%Q]>
         (TradeGenerator.baselinePrices g))
      (5 + d)%nat in
  fst (TradeGenerator.generateTrade rng g)
  = match symbol with
    | Some sym =>
        createTrade sym
          (if negb (Qle_bool (1 # 2) (rng (1 + d)%nat)) then BUY else SELL)
          (Fin (parseFloat_toFixed2
                  (base * (1 + (rng (2 + d)%nat - (1 # 2)) * (1 # 10)))%Q))
          (of_Z (Qfloor (rng (4 + d)%nat * rng (4 + d)%nat * 1000)%Q + 1))
          (DateObj (fst (TradeGenerator.generateRandomTimestamp rng g5)))
    | None => Throw (Error "Symbol is required")
    end.
Proof. reflexivity. Qed.

Lemma createTrade_succeeds {S : Type}
    (symbol : string) (side : S) (price amount : number) (timestamp : value) :
  trim symbol <> "" -> le0 price = false -> le0 amount = false ->
  isValidDate timestamp = true ->
  createTrade symbol side price amount timestamp
  = Ok (mkTrade symbol side price amount timestamp).
Proof.
  intros Hsym Hp Ha Ht. unfold createTrade.
  destruct (String.eqb symbol "" || String.eqb (trim symbol) "") eqn:E.
  - apply createTrade_symbol_guard in E. contradiction.
  - now rewrite Hp, Ha, Ht.
Qed.

Lemma symbolAt_in (symbols : list string) (i : Z) :
  0 <= i < Z.of_nat (length symbols) ->
  exists sym, TradeGenerator.symbolAt symbols i = Some sym /\ In sym symbols.
Proof.
  intros Hi. unfold TradeGenerator.symbolAt.
  destruct (Z.ltb_spec i 0) as [|_]; [lia|].
  destruct (lookup_lt_is_Some_2 symbols (Z.to_nat i)) as [sym Hsym]; [lia|].
  exists sym. split; [exact Hsym|].
  apply list_elem_of_In. eapply list_elem_of_lookup_2. exact Hsym.
Qed.

Lemma decay_range (n : nat) : (0 < decay n)%Q /\ (decay n <= 1)%Q.
Proof.
  induction n as [|n [IH0 IH1]]; cbn [decay].
  - split; [reflexivity | discriminate].
  - split; [apply Qmult_lt_0_compat; [reflexivity | exact IH0] | lra].
Qed.

Lemma positive_factor (x c : Q) : (0 < c)%Q -> (0 < x * c)%Q -> (0 < x)%Q.
Proof.
  intros Hc Hxc. destruct (Qlt_le_dec 0 x) as [|Hle]; [assumption|].
  exfalso. assert (x * c <= 0)%Q by nra. lra.
Qed.

Lemma le0_positive (p : Q) : (0 < p)%Q -> le0 (Fin p) = false.
Proof.
  intros Hp. cbn [le0]. destruct (Qle_bool p 0) eqn:E; [|reflexivity].
  apply Qle_bool_iff in E. lra.
Qed.

Lemma gt0_positive (p : Q) : (0 < p)%Q -> gt0 (Fin p) = true.
Proof. intros Hp. cbn [gt0]. apply le0_positive in Hp. cbn [le0] in Hp. now rewrite Hp. Qed.

Lemma le0_of_Z (a : Z) : 1 <= a -> le0 (of_Z a) = false.
Proof.
  intros Ha. apply le0_positive. change 0%Q with (inject_Z 0).
  rewrite <- Zlt_Qlt. lia.
Qed.

Lemma generateTrade_ok (rng : nat -> Q) (config : TradeGenerator.TradeGenerationConfig)
    (s e : Z) (n : nat) (g : TradeGenerator.TradeGeneratorServiceImpl) :
  unitInterval rng ->
  getTime (TradeGenerator.startDate config) = Some s ->
  getTime (TradeGenerator.endDate config) = Some e ->
  - maxTime <= s -> s <= e -> e < maxTime ->
  TradeGenerator.symbols config <> [] ->
  (forall sym, In sym (TradeGenerator.symbols config) -> trim sym <> "") ->
  batchReady config s e (S n) g ->
  exists trade,
    fst (TradeGenerator.generateTrade rng g) = Ok trade
    /\ tradeFields config trade
    /\ withinTradingHours config trade
    /\ batchReady config s e n (snd (TradeGenerator.generateTrade rng g)).
Proof.
  intros Hrng Hstart Hend Hlo Hse Hhi Hne Htrim (Hcfg & Hs & Hr & Hfloor).
  rewrite generateTrade_result, generateTrade_state. cbv zeta.
  set (d := TradeGenerator.draws g). rewrite Hcfg.
  set (symbols := TradeGenerator.symbols config) in *.
  destruct (Hrng d) as [Ha0 Ha1].
  assert (Hlen : 0 < Z.of_nat (length symbols)).
  { destruct symbols; [contradiction | cbn; lia]. }
  destruct (symbolAt_in symbols _ (randomBelow_range _ _ Ha0 Ha1 Hlen))
    as (sym & Esym & Hin).
  rewrite Esym.
  set (base := TradeGenerator.basePriceOf g (Some sym)).
  destruct (decay_range n) as [Hdn0 Hdn1].
  assert (Hbase : (1 # 100 <= base * ((199 # 200) * decay n))%Q) by exact (Hfloor sym Hin).
  assert (Hbase0 : (0 < base)%Q).
  { apply (positive_factor base ((199 # 200) * decay n)); [nra | lra]. }
  destruct (Hrng (2 + d)%nat) as [Hv0 Hv1].
  destruct (Hrng (3 + d)%nat) as [Hd0 Hd1].
  destruct (Hrng (4 + d)%nat) as [Hm0 Hm1].
  set (exact := (base * (1 + (rng (2 + d)%nat - (1 # 2)) * (1 # 10)))%Q).
  assert (Hexact : (1 # 200 <= exact)%Q).
  { unfold exact. nra. }
  destruct (parseFloat_toFixed2_close exact ltac:(lra)) as [Hp _].
  assert (Hprice : (0 < parseFloat_toFixed2 exact)%Q) by lra.
  assert (Hamount := randomAmount_range _ Hm0 Hm1).
  set (g5 := TradeGenerator.mkGenerator _ _ _ _ _ (5 + d)%nat).
  destruct (generateRandomTimestamp_value rng g5 s (e - s) Hrng Hs Hr)
    as (ts & Ets & Hday & Htod); try lia.
  replace (s + (e - s)) with e in Hday by lia.
  rewrite Ets.
  eexists. split.
  { apply createTrade_succeeds.
    - now apply Htrim.
    - now apply le0_positive.
    - apply le0_of_Z. lia.
    - reflexivity. }
  split; [|split].
  - repeat split; cbn [symbol side price amount].
    + exact Hin.
    + destruct (negb _); [now left | now right].
    + now apply gt0_positive.
    + eexists. split; [reflexivity | lia].
  - exists ts, s, e. cbn [timestamp]. repeat split; try assumption; lia.
  - repeat split; cbn [TradeGenerator.config TradeGenerator.startTimestamp
                         TradeGenerator.timeRange]; try assumption.
    intros sym' Hin'.
    set (newb := (base * (1 + (rng (3 + d)%nat - (1 # 2)) * (1 # 100)))%Q).
    assert (Hnewb : (base * (199 # 200) <= newb)%Q) by (unfold newb; nra).
    unfold TradeGenerator.basePriceOf. cbn [TradeGenerator.baselinePrices].
    destruct (decide (Some sym = Some sym')) as [E|E].
    + rewrite <- E, lookup_insert_eq.
      destruct (Qeq_bool newb 0) eqn:E0.
      * apply Qeq_bool_eq in E0. nra.
      * nra.
    + rewrite lookup_insert_ne by exact E.
      assert (Hold := Hfloor sym' Hin'). unfold TradeGenerator.basePriceOf in Hold.
      cbn [decay] in Hold.
      destruct (TradeGenerator.baselinePrices g !! Some sym') as [b|].
      * destruct (Qeq_bool b 0); [nra|].
        assert (0 < b)%Q by (apply (positive_factor b ((199 # 200) * decay n)); nra).
        nra.
      * nra.
Qed.

(** *** A batch *)

Lemma generateLoop_ok (rng : nat -> Q) (config : TradeGenerator.TradeGenerationConfig)
    (s e : Z) :
  unitInterval rng ->
  getTime (TradeGenerator.startDate config) = Some s ->
  getTime (TradeGenerator.endDate config) = Some e ->
  - maxTime <= s -> s <= e -> e < maxTime ->
  TradeGenerator.symbols config <> [] ->
  (forall sym, In sym (TradeGenerator.symbols config) -> trim sym <> "") ->
  forall n trades g,
    batchReady config s e n g ->
    exists new g',
      TradeGenerator.generateLoop rng n trades g = (Ok (trades ++ new), g')
      /\ length new = n
      /\ Forall (tradeFields config) new
      /\ Forall (withinTradingHours config) new.
Proof.
  intros Hrng Hstart Hend Hlo Hse Hhi Hne Htrim.
  induction n as [|n IH]; intros trades g Hready.
  - exists [], g. rewrite app_nil_r. repeat split; constructor.
  - destruct (generateTrade_ok rng config s e n g) as (trade & E & Hf & Ht & Hready');
      try assumption.
    cbn [TradeGenerator.generateLoop]. unfold TradeGenerator.bind.
    destruct (TradeGenerator.generateTrade rng g) as [r g1]. cbn [fst snd] in *.
    subst r.
    destruct (IH (trades ++ [trade]) g1 Hready') as (new & g' & E' & Hlen & Hfs & Hts).
    exists (trade :: new), g'. rewrite E', <- app_assoc. cbn [app length].
    repeat split; try (constructor; assumption). now rewrite Hlen.
Qed.

Lemma generateLoop_settings (rng : nat -> Q) (n : nat) :
  forall trades g,
    let g' := snd (TradeGenerator.generateLoop rng n trades g) in
    TradeGenerator.config g' = TradeGenerator.config g
    /\ TradeGenerator.startTimestamp g' = TradeGenerator.startTimestamp g
    /\ TradeGenerator.timeRange g' = TradeGenerator.timeRange g.
Proof.
  induction n as [|n IH]; intros trades g; [repeat split|].
  cbn [TradeGenerator.generateLoop]. unfold TradeGenerator.bind.
  assert (Hstate := generateTrade_state rng g). cbv zeta in Hstate.
  destruct (TradeGenerator.generateTrade rng g) as [[trade|err] g1]; cbn [snd] in *.
  - destruct (IH (trades ++ [trade]) g1) as (E1 & E2 & E3).
    rewrite E1, E2, E3, Hstate. repeat split.
  - rewrite Hstate. repeat split.
Qed.

Lemma reachable_settings (rng : nat -> Q) (config : TradeGenerator.TradeGenerationConfig)
    (g : TradeGenerator.TradeGeneratorServiceImpl) (s e : Z) :
  reachable rng config g ->
  getTime (TradeGenerator.startDate config) = Some s ->
  getTime (TradeGenerator.endDate config) = Some e ->
  TradeGenerator.config g = config
  /\ TradeGenerator.startTimestamp g = Some s
  /\ TradeGenerator.timeRange g = Some (e - s).
Proof.
  intros Hreach Hs He. induction Hreach as [d|n g Hreach (E1 & E2 & E3)].
  - unfold TradeGenerator.createTradeGeneratorService.
    destruct (TradeGenerator.initializeBaselinePrices _ _ _ _) as [prices d'].
    cbn. now rewrite Hs, He.
  - destruct (generateLoop_settings rng (Z.to_nat n) [] g) as (F1 & F2 & F3).
    unfold TradeGenerator.generateBatch. now rewrite F1, F2, F3.
Qed.

Lemma tradingHours_withinRange (config : TradeGenerator.TradeGenerationConfig)
    (s e : Z) (t : Trade TradeSide) :
  getTime (TradeGenerator.startDate config) = Some s ->
  getTime (TradeGenerator.endDate config) = Some e ->
  coversTradingHours s e ->
  withinTradingHours config t -> withinRange config t.
Proof.
  intros Hs He [Hcs Hce] (ts & s' & e' & Et & Hs' & He' & Hday & Htod).
  rewrite Hs in Hs'. rewrite He in He'. injection Hs' as <-. injection He' as <-.
  exists ts, s, e. repeat split; try assumption.
  - revert Hcs Hday Htod. unfold timeOfDay, Day, msPerDay, msPerHour.
    intros. Z.div_mod_to_equations. lia.
  - revert Hce Hday Htod. unfold timeOfDay, Day, msPerDay, msPerHour.
    intros. Z.div_mod_to_equations. lia.
Qed.




(** *** A random walk that only goes down *)

Lemma Qfloor_unit (x : Q) : (0 <= x)%Q -> (x < 1)%Q -> Qfloor x = 0.
Proof.
  intros H0 H1.
  assert (Hlo : Qfloor 0 <= Qfloor x) by now apply Qfloor_resp_le.
  assert (Hhi : Qfloor x < 1).
  { rewrite Zlt_Qlt. eapply Qle_lt_trans; [apply Qfloor_le | exact H1]. }
  change (Qfloor 0) with 0 in Hlo. lia.
Qed.

Lemma createTrade_price_zero {S : Type} (side : S) (amount : number) (timestamp : value) :
  createTrade "AAPL" side (Fin (inject_Z 0 / 100)) amount timestamp
  = Throw (Error "Price must be greater than zero").
Proof. reflexivity. Qed.

(** With every random number 0, each price draw lowers the baseline
    by 0.5%; once 0.95 times the baseline is below half a cent the price
    rounds to 0.00 and [createTrade] refuses it. *)
Lemma generateLoop_price_reaches_zero (rng : nat -> Q) (n : nat) :
  (forall k, rng k = 0%Q) ->
  forall (acc : list (Trade TradeSide)) (g : TradeGenerator.TradeGeneratorServiceImpl)
         (B : Q),
    TradeGenerator.symbols (TradeGenerator.config g) = ["AAPL"] ->
    (0 < B)%Q ->
    (TradeGenerator.basePriceOf g (Some "AAPL") == B)%Q ->
    (B * decay n * (19 # 20) < 1 # 200)%Q ->
    exists e g', TradeGenerator.generateLoop rng (S n) acc g = (Throw e, g').
Proof.
  intros Hz.
  assert (Esym : TradeGenerator.symbolAt ["AAPL"]
                   (Qfloor (0 * inject_Z (Z.of_nat (length ["AAPL"])))) = Some "AAPL")
    by reflexivity.
  induction n as [|n IH]; intros acc g B Hsym HB Hbase Hlow;
    rewrite generateLoop_S;
    assert (Hres := generateTrade_result rng g);
    assert (Hstate := generateTrade_state rng g);
    cbv zeta in Hres, Hstate; rewrite Hsym in Hres, Hstate;
    repeat rewrite Hz in Hres; repeat rewrite Hz in Hstate;
    rewrite Esym in Hres, Hstate;
    destruct (TradeGenerator.generateTrade rng g) as [r g1];
    cbn [fst snd] in Hres, Hstate.
  - cbn [decay] in Hlow.
    set (base := TradeGenerator.basePriceOf g (Some "AAPL")) in *.
    set (exact := (base * (1 + (0 - (1 # 2)) * (1 # 10)))%Q) in *.
    assert (Hexact : (exact == B * (19 # 20))%Q) by (unfold exact; rewrite Hbase; ring).
    assert (H0 : (0 <= exact * 100 + (1 # 2))%Q) by (rewrite Hexact; nra).
    assert (H1 : (exact * 100 + (1 # 2) < 1)%Q) by (rewrite Hexact; nra).
    assert (Hh : hundredths exact = 0).
    { unfold hundredths.
      assert (E : Qle_bool 0 exact = true) by (apply Qle_bool_iff; rewrite Hexact; nra).
      rewrite E. now apply Qfloor_unit. }
    unfold parseFloat_toFixed2 in Hres. rewrite Hh, createTrade_price_zero in Hres.
    subst r. now eexists _, g1.
  - destruct r as [trade|e]; [|now eexists e, g1].
    set (base := TradeGenerator.basePriceOf g (Some "AAPL")) in *.
    set (newb := (base * (1 + (0 - (1 # 2)) * (1 # 100)))%Q) in *.
    assert (Hnewb : (newb == B * (199 # 200))%Q) by (unfold newb; rewrite Hbase; ring).
    apply (IH _ g1 (B * (199 # 200))%Q).
    + now rewrite Hstate.
    + nra.
    + rewrite Hstate.
      unfold TradeGenerator.basePriceOf. cbn [TradeGenerator.baselinePrices].
      rewrite lookup_insert_eq.
      destruct (Qeq_bool newb 0) eqn:E0; [|exact Hnewb].
      apply Qeq_bool_eq in E0. rewrite Hnewb in E0. nra.
    + cbn [decay] in Hlow. nra.
Qed.

Lemma decay_add (a b : nat) : (decay (a + b) == decay a * decay b)%Q.
Proof.
  induction a as [|a IH]; cbn [Nat.add decay]; [ring | rewrite IH; ring].
Qed.

Lemma decay_double (n : nat) (c : Q) :
  (decay n < c)%Q -> (decay (n + n) < c * c)%Q.
Proof.
  intros Hc. destruct (decay_range n) as [H0 _]. rewrite decay_add. nra.
Qed.

(** [0.995 ^ 2224 < 2 ^ -16] *)
Lemma decay_2224 : (decay 2224 < 1 # 65536)%Q.
Proof.
  assert (H139 : (decay 139 < 1 # 2)%Q) by reflexivity.
  apply decay_double in H139. apply decay_double in H139.
  apply decay_double in H139. apply decay_double in H139.
  change (139 + 139 + (139 + 139) + (139 + 139 + (139 + 139))
          + (139 + 139 + (139 + 139) + (139 + 139 + (139 + 139))))%nat
    with 2224%nat in H139.
  eapply Qlt_le_trans; [exact H139|]. discriminate.
Qed.

(** A fresh generator asked for 2225 trades of one symbol, with every
    random number 0, throws instead of returning them. *)
Lemma generateBatch_price_reaches_zero :
  exists e g',
    TradeGenerator.generateBatch Sample.zeros 2225 Sample.morningGenerator = (Throw e, g').
Proof.
  unfold TradeGenerator.generateBatch.
  change (Z.to_nat 2225) with (S 2224).
  apply (generateLoop_price_reaches_zero Sample.zeros 2224 (fun _ => eq_refl) []
           Sample.morningGenerator 50%Q).
  - reflexivity.
  - reflexivity.
  - vm_compute. split; reflexivity.
  - assert (H := decay_2224). destruct (decay_range 2224) as [H0 _].
    set (x := decay 2224) in *. clearbody x. lra.
Qed.

(** ** The ingestion service *)

Import TradeIngestion Mock.

Lemma events_app (tr1 tr2 : list action) : events (tr1 ++ tr2) = events tr1 ++ events tr2.
Proof. apply omap_app. Qed.

Lemma batchSizes_app (tr1 tr2 : list action) :
  batchSizes (tr1 ++ tr2) = batchSizes tr1 ++ batchSizes tr2.
Proof. apply omap_app. Qed.

Lemma writes_app (tr1 tr2 : list action) : writes (tr1 ++ tr2) = writes tr1 ++ writes tr2.
Proof. apply omap_app. Qed.

Lemma count_app {A : Type} (p : A -> bool) (l1 l2 : list A) :
  count p (l1 ++ l2) = (count p l1 + count p l2)%nat.
Proof. unfold count. now rewrite List.filter_app, length_app. Qed.

Section ServiceFacts.

Context {G R : Type} `{TradeGeneratorService G} `{InfluxDBRepository R}.
Variable now : nat -> Z.

(** The four ways through [iterate]. *)
Lemma iterate_cases (f : frame) (w : service G R) :
  let cbs := Z.min (batchSize f) (totalTrades f - processedTrades f) in
  (isStopped w = true /\ iterate now f w = (w, Resolved))
  \/ (isStopped w = false /\ totalTrades f <= processedTrades f
      /\ exists w' d,
           iterate now f w = (w', Resolved)
           /\ isStopped w' = false
           /\ trace w' = trace w ++ [Emit (complete d)]
           /\ processed d = processedTrades f /\ total d = totalTrades f
           /\ percentage d = of_Z 100 /\ estimatedRemainingMs d = of_Z 0)
  \/ (isStopped w = false /\ processedTrades f < totalTrades f
      /\ exists w' trades g',
           iterate now f w
           = (w', Awaiting (mkFrame (totalTrades f) (batchSize f) (processedTrades f)
                              (startTime f) cbs))
           /\ isStopped w' = false
           /\ trace w' = trace w ++ [GenerateBatch cbs; WriteTrades trades]
           /\ generateBatch cbs (tradeGenerator w) = (Ok trades, g'))
  \/ (isStopped w = false /\ processedTrades f < totalTrades f
      /\ exists w' e,
           iterate now f w = (w', Rejected e)
           /\ isStopped w' = false
           /\ trace w' = trace w ++ [GenerateBatch cbs; Emit (error e)]).
Proof.
  intros cbs. unfold iterate. fold cbs.
  destruct (isStopped w) eqn:Estop.
  - left. rewrite andb_false_r. cbn. now split.
  - right. rewrite andb_true_r. cbn [negb].
    destruct (Z.ltb_spec (processedTrades f) (totalTrades f)) as [Hlt|Hge].
    + right. cbn [record tradeGenerator influxDBRepository isStopped trace clock].
      destruct (generateBatch cbs (tradeGenerator w)) as [[trades|e] g'] eqn:Egen.
      * left. repeat split; [exact Hlt|]. eexists _, trades, g'.
        repeat split; cbn; try eassumption. now rewrite <- app_assoc.
      * right. repeat split; [exact Hlt|]. eexists _, e.
        repeat split; cbn; try eassumption. now rewrite <- app_assoc.
    + left. repeat split; [exact Hge|]. cbn. eexists _, _.
      repeat split; cbn; try eassumption.
Qed.

(** A fulfilled write: the counter advances, a progress event is
    emitted and the loop goes on. *)
Lemma resume_fulfilled (f : frame) (w : service G R) :
  exists w1 d,
    resume now None f w
    = iterate now (mkFrame (totalTrades f) (batchSize f)
                     (processedTrades f + currentBatchSize f)
                     (startTime f) (currentBatchSize f)) w1
    /\ isStopped w1 = isStopped w
    /\ tradeGenerator w1 = tradeGenerator w
    /\ trace w1 = trace w ++ [Emit (progress d)]
    /\ processed d = processedTrades f + currentBatchSize f
    /\ total d = totalTrades f.
Proof.
  eexists _, _. split; [reflexivity|]. repeat split.
Qed.

Lemma resume_rejected (e : exn) (f : frame) (w : service G R) :
  resume now (Some e) f w = (emit (error e) w, Rejected e).
Proof. reflexivity. Qed.

Lemma exec_app (st : service G R * task) (s1 s2 : list input) :
  exec now st (s1 ++ s2) = exec now (exec now st s1) s2.
Proof. apply fold_left_app. Qed.

(** Once the promise is settled, the pending writes of a schedule
    change nothing. *)
Lemma exec_finished_settles (w : service G R) (t : task) (k : nat) (o : option exn) :
  finished t = true -> exec now (w, t) (repeat (settle o) k) = (w, t).
Proof.
  intros Hfin. induction k as [|k IH]; [reflexivity|].
  cbn [repeat]. change (exec now (w, t) (settle o :: repeat (settle o) k))
    with (exec now (step now (w, t) (settle o)) (repeat (settle o) k)).
  destruct t; [discriminate | exact IH | exact IH].
Qed.

End ServiceFacts.

Section Cancellation.

Context {G R : Type} `{TradeGeneratorService G} `{InfluxDBRepository R}.
Variable now : nat -> Z.

Lemma iterate_extends (f : frame) (w : service G R) :
  exists tr, trace (fst (iterate now f w)) = trace w ++ tr.
Proof.
  destruct (iterate_cases now f w)
    as [[_ E] | [(_ & _ & w' & d & E & _ & Htr & _)
       | [(_ & _ & w' & trades & g' & E & _ & Htr & _)
         | (_ & _ & w' & e & E & _ & Htr)]]];
    rewrite E; cbn [fst].
  - exists []. now rewrite app_nil_r.
  - eexists. exact Htr.
  - eexists. exact Htr.
  - eexists. exact Htr.
Qed.

(** With the flag set, a step issues no call of a collaborator, and
    the flag stays set. *)
Lemma step_stopped (w : service G R) (t : task) (i : input) :
  isStopped w = true ->
  let st := step now (w, t) i in
  isStopped (fst st) = true
  /\ batchSizes (trace (fst st)) = batchSizes (trace w)
  /\ writes (trace (fst st)) = writes (trace w)
  /\ (forall o, i = settle o -> finished (snd st) = true \/ finished t = true).
Proof.
  intros Hstop. destruct i as [|o]; cbn [step].
  - cbn. rewrite batchSizes_app, writes_app. cbn. rewrite !app_nil_r.
    repeat split. discriminate.
  - destruct t as [f| |e].
    + destruct o as [e|].
      * rewrite resume_rejected. cbn. rewrite batchSizes_app, writes_app. cbn.
        rewrite !app_nil_r. repeat split; try assumption. intros _ _. now left.
      * destruct (resume_fulfilled now f w) as (w1 & d & E & Hs1 & _ & Htr & _).
        rewrite E. rewrite Hstop in Hs1.
        destruct (iterate_cases now
                    (mkFrame (totalTrades f) (batchSize f)
                       (processedTrades f + currentBatchSize f) (startTime f)
                       (currentBatchSize f)) w1)
          as [[_ E1] | [(Hf & _) | [(Hf & _) | (Hf & _)]]];
          try (rewrite Hs1 in Hf; discriminate Hf).
        rewrite E1. cbn [fst snd]. rewrite Htr, batchSizes_app, writes_app. cbn.
        rewrite !app_nil_r. repeat split; try assumption. intros _ _. now left.
    + cbn. repeat split; try assumption. intros _ _. now right.
    + cbn. repeat split; try assumption. intros _ _. now right.
Qed.

Lemma exec_stopped (schedule : list input) :
  forall (w : service G R) (t : task),
    isStopped w = true ->
    batchSizes (trace (fst (exec now (w, t) schedule))) = batchSizes (trace w)
    /\ writes (trace (fst (exec now (w, t) schedule))) = writes (trace w).
Proof.
  induction schedule as [|i schedule IH]; intros w t Hstop; [now split|].
  change (exec now (w, t) (i :: schedule))
    with (exec now (step now (w, t) i) schedule).
  destruct (step_stopped w t i Hstop) as (Hs & Hb & Hw & _).
  destruct (step now (w, t) i) as [w1 t1]. cbn [fst] in *.
  destruct (IH w1 t1 Hs) as [Hb' Hw']. now rewrite Hb', Hw'.
Qed.

(** C3 (amended).  Every call of [stopIngestion] succeeds, and whether
    or not a run is active it sets the stop flag and emits one [stopped]
    event, leaving the collaborators untouched; a repeated call leaves the
    flag set and emits one more [stopped] event.  After a call made during
    a run, and whatever stops and settlements follow, no further call of
    [generateBatch] or [writeTrades] is made, and the run ends as soon as
    the pending write settles. *)
Theorem stopIngestion_cooperative (w : service G R) (t : task)
    (schedule : list input) (f : frame) (o : option exn) :
  isStopped (stopIngestion w) = true
  /\ trace (stopIngestion w) = trace w ++ [Emit stopped]
  /\ tradeGenerator (stopIngestion w) = tradeGenerator w
  /\ influxDBRepository (stopIngestion w) = influxDBRepository w
  /\ isStopped (stopIngestion (stopIngestion w)) = true
  /\ trace (stopIngestion (stopIngestion w)) = trace w ++ [Emit stopped; Emit stopped]
  /\ batchSizes (trace (fst (exec now (stopIngestion w, t) schedule)))
     = batchSizes (trace w)
  /\ writes (trace (fst (exec now (stopIngestion w, t) schedule))) = writes (trace w)
  /\ finished (snd (step now (stopIngestion w, Awaiting f) (settle o))) = true.
Proof.
  assert (Hstop : isStopped (stopIngestion w) = true) by reflexivity.
  destruct (exec_stopped schedule (stopIngestion w) t Hstop) as [Hb Hw].
  destruct (step_stopped (stopIngestion w) (Awaiting f) (settle o) Hstop)
    as (_ & _ & _ & Hfin).
  repeat split.
  - cbn. now rewrite <- app_assoc.
  - rewrite Hb. cbn. rewrite batchSizes_app. cbn. now rewrite app_nil_r.
  - rewrite Hw. cbn. rewrite writes_app. cbn. now rewrite app_nil_r.
  - destruct (Hfin o eq_refl) as [E|E]; [exact E | discriminate E].
Qed.

(** C1 (amended).  [startIngestion] keeps no run state and never
    rejects because a run is in progress.  Called while a run is suspended
    with frame [f], it clears the stop flag and starts a loop of its own:
    it either suspends at a first write with its own counter at 0, or
    completes at once because the target is not positive, or rejects with
    an error thrown by [generateBatch].  The suspended run is not reset:
    when its write is fulfilled it reports [processedTrades f +
    currentBatchSize f] trades. *)
Theorem startIngestion_unguarded (w : service G R) (f : frame) :
  let w' := fst (startIngestion now w) in
  isStopped w' = false
  /\ match snd (startIngestion now w) with
     | Awaiting f' =>
         processedTrades f' = 0
         /\ exists trades,
              trace w' = trace w ++ [GenerateBatch (currentBatchSize f');
                                     WriteTrades trades]
     | Resolved =>
         getTotalTrades (tradeGenerator w) <= 0
         /\ exists d, trace w' = trace w ++ [Emit (complete d)]
     | Rejected e =>
         exists n, fst (generateBatch n (tradeGenerator w)) = Throw e
     end
  /\ exists d tr,
       trace (fst (resume now None f w')) = trace w' ++ Emit (progress d) :: tr
       /\ processed d = processedTrades f + currentBatchSize f.
Proof.
  intros w'. subst w'. unfold startIngestion.
  cbn [Date_now set_isStopped tradeGenerator influxDBRepository isStopped trace clock].
  set (w0 := mkService (tradeGenerator w) (influxDBRepository w) false (trace w)
               (S (clock w))).
  set (f0 := mkFrame _ _ 0 _ 0).
  assert (Hres : forall w1 : service G R,
             exists d tr,
               trace (fst (resume now None f w1)) = trace w1 ++ Emit (progress d) :: tr
               /\ processed d = processedTrades f + currentBatchSize f).
  { intros w1. destruct (resume_fulfilled now f w1) as (w2 & d & E & _ & _ & Htr & Hd & _).
    rewrite E.
    destruct (iterate_extends (mkFrame (totalTrades f) (batchSize f)
                                 (processedTrades f + currentBatchSize f)
                                 (startTime f) (currentBatchSize f)) w2) as [tr Htr'].
    exists d, tr. rewrite Htr', Htr, <- app_assoc. now split. }
  destruct (iterate_cases now f0 w0)
    as [[Hs _] | [(_ & Hge & w' & d & E & Hs & Htr & _)
       | [(_ & Hlt & w' & trades & g' & E & Hs & Htr & Hgen)
         | (_ & Hlt & w' & e & E & Hs & Htr)]]].
  - discriminate Hs.
  - rewrite E. cbn [fst snd]. repeat split; [exact Hs | exact Hge | | apply Hres].
    now exists d.
  - rewrite E. cbn [fst snd processedTrades currentBatchSize].
    repeat split; [exact Hs | | apply Hres]. now exists trades.
  - rewrite E. cbn [fst snd]. repeat split; [exact Hs | | apply Hres].
    unfold iterate in E. cbn [isStopped w0 negb] in E.
    destruct (processedTrades f0 <? totalTrades f0); cbn [andb] in E;
      [|discriminate E].
    cbn [record tradeGenerator] in E.
    destruct (generateBatch _ (tradeGenerator w0)) as [[trades|e'] g'] eqn:Egen;
      [discriminate E|].
    injection E as _ <-. eexists. cbn [tradeGenerator w0] in Egen. now rewrite Egen.
Qed.

End Cancellation.

(** Called on a service on which no run was ever started,
    [stopIngestion] emits a [stopped] event. *)
Lemma stopIngestion_idle_emits :
  ~ (events (trace (stopIngestion (Mock.mockService 100 10)))
     = events (trace (Mock.mockService 100 10))).
Proof. discriminate. Qed.

(** A second call of [startIngestion] while the first run is
    suspended at its first write is not rejected and changes the service. *)
Lemma startIngestion_while_running_accepted :
  ~ (forall w1 f1,
       startIngestion Sample.now (Mock.mockService 100 10) = (w1, Awaiting f1) ->
       exists e, startIngestion Sample.now w1 = (w1, Rejected e)).
Proof.
  intros Hclaim.
  destruct (Hclaim _ _ eq_refl) as [e He]. discriminate He.
Qed.

(** The checks that the service does not make are made by the two
    routes, on the status they track: a second start request and a stop
    request without a run are answered 409 and do not reach the service. *)
Lemma postStart_already_running {G R : Type} `{TradeGeneratorService G}
    `{InfluxDBRepository R} (now : nat -> Z) (a : Routes.app (G := G) (R := R)) :
  Routes.status (Routes.currentStatus a) = Routes.running ->
  Routes.postStart now a = (Routes.Reply 409 "Trade ingestion is already running", a).
Proof. intros E. unfold Routes.postStart. now rewrite E. Qed.

Lemma postStop_not_running {G R : Type} `{TradeGeneratorService G}
    `{InfluxDBRepository R} (a : Routes.app (G := G) (R := R)) :
  Routes.status (Routes.currentStatus a) <> Routes.running ->
  Routes.postStop a = (Routes.Reply 409 "Trade ingestion is not running", a).
Proof.
  intros E. unfold Routes.postStop.
  destruct (Routes.status (Routes.currentStatus a)); [reflexivity | | reflexivity..].
  now elim E.
Qed.

Section Lifecycle.

Context {G R : Type} `{TradeGeneratorService G} `{InfluxDBRepository R}.
Variable now : nat -> Z.

Lemma count_snoc {A : Type} (p : A -> bool) (l : list A) (x : A) :
  count p (l ++ [x]) = (count p l + if p x then 1 else 0)%nat.
Proof. rewrite count_app. unfold count. cbn. now destruct (p x). Qed.

Lemma count_progress (p : event -> bool) (ds : list ProgressData) :
  (forall d, p (progress d) = false) -> count p (map progress ds) = 0%nat.
Proof.
  intros Hp. unfold count. induction ds as [|d ds IH]; [reflexivity|].
  cbn. now rewrite Hp.
Qed.

(** The events of [iterate], entered with the events [evs] of a
    pending run. *)
Lemma iterate_lifecycle (f : frame) (w : service G R) (base tr : list action)
    (stops : nat) (pending : task) :
  finished pending = false ->
  trace w = base ++ tr ->
  lifecycle (events tr) stops pending (isStopped w) ->
  exists tr',
    trace (fst (iterate now f w)) = base ++ tr'
    /\ lifecycle (events tr') stops (snd (iterate now f w))
         (isStopped (fst (iterate now f w))).
Proof.
  intros Hpend Htr (Hstops & Hle & Hnone & Hclean).
  specialize (Hnone Hpend). rewrite Hpend in Hclean.
  destruct (iterate_cases now f w)
    as [[Hs E] | [(Hs & _ & w' & d & E & Hs' & Htr' & _)
       | [(Hs & _ & w' & trades & g' & E & Hs' & Htr' & _)
         | (Hs & _ & w' & e & E & Hs' & Htr')]]];
    rewrite E; cbn [fst snd].
  - exists tr. split; [exact Htr|].
    refine (conj Hstops (conj Hle (conj _ _))).
    + discriminate.
    + intros Hz. destruct (Hclean Hz) as [Hflag _]. congruence.
  - exists (tr ++ [Emit (complete d)]). rewrite Htr', Htr, <- app_assoc.
    split; [reflexivity|]. rewrite events_app.
    change (events [Emit (complete d)]) with [complete d].
    unfold lifecycle. rewrite !count_snoc. cbn [isStoppedEvent isComplete isError finished].
    refine (conj _ (conj _ (conj _ _))); try lia; try discriminate.
    intros Hz. destruct (Hclean Hz) as [_ [ds Hds]]. split; [exact Hs'|].
    exists ds, (complete d). now rewrite Hds.
  - exists (tr ++ [GenerateBatch (Z.min (batchSize f) (totalTrades f - processedTrades f));
                   WriteTrades trades]).
    rewrite Htr', Htr, <- app_assoc. split; [reflexivity|].
    rewrite events_app. change (events [GenerateBatch _; WriteTrades _]) with (@nil event).
    rewrite app_nil_r. unfold lifecycle. cbn [finished].
    refine (conj Hstops (conj Hle (conj _ _))); try lia.
    intros Hz. destruct (Hclean Hz) as [_ [ds Hds]]. split; [exact Hs'|]. now exists ds.
  - exists (tr ++ [GenerateBatch (Z.min (batchSize f) (totalTrades f - processedTrades f));
                   Emit (error e)]).
    rewrite Htr', Htr, <- app_assoc. split; [reflexivity|].
    rewrite events_app. change (events [GenerateBatch _; Emit (error e)]) with [error e].
    unfold lifecycle. rewrite !count_snoc. cbn [isStoppedEvent isComplete isError finished].
    refine (conj _ (conj _ (conj _ _))); try lia; try discriminate.
    intros Hz. destruct (Hclean Hz) as [_ [ds Hds]]. split; [exact Hs'|].
    exists ds, (error e). now rewrite Hds.
Qed.

Lemma step_lifecycle (w : service G R) (t : task) (i : input)
    (base tr : list action) (stops : nat) :
  trace w = base ++ tr ->
  lifecycle (events tr) stops t (isStopped w) ->
  exists tr',
    trace (fst (step now (w, t) i)) = base ++ tr'
    /\ lifecycle (events tr') (stops + count isStop [i])
         (snd (step now (w, t) i)) (isStopped (fst (step now (w, t) i))).
Proof.
  intros Htr Hlife.
  destruct i as [|o]; cbn [step].
  - destruct Hlife as (Hstops & Hle & Hnone & _).
    exists (tr ++ [Emit stopped]). cbn [fst snd stopIngestion]. split.
    + cbn. now rewrite Htr, <- app_assoc.
    + rewrite events_app. change (events [Emit stopped]) with [stopped].
      unfold lifecycle. rewrite !count_snoc. cbn [isStoppedEvent isComplete isError].
      change (count isStop [stop]) with 1%nat.
      refine (conj _ (conj _ (conj _ _))); try lia.
      intros Hfin. specialize (Hnone Hfin). lia.
  - change (count isStop [settle o]) with 0%nat. rewrite Nat.add_0_r.
    destruct t as [f| |e].
    + destruct o as [e|].
      * rewrite resume_rejected. cbn [fst snd].
        destruct Hlife as (Hstops & Hle & Hnone & Hclean).
        specialize (Hnone eq_refl). cbn [finished] in Hclean.
        exists (tr ++ [Emit (error e)]). split.
        { cbn. now rewrite Htr, <- app_assoc. }
        rewrite events_app. change (events [Emit (error e)]) with [error e].
        unfold lifecycle. rewrite !count_snoc.
        cbn [isStoppedEvent isComplete isError finished].
        refine (conj _ (conj _ (conj _ _))); try lia; try discriminate.
        intros Hz. destruct (Hclean Hz) as [Hflag [ds Hds]]. split; [exact Hflag|].
        exists ds, (error e). now rewrite Hds.
      * destruct (resume_fulfilled now f w) as (w1 & d & E & Hs1 & _ & Htr1 & _).
        rewrite E.
        apply (iterate_lifecycle _ w1 base (tr ++ [Emit (progress d)]) stops
                 (Awaiting f)); [reflexivity | now rewrite Htr1, Htr, <- app_assoc |].
        destruct Hlife as (Hstops & Hle & Hnone & Hclean).
        specialize (Hnone eq_refl). cbn [finished] in Hclean.
        rewrite events_app. change (events [Emit (progress d)]) with [progress d].
        unfold lifecycle. rewrite !count_snoc.
        cbn [isStoppedEvent isComplete isError finished].
        refine (conj _ (conj _ (conj _ _))); try lia.
        intros Hz. destruct (Hclean Hz) as [Hflag [ds Hds]]. split; [congruence|].
        exists (ds ++ [d]). now rewrite Hds, map_app.
    + exists tr. now split.
    + exists tr. now split.
Qed.

Lemma exec_lifecycle (schedule : list input) :
  forall (w : service G R) (t : task) (base tr : list action) (stops : nat),
    trace w = base ++ tr ->
    lifecycle (events tr) stops t (isStopped w) ->
    exists tr',
      trace (fst (exec now (w, t) schedule)) = base ++ tr'
      /\ lifecycle (events tr') (stops + count isStop schedule)
           (snd (exec now (w, t) schedule))
           (isStopped (fst (exec now (w, t) schedule))).
Proof.
  induction schedule as [|i schedule IH]; intros w t base tr stops Htr Hlife.
  - exists tr. cbn. rewrite Nat.add_0_r. now split.
  - change (exec now (w, t) (i :: schedule))
      with (exec now (step now (w, t) i) schedule).
    destruct (step_lifecycle w t i base tr stops Htr Hlife) as (tr1 & Htr1 & Hlife1).
    destruct (step now (w, t) i) as [w1 t1]. cbn [fst snd] in *.
    destruct (IH w1 t1 base tr1 _ Htr1 Hlife1) as (tr2 & Htr2 & Hlife2).
    exists tr2. split; [exact Htr2|].
    change (i :: schedule) with ([i] ++ schedule).
    now rewrite count_app, Nat.add_assoc.
Qed.


End Lifecycle.


Lemma runningTotals_length (acc : Z) (sizes : list Z) :
  length (runningTotals acc sizes) = length sizes.
Proof.
  revert acc. induction sizes as [|n sizes IH]; intros acc; [reflexivity|].
  cbn. now rewrite IH.
Qed.

Section Batches.

Context {G R : Type} `{TradeGeneratorService G} `{InfluxDBRepository R}.
Variable now : nat -> Z.

(** A settled promise stays as it is. *)
Lemma exec_finished (schedule : list input) :
  forall (w : service G R) (t : task),
    finished t = true -> snd (exec now (w, t) schedule) = t.
Proof.
  induction schedule as [|i schedule IH]; intros w t Hfin; [reflexivity|].
  change (exec now (w, t) (i :: schedule))
    with (exec now (step now (w, t) i) schedule).
  destruct i as [|o]; cbn [step].
  - now apply IH.
  - destruct t; [discriminate | now apply IH | now apply IH].
Qed.

(** A run that is still pending after a schedule: every settlement
    in the schedule was a fulfilment, and each added its batch to the
    counter and emitted a progress event. *)
Lemma exec_pending (schedule : list input) :
  forall (f : frame) (w w1 : service G R) (f1 : frame),
    exec now (w, Awaiting f) schedule = (w1, Awaiting f1) ->
    exists tr sizes ds,
      trace w1 = trace w ++ tr
      /\ length sizes = count isFulfilled schedule
      /\ currentBatchSize f :: batchSizes tr = sizes ++ [currentBatchSize f1]
      /\ List.filter notStopped (events tr) = map progress ds
      /\ map processed ds = runningTotals (processedTrades f) sizes
      /\ processedTrades f1 = processedTrades f + sumSizes sizes
      /\ (honest -> map (@length _) (writes tr) = map Z.to_nat (batchSizes tr)).
Proof.
  induction schedule as [|i schedule IH]; intros f w w1 f1 E.
  - injection E as <- <-. exists [], [], []. rewrite app_nil_r. cbn.
    repeat (split; [first [reflexivity | lia]|]). reflexivity.
  - change (exec now (w, Awaiting f) (i :: schedule))
      with (exec now (step now (w, Awaiting f) i) schedule) in E.
    change (i :: schedule) with ([i] ++ schedule). rewrite count_app.
    destruct i as [|[e|]]; cbn [step] in E.
    + destruct (IH _ _ _ _ E) as (tr & sizes & ds & Htr & Hlen & Hsizes & Hev & Hproc
                                  & Hf1 & Hw).
      exists (Emit stopped :: tr), sizes, ds.
      change (Emit stopped :: tr) with ([Emit stopped] ++ tr).
      rewrite batchSizes_app, events_app, writes_app.
      change (batchSizes [Emit stopped]) with (@nil Z).
      change (writes [Emit stopped]) with (@nil (list (Trade TradeSide))).
      change (events [Emit stopped]) with [stopped].
      cbn [app List.filter notStopped isStoppedEvent negb].
      split; [rewrite Htr; cbn; now rewrite <- app_assoc|].
      repeat (split; [assumption|]). exact Hw.
    + rewrite resume_rejected in E.
      assert (Hfin := exec_finished schedule (emit (error e) w) (Rejected e) eq_refl).
      rewrite E in Hfin. discriminate Hfin.
    + destruct (resume_fulfilled now f w) as (w2 & d & E2 & _ & _ & Htr2 & Hd & _).
      rewrite E2 in E.
      set (f2 := mkFrame (totalTrades f) (batchSize f)
                   (processedTrades f + currentBatchSize f) (startTime f)
                   (currentBatchSize f)) in *.
      destruct (iterate_cases now f2 w2)
        as [[_ E1] | [(_ & _ & w3 & d3 & E1 & _)
           | [(_ & _ & w3 & trades & g' & E1 & _ & Htr3 & Hgen)
             | (_ & _ & w3 & e & E1 & _)]]];
        rewrite E1 in E;
        try (assert (Hfin := exec_finished schedule w2 Resolved eq_refl);
             rewrite E in Hfin; discriminate Hfin);
        try (assert (Hfin := exec_finished schedule w3 Resolved eq_refl);
             rewrite E in Hfin; discriminate Hfin);
        try (assert (Hfin := exec_finished schedule w3 (Rejected e) eq_refl);
             rewrite E in Hfin; discriminate Hfin).
      set (cbs := Z.min (batchSize f2) (totalTrades f2 - processedTrades f2)) in *.
      destruct (IH _ _ _ _ E) as (tr & sizes & ds & Htr & Hlen & Hsizes & Hev & Hproc
                                  & Hf1 & Hw).
      cbn [currentBatchSize processedTrades f2] in Hsizes, Hproc, Hf1.
      exists ([Emit (progress d)] ++ [GenerateBatch cbs; WriteTrades trades] ++ tr),
        (currentBatchSize f :: sizes), (d :: ds).
      rewrite !batchSizes_app, !events_app, !writes_app.
      change (writes [GenerateBatch cbs; WriteTrades trades]) with [trades].
      change (writes [Emit (progress d)]) with (@nil (list (Trade TradeSide))).
      change (batchSizes [GenerateBatch cbs; WriteTrades trades]) with [cbs].
      change (batchSizes [Emit (progress d)]) with (@nil Z).
      change (events [GenerateBatch cbs; WriteTrades trades]) with (@nil event).
      change (events [Emit (progress d)]) with [progress d].
      change (count isFulfilled [settle None]) with 1%nat.
      cbn [app List.filter notStopped isStoppedEvent negb map runningTotals length
             sumSizes fold_right].
      rewrite Hsizes, Hev, Hproc, Hd, Hlen.
      split; [rewrite Htr, Htr3, Htr2, <- !app_assoc; reflexivity|].
      repeat (split; [reflexivity|]). split.
      * fold (sumSizes sizes). lia.
      * intros Hhonest. rewrite (Hw Hhonest), (Hhonest _ _ _ _ Hgen). reflexivity.
Qed.

(** C4.  If a run is pending on a write after [k] fulfilled writes
    (and any number of stop requests) and that write is rejected with
    [e], then the promise of [startIngestion] is rejected with [e]; the
    events of the run, [stopped] events aside, are [k] progress events
    and then one [error] event carrying [e]; and the counter of processed
    trades, in the run's frame and in its last progress event, is the sum
    of the sizes of the [k] batches written: the failed batch is not
    counted. *)
Theorem write_failure_aborts (w w1 : service G R) (schedule : list input)
    (e : exn) (f1 : frame) :
  run now w schedule = (w1, Awaiting f1) ->
  let st := run now w (schedule ++ [settle (Some e)]) in
  snd st = Rejected e
  /\ exists tr sizes ds,
       trace (fst st) = trace w ++ tr
       /\ length sizes = count isFulfilled schedule
       /\ batchSizes tr = sizes ++ [currentBatchSize f1]
       /\ List.filter notStopped (events tr) = map progress ds ++ [error e]
       /\ length ds = count isFulfilled schedule
       /\ map processed ds = runningTotals 0 sizes
       /\ processedTrades f1 = sumSizes sizes
       /\ (honest -> map (@length _) (writes tr) = map Z.to_nat (batchSizes tr)).
Proof.
  intros E st. subst st. unfold run in *. rewrite exec_app, E.
  unfold startIngestion in E.
  cbn [Date_now set_isStopped tradeGenerator influxDBRepository isStopped trace clock] in E.
  set (w0 := mkService (tradeGenerator w) (influxDBRepository w) false (trace w)
               (S (clock w))) in *.
  set (f0 := mkFrame _ _ 0 _ 0) in *.
  destruct (iterate_cases now f0 w0)
    as [[_ E1] | [(_ & _ & w3 & d3 & E1 & _)
       | [(_ & _ & w3 & trades & g' & E1 & _ & Htr3 & Hgen)
         | (_ & _ & w3 & e3 & E1 & _)]]];
    rewrite E1 in E;
    try (assert (Hfin := exec_finished schedule w0 Resolved eq_refl);
         rewrite E in Hfin; discriminate Hfin);
    try (assert (Hfin := exec_finished schedule w3 Resolved eq_refl);
         rewrite E in Hfin; discriminate Hfin);
    try (assert (Hfin := exec_finished schedule w3 (Rejected e3) eq_refl);
         rewrite E in Hfin; discriminate Hfin).
  set (cbs := Z.min (batchSize f0) (totalTrades f0 - processedTrades f0)) in *.
  destruct (exec_pending schedule _ _ _ _ E)
    as (tr & sizes & ds & Htr & Hlen & Hsizes & Hev & Hproc & Hf1 & Hw).
  cbn [currentBatchSize processedTrades f0] in Hsizes, Hproc, Hf1.
  cbn [exec fold_left step]. rewrite resume_rejected. cbn [fst snd].
  split; [reflexivity|].
  exists ([GenerateBatch cbs; WriteTrades trades] ++ tr ++ [Emit (error e)]), sizes, ds.
  rewrite !batchSizes_app, !events_app, !writes_app.
  change (writes [GenerateBatch cbs; WriteTrades trades]) with [trades].
  change (writes [Emit (error e)]) with (@nil (list (Trade TradeSide))).
  change (batchSizes [GenerateBatch cbs; WriteTrades trades]) with [cbs].
  change (batchSizes [Emit (error e)]) with (@nil Z).
  change (events [GenerateBatch cbs; WriteTrades trades]) with (@nil event).
  change (events [Emit (error e)]) with [error e].
  cbn [app]. rewrite List.filter_app, Hev, !app_nil_r.
  cbn [List.filter notStopped isStoppedEvent negb].
  assert (Hdn : length ds = count isFulfilled schedule).
  { rewrite <- (length_map processed), Hproc, runningTotals_length. exact Hlen. }
  split.
  { cbn [emit record trace]. rewrite Htr, Htr3. unfold w0. cbn [trace].
    now rewrite <- !app_assoc. }
  repeat (split; [first [assumption | reflexivity | lia]|]).
  intros Hhonest. cbn [map]. rewrite (Hw Hhonest), (Hhonest _ _ _ _ Hgen). reflexivity.
Qed.

End Batches.

(** *** Batch sizes *)

Lemma chunks_expected (batchSize : Z) (k : nat) :
  1 <= batchSize ->
  forall remaining,
    0 <= remaining ->
    (Z.of_nat k - 1) * batchSize < remaining <= Z.of_nat k * batchSize ->
    chunks k batchSize remaining = expectedBatchSizes remaining batchSize.
Proof.
  intros Hbs. unfold expectedBatchSizes.
  induction k as [|k IH]; intros remaining Hrem Hk.
  - assert (remaining = 0) as -> by lia.
    rewrite Z.div_0_l, Z.mod_0_l by lia. reflexivity.
  - cbn [chunks]. destruct (Z.le_gt_cases batchSize remaining) as [Hfull|Hpart].
    + rewrite Z.min_l by lia.
      rewrite (IH (remaining - batchSize)) by lia.
      replace (remaining - batchSize) with (remaining + (-1) * batchSize) by lia.
      rewrite Z.div_add, Z.mod_add by lia.
      assert (Hq : 1 <= remaining / batchSize).
      { apply Z.div_le_lower_bound; lia. }
      replace (Z.to_nat (remaining / batchSize))
        with (S (Z.to_nat (remaining / batchSize + -1))) by lia.
      reflexivity.
    + rewrite Z.min_r by lia.
      assert (k = 0%nat) as -> by nia.
      cbn [chunks]. rewrite Z.div_small, Z.mod_small by lia.
      destruct (Z.eqb_spec remaining 0); [lia | reflexivity].
Qed.

Lemma batchCount_bounds (total batchSize : Z) :
  0 <= total -> 1 <= batchSize ->
  (Z.of_nat (batchCount total batchSize) - 1) * batchSize < total
  <= Z.of_nat (batchCount total batchSize) * batchSize.
Proof.
  intros Ht Hbs. unfold batchCount.
  assert (Hq : 0 <= (total + batchSize - 1) / batchSize).
  { apply Z.div_pos; lia. }
  rewrite Z2Nat.id by exact Hq.
  assert (Hdm := Z.div_mod (total + batchSize - 1) batchSize ltac:(lia)).
  assert (Hm := Z.mod_pos_bound (total + batchSize - 1) batchSize ltac:(lia)).
  nia.
Qed.

Lemma expectedBatchSizes_length (total batchSize : Z) :
  0 <= total -> 1 <= batchSize ->
  length (expectedBatchSizes total batchSize) = batchCount total batchSize.
Proof.
  intros Ht Hbs.
  rewrite <- (chunks_expected batchSize (batchCount total batchSize) Hbs total Ht
                (batchCount_bounds total batchSize Ht Hbs)).
  generalize (batchCount total batchSize) as k. intros k. revert total Ht.
  induction k as [|k IH]; intros total Ht; [reflexivity|].
  cbn [chunks length]. f_equal. apply IH. lia.
Qed.

Section Completion.

Context {G R : Type} `{TradeGeneratorService G} `{InfluxDBRepository R}.
Variable now : nat -> Z.

(** With the flag clear and exactly [k] batches left, [k] fulfilled
    writes bring the loop to its end. *)
Lemma exec_all_fulfilled (k : nat) :
  forall (f : frame) (w w' : service G R) (t : task),
    isStopped w = false ->
    1 <= batchSize f ->
    0 <= totalTrades f - processedTrades f ->
    (Z.of_nat k - 1) * batchSize f < totalTrades f - processedTrades f
    <= Z.of_nat k * batchSize f ->
    exec now (iterate now f w) (repeat (settle None) k) = (w', t) ->
    (forall e, t <> Rejected e) ->
    t = Resolved
    /\ exists tr ds d,
         trace w' = trace w ++ tr
         /\ batchSizes tr
            = chunks k (batchSize f) (totalTrades f - processedTrades f)
         /\ events tr = map progress ds ++ [complete d]
         /\ map processed ds
            = runningTotals (processedTrades f)
                (chunks k (batchSize f) (totalTrades f - processedTrades f))
         /\ processed d = totalTrades f /\ total d = totalTrades f
         /\ percentage d = of_Z 100 /\ estimatedRemainingMs d = of_Z 0
         /\ (honest -> map (@length _) (writes tr) = map Z.to_nat (batchSizes tr)).
Proof.
  induction k as [|k IH]; intros f w w' t Hflag Hbs Hrem Hk E Hok.
  - cbn in E.
    destruct (iterate_cases now f w)
      as [[Hs _] | [(_ & Hge & w1 & d & E1 & _ & Htr & Hp & Ht & Hpc & Hest)
         | [(_ & Hlt & _) | (_ & Hlt & _)]]];
      [congruence | | lia | lia].
    rewrite E1 in E. injection E as <- <-. split; [reflexivity|].
    exists [Emit (complete d)], [], d.
    repeat (split; [first [assumption | reflexivity | lia]|]).
    reflexivity.
  - cbn [repeat] in E.
    change (exec now (iterate now f w) (settle None :: repeat (settle None) k))
      with (exec now (step now (iterate now f w) (settle None)) (repeat (settle None) k))
      in E.
    destruct (iterate_cases now f w)
      as [[Hs _] | [(_ & Hge & _)
         | [(_ & Hlt & w1 & trades & g' & E1 & Hs1 & Htr & Hgen)
           | (_ & Hlt & w1 & e & E1 & _)]]];
      [congruence | lia | |].
    + rewrite E1 in E. cbn [step] in E.
      destruct (resume_fulfilled now
                  (mkFrame (totalTrades f) (batchSize f) (processedTrades f) (startTime f)
                     (Z.min (batchSize f) (totalTrades f - processedTrades f))) w1)
        as (w2 & d & E2 & Hs2 & _ & Htr2 & Hd & _).
      rewrite E2 in E.
      cbn [totalTrades batchSize processedTrades startTime currentBatchSize] in *.
      set (cbs := Z.min (batchSize f) (totalTrades f - processedTrades f)) in *.
      assert (Hflag2 : isStopped w2 = false) by congruence.
      set (f2 := mkFrame (totalTrades f) (batchSize f) (processedTrades f + cbs)
                   (startTime f) cbs) in *.
      assert (Hrem2 : 0 <= totalTrades f2 - processedTrades f2) by (cbn; lia).
      assert (Hk2 : (Z.of_nat k - 1) * batchSize f2
                    < totalTrades f2 - processedTrades f2
                    <= Z.of_nat k * batchSize f2) by (cbn; nia).
      destruct (IH f2 w2 w' t Hflag2 Hbs Hrem2 Hk2 E Hok)
        as (Ht & tr & ds & dlast & Htr3 & Hsizes & Hev & Hproc & Hp & Htot & Hpc
            & Hest & Hw).
      cbn [totalTrades batchSize processedTrades] in *.
      split; [exact Ht|].
      exists ([GenerateBatch cbs; WriteTrades trades] ++ [Emit (progress d)] ++ tr),
        (d :: ds), dlast.
      rewrite Htr3, Htr2, Htr, <- !app_assoc.
      rewrite !batchSizes_app, !events_app, !writes_app.
      change (writes [GenerateBatch cbs; WriteTrades trades]) with [trades].
      change (writes [Emit (progress d)]) with (@nil (list (Trade TradeSide))).
      change (batchSizes [GenerateBatch cbs; WriteTrades trades]) with [cbs].
      change (batchSizes [Emit (progress d)]) with (@nil Z).
      change (events [GenerateBatch cbs; WriteTrades trades]) with (@nil event).
      change (events [Emit (progress d)]) with [progress d].
      cbn [app map chunks runningTotals]. fold cbs.
      replace (totalTrades f - processedTrades f - cbs)
        with (totalTrades f - (processedTrades f + cbs)) by lia.
      rewrite Hsizes, Hev, Hproc, Hd.
      repeat (split; [first [assumption | reflexivity]|]).
      intros Hhonest. rewrite <- Hsizes, (Hw Hhonest), (Hhonest _ _ _ _ Hgen).
      reflexivity.
    + rewrite E1 in E. cbn [step] in E.
      rewrite exec_finished_settles in E by reflexivity.
      injection E as _ <-. now elim (Hok e).
Qed.


End Completion.

(** *** Witnesses on the wired services and on the mocks *)

(** The generator of the repository returns as many trades as asked. *)
Lemma generatorImpl_honest (rng : nat -> Q) : @honest _ (Server.generatorImpl rng).
Proof.
  intros n g g' trades E. cbn in E. unfold TradeGenerator.generateBatch in E.
  now apply generateLoop_length in E.
Qed.

Lemma write_failure_aborts_witness :
  snd (run Sample.now (Mock.mockService 100 10)
         ([settle None; settle None; stop] ++ [settle (Some (Error "Test error"))]))
  = Rejected (Error "Test error").
Proof.
  apply (write_failure_aborts Sample.now (Mock.mockService 100 10)
           (fst (run Sample.now (Mock.mockService 100 10)
                   [settle None; settle None; stop]))
           [settle None; settle None; stop]
           (Error "Test error") (mkFrame 100 10 20 (Sample.now 0) 10)).
  vm_compute. reflexivity.
Defined.


(** ** The unit tests of the repository, replayed on the embedding *)

Example test_createTrade_valid :
  createTrade "AAPL" BUY (Fin (15025 # 100)) (of_Z 100) (DateObj (newDate 1705321845000))
  = Ok (mkTrade "AAPL" BUY (Fin (15025 # 100)) (of_Z 100)
          (DateObj (newDate 1705321845000))).
Proof. reflexivity. Qed.

Example test_createTrade_empty_symbol :
  createTrade "" BUY (Fin (15025 # 100)) (of_Z 100) (DateObj (newDate 1705321845000))
  = Throw (Error "Symbol is required").
Proof. reflexivity. Qed.

Example test_createTrade_price_zero_or_negative :
  createTrade "AAPL" BUY (of_Z 0) (of_Z 100) (DateObj (newDate 1705321845000))
  = Throw (Error "Price must be greater than zero")
  /\ createTrade "AAPL" BUY (of_Z (-10)) (of_Z 100) (DateObj (newDate 1705321845000))
     = Throw (Error "Price must be greater than zero").
Proof. split; reflexivity. Qed.

Example test_createTrade_amount_zero_or_negative :
  createTrade "AAPL" BUY (Fin (15025 # 100)) (of_Z 0) (DateObj (newDate 1705321845000))
  = Throw (Error "Amount must be greater than zero")
  /\ createTrade "AAPL" BUY (Fin (15025 # 100)) (of_Z (-10))
       (DateObj (newDate 1705321845000))
     = Throw (Error "Amount must be greater than zero").
Proof. split; reflexivity. Qed.

Example test_createTrade_invalid_date :
  createTrade "AAPL" BUY (Fin (15025 # 100)) (of_Z 100) (DateObj (mkDate None))
  = Throw (Error "Valid timestamp is required").
Proof. reflexivity. Qed.

Example test_writeTrades_two_points :
  length (InfluxDB.buffered
            (InfluxDB.writeTrades Mock.sampleTrades
               (InfluxDB.createInfluxDBRepository Sample.influxDB)))
  = 2%nat.
Proof. reflexivity. Qed.

Example test_generateBatch_length :
  match fst (TradeGenerator.generateBatch Sample.halves 50 Sample.generator) with
  | Ok trades => length trades = 50%nat
  | Throw _ => False
  end.
Proof. vm_compute. reflexivity. Qed.

(** [total = 100], [batchSize = 10], every write fulfilled: ten calls
    of each collaborator, ten progress events, the first one reporting 10
    of 100, then [complete]. *)
Example test_startIngestion_batches :
  let st := run Sample.now (Mock.mockService 100 10) (repeat (settle None) 10) in
  snd st = Resolved
  /\ batchSizes (trace (fst st)) = repeat 10 10
  /\ length (writes (trace (fst st))) = 10%nat
  /\ count isProgress (events (trace (fst st))) = 10%nat
  /\ match events (trace (fst st)) with
     | progress d :: _ =>
         processed d = 10 /\ total d = 100
         /\ match percentage d with Fin q => (q == 10)%Q | _ => False end
     | _ => False
     end
  /\ match List.last (events (trace (fst st))) stopped with
     | complete d =>
         processed d = 100 /\ total d = 100 /\ percentage d = of_Z 100
         /\ estimatedRemainingMs d = of_Z 0
     | _ => False
     end
  /\ count isComplete (events (trace (fst st))) = 1%nat.
Proof. vm_compute. repeat split; reflexivity. Qed.

Example test_startIngestion_write_error :
  let st := run Sample.now (Mock.mockService 100 10) [settle (Some (Error "Test error"))] in
  snd st = Rejected (Error "Test error")
  /\ events (trace (fst st)) = [error (Error "Test error")].
Proof. split; reflexivity. Qed.

(** A stop request while the first write is pending: [stopped] is
    emitted at once, the batch in flight is still counted, and the run
    ends without a [complete] event. *)
Example test_stopIngestion :
  let st := run Sample.now (Mock.mockService 1000000 10) [stop; settle None] in
  snd st = Resolved
  /\ batchSizes (trace (fst st)) = [10]
  /\ map isStoppedEvent (events (trace (fst st))) = [true; false]
  /\ count isComplete (events (trace (fst st))) = 0%nat.
Proof. vm_compute. repeat split; reflexivity. Qed.

(** A blank symbol in the configuration makes [generateBatch] throw. *)
Example generateBatch_blank_symbol :
  fst (TradeGenerator.generateBatch Sample.zeros 1
         (TradeGenerator.createTradeGeneratorService Sample.zeros
            (TradeGenerator.mkConfig 10 10 (newDate 1704067200000)
               (newDate 1735689599000) [" "]) 0))
  = Throw (Error "Symbol is required").
Proof. vm_compute. reflexivity. Qed.

(** * Further properties

    Properties of the code beyond the statements above: what the
    generator returns and how it fails, how its baseline prices evolve,
    what a run asks of its collaborators under any schedule, and what
    the routes let through. *)

Import Invariants.

(** ** The trade model: the order of the checks *)

(** X1.  [createTrade] reports the first check that fails, in the
    order symbol, price, amount, timestamp; the symbol fails exactly
    when it is empty or made of white space only. *)
Theorem createTrade_first_failure {S : Type}
    (symbol : string) (side : S) (price amount : number) (timestamp : value) :
  (blank symbol ->
   createTrade symbol side price amount timestamp = Throw (Error "Symbol is required"))
  /\ (~ blank symbol -> le0 price = true ->
      createTrade symbol side price amount timestamp
      = Throw (Error "Price must be greater than zero"))
  /\ (~ blank symbol -> le0 price = false -> le0 amount = true ->
      createTrade symbol side price amount timestamp
      = Throw (Error "Amount must be greater than zero"))
  /\ (~ blank symbol -> le0 price = false -> le0 amount = false ->
      isValidDate timestamp = false ->
      createTrade symbol side price amount timestamp
      = Throw (Error "Valid timestamp is required")).
Proof.
  assert (Hguard : forall b : bool,
             (String.eqb symbol "" || String.eqb (trim symbol) "" = b)
             -> (b = true <-> blank symbol)).
  { intros b <-. rewrite createTrade_symbol_guard. apply trim_blank_iff. }
  unfold createTrade.
  destruct (String.eqb symbol "" || String.eqb (trim symbol) "") eqn:E;
    specialize (Hguard _ eq_refl).
  - repeat split; try reflexivity; intros Hn; exfalso; apply Hn, Hguard; reflexivity.
  - assert (Hb : ~ blank symbol) by (intros Hb; apply Hguard in Hb; discriminate).
    split; [intros Hb'; contradiction|].
    split; [intros _ ->; reflexivity|].
    split; [intros _ -> ->; reflexivity|].
    intros _ -> -> ->. reflexivity.
Qed.
(** ** The generator: further properties *)

Lemma createTrade_inversion {S : Type}
    (symbol : string) (side : S) (price amount : number) (timestamp : value)
    (t : Trade S) :
  createTrade symbol side price amount timestamp = Ok t ->
  t = mkTrade symbol side price amount timestamp
  /\ trim symbol <> "" /\ le0 price = false /\ le0 amount = false
  /\ isValidDate timestamp = true.
Proof.
  unfold createTrade.
  destruct (String.eqb symbol "" || String.eqb (trim symbol) "") eqn:E1;
    [discriminate|].
  destruct (le0 price) eqn:E2; [discriminate|].
  destruct (le0 amount) eqn:E3; [discriminate|].
  destruct (isValidDate timestamp) eqn:E4; [|discriminate].
  cbn [negb]. intros [= <-]. repeat split.
  intros Ht. apply createTrade_symbol_guard in Ht. congruence.
Qed.

Lemma symbolAt_Some (symbols : list string) (i : Z) (sym : string) :
  TradeGenerator.symbolAt symbols i = Some sym -> In sym symbols.
Proof.
  unfold TradeGenerator.symbolAt. destruct (i <? 0); [discriminate|].
  intros E. apply list_elem_of_In. eapply list_elem_of_lookup_2. exact E.
Qed.

Lemma le0_cents (cents : Z) : le0 (Fin (inject_Z cents / 100)) = false -> 1 <= cents.
Proof.
  cbn [le0]. intros E.
  destruct (Z_lt_le_dec cents 1) as [Hlt|]; [|assumption].
  assert (Hq : (inject_Z cents / 100 <= 0)%Q).
  { assert (inject_Z cents <= inject_Z 0)%Q by (rewrite <- Zle_Qle; lia).
    change (inject_Z 0) with 0%Q in *.
    apply Qle_shift_div_r; [reflexivity | lra]. }
  apply Qle_bool_iff in Hq. congruence.
Qed.

Lemma le0_of_Z_false (a : Z) : le0 (of_Z a) = false -> 1 <= a.
Proof.
  unfold of_Z. cbn [le0]. intros E.
  destruct (Z_lt_le_dec a 1) as [Hlt|]; [|assumption].
  assert (Hq : (inject_Z a <= 0)%Q).
  { change 0%Q with (inject_Z 0). rewrite <- Zle_Qle. lia. }
  apply Qle_bool_iff in Hq. congruence.
Qed.

Lemma generateTrade_validated (rng : nat -> Q)
    (g : TradeGenerator.TradeGeneratorServiceImpl) (trade : Trade TradeSide) :
  fst (TradeGenerator.generateTrade rng g) = Ok trade ->
  validated (TradeGenerator.config g) trade.
Proof.
  rewrite generateTrade_result. cbv zeta.
  destruct (TradeGenerator.symbolAt _ _) as [sym|] eqn:Esym; [|discriminate].
  intros E. apply createTrade_inversion in E.
  destruct E as (-> & Htrim & Hprice & Hamount & Hdate).
  unfold validated. cbn [symbol price amount timestamp].
  split; [exact (symbolAt_Some _ _ _ Esym)|].
  split; [intros Hb; apply Htrim, trim_blank_iff, Hb|].
  split; [eexists; split; [reflexivity | exact (le0_cents _ Hprice)]|].
  split; [eexists; split; [reflexivity | exact (le0_of_Z_false _ Hamount)]|].
  cbn [isValidDate] in Hdate.
  destruct (fst (TradeGenerator.generateRandomTimestamp rng _)) as [[ts|]];
    cbn [getTime] in Hdate; [|discriminate].
  now exists ts.
Qed.

Lemma generateLoop_shape (rng : nat -> Q) (n : nat) :
  forall acc g trades g',
    TradeGenerator.generateLoop rng n acc g = (Ok trades, g') ->
    exists new,
      trades = acc ++ new
      /\ length new = n
      /\ Forall (validated (TradeGenerator.config g)) new
      /\ TradeGenerator.draws g' = (TradeGenerator.draws g + 10 * n)%nat
      /\ TradeGenerator.config g' = TradeGenerator.config g.
Proof.
  induction n as [|n IH]; intros acc g trades g' E.
  - cbn in E. injection E as <- <-. exists []. rewrite app_nil_r.
    repeat split; [constructor | lia].
  - rewrite generateLoop_S in E.
    assert (Hstate := generateTrade_state rng g). cbv zeta in Hstate.
    assert (Hvalid := generateTrade_validated rng g).
    destruct (TradeGenerator.generateTrade rng g) as [[trade|e] g1];
      [|discriminate]. cbn [fst snd] in *.
    destruct (IH _ _ _ _ E) as (new & -> & Hlen & Hall & Hdraws & Hcfg).
    assert (Hc1 : TradeGenerator.config g1 = TradeGenerator.config g)
      by now rewrite Hstate.
    assert (Hd1 : TradeGenerator.draws g1 = (10 + TradeGenerator.draws g)%nat)
      by now rewrite Hstate.
    exists (trade :: new). rewrite <- app_assoc. cbn [app length].
    split; [reflexivity|]. split; [now rewrite Hlen|].
    split; [constructor; [now apply Hvalid | now rewrite <- Hc1]|].
    split; [lia | congruence].
Qed.

(** X2.  Whatever the random numbers and the state of the generator,
    a batch that [generateBatch] returns has the requested number of
    trades; each has a configured symbol that is not blank, a price of at
    least one cent in whole cents, an integral amount of at least 1 and a
    valid timestamp.  Ten random numbers were drawn per trade, and
    [getTotalTrades] and [getRecommendedBatchSize] answer as before. *)
Theorem generateBatch_returned (rng : nat -> Q) (n : Z)
    (g g' : TradeGenerator.TradeGeneratorServiceImpl)
    (trades : list (Trade TradeSide)) :
  TradeGenerator.generateBatch rng n g = (Ok trades, g') ->
  length trades = Z.to_nat n
  /\ Forall (validated (TradeGenerator.config g)) trades
  /\ TradeGenerator.draws g' = (TradeGenerator.draws g + 10 * Z.to_nat n)%nat
  /\ TradeGenerator.getTotalTrades g' = TradeGenerator.getTotalTrades g
  /\ TradeGenerator.getRecommendedBatchSize g' = TradeGenerator.getRecommendedBatchSize g.
Proof.
  unfold TradeGenerator.generateBatch. intros E.
  destruct (generateLoop_shape _ _ _ _ _ _ E) as (new & -> & Hlen & Hall & Hdraws & Hcfg).
  unfold TradeGenerator.getTotalTrades, TradeGenerator.getRecommendedBatchSize.
  rewrite Hcfg. cbn [app]. repeat split; assumption.
Qed.

Lemma generateBatch_returned_witness :
  length (match fst (TradeGenerator.generateBatch Sample.halves 2 Sample.generator) with
          | Ok trades => trades
          | Throw _ => []
          end)
  = Z.to_nat 2.
Proof.
  pose proof (@generateBatch_returned Sample.halves 2 Sample.generator
                (snd (TradeGenerator.generateBatch Sample.halves 2 Sample.generator))
                (match fst (TradeGenerator.generateBatch Sample.halves 2
                              Sample.generator) with
                 | Ok trades => trades
                 | Throw _ => []
                 end)) as H.
  assert (E : TradeGenerator.generateBatch Sample.halves 2 Sample.generator
              = (Ok (match fst (TradeGenerator.generateBatch Sample.halves 2
                                  Sample.generator) with
                     | Ok trades => trades
                     | Throw _ => []
                     end),
                 snd (TradeGenerator.generateBatch Sample.halves 2 Sample.generator)))
    by (vm_compute; reflexivity).
  specialize (H E). destruct H as [H _]. exact H.
Defined.

Lemma generateLoop_acc (rng : nat -> Q) (n : nat) :
  forall acc g,
    TradeGenerator.generateLoop rng n acc g
    = (let (r, g') := TradeGenerator.generateLoop rng n [] g in
       (match r with Ok trades => Ok (acc ++ trades) | Throw e => Throw e end, g')).
Proof.
  induction n as [|n IH]; intros acc g.
  - cbn. now rewrite app_nil_r.
  - rewrite !generateLoop_S.
    destruct (TradeGenerator.generateTrade rng g) as [[trade|e] g1]; [|reflexivity].
    rewrite (IH (acc ++ [trade])), (IH ([] ++ [trade])).
    destruct (TradeGenerator.generateLoop rng n [] g1) as [[trades|e] g2];
      [|reflexivity].
    now rewrite <- app_assoc.
Qed.

Lemma generateLoop_add (rng : nat -> Q) (a b : nat) :
  forall acc g,
    TradeGenerator.generateLoop rng (a + b) acc g
    = (let (r, g1) := TradeGenerator.generateLoop rng a acc g in
       match r with
       | Ok trades => TradeGenerator.generateLoop rng b trades g1
       | Throw e => (Throw e, g1)
       end).
Proof.
  induction a as [|a IH]; intros acc g; [reflexivity|].
  change (S a + b)%nat with (S (a + b)). rewrite !generateLoop_S.
  destruct (TradeGenerator.generateTrade rng g) as [[trade|e] g1]; [|reflexivity].
  apply IH.
Qed.

(** X3.  A batch of [a + b] trades is a batch of [a] trades followed
    by a batch of [b]: the same trades in the same order and the same
    final state, or the same failure in the same state. *)
Theorem generateBatch_split (rng : nat -> Q) (a b : Z)
    (g : TradeGenerator.TradeGeneratorServiceImpl) :
  0 <= a -> 0 <= b ->
  TradeGenerator.generateBatch rng (a + b) g
  = (let (r1, g1) := TradeGenerator.generateBatch rng a g in
     match r1 with
     | Throw e => (Throw e, g1)
     | Ok first =>
         let (r2, g2) := TradeGenerator.generateBatch rng b g1 in
         (match r2 with Ok second => Ok (first ++ second) | Throw e => Throw e end, g2)
     end).
Proof.
  intros Ha Hb. unfold TradeGenerator.generateBatch.
  rewrite Z2Nat.inj_add by assumption. rewrite generateLoop_add.
  destruct (TradeGenerator.generateLoop rng (Z.to_nat a) [] g) as [[first|e] g1];
    [|reflexivity].
  apply generateLoop_acc.
Qed.

Lemma generateBatch_split_witness :
  TradeGenerator.generateBatch Sample.halves (1 + 2) Sample.generator
  = (let (r1, g1) := TradeGenerator.generateBatch Sample.halves 1 Sample.generator in
     match r1 with
     | Throw e => (Throw e, g1)
     | Ok first =>
         let (r2, g2) := TradeGenerator.generateBatch Sample.halves 2 g1 in
         (match r2 with Ok second => Ok (first ++ second) | Throw e => Throw e end, g2)
     end).
Proof. apply (generateBatch_split Sample.halves 1 2 Sample.generator); lia. Defined.

Lemma generateBatch_first (rng : nat -> Q) (n : Z)
    (g : TradeGenerator.TradeGeneratorServiceImpl) (e : exn) :
  1 <= n ->
  fst (TradeGenerator.generateTrade rng g) = Throw e ->
  TradeGenerator.generateBatch rng n g
  = (Throw e, snd (TradeGenerator.generateTrade rng g)).
Proof.
  intros Hn E. unfold TradeGenerator.generateBatch.
  destruct (Z.to_nat n) as [|k] eqn:Ek; [lia|].
  rewrite generateLoop_S.
  destruct (TradeGenerator.generateTrade rng g) as [r g1]. cbn [fst snd] in *.
  now rewrite E.
Qed.

Lemma generateTrade_no_symbols (rng : nat -> Q)
    (g : TradeGenerator.TradeGeneratorServiceImpl) :
  TradeGenerator.symbols (TradeGenerator.config g) = [] ->
  fst (TradeGenerator.generateTrade rng g) = Throw (Error "Symbol is required")
  /\ TradeGenerator.draws (snd (TradeGenerator.generateTrade rng g))
     = (10 + TradeGenerator.draws g)%nat
  /\ is_Some (TradeGenerator.baselinePrices (snd (TradeGenerator.generateTrade rng g))
              !! None).
Proof.
  intros Hsym.
  assert (Hres := generateTrade_result rng g).
  assert (Hstate := generateTrade_state rng g).
  cbv zeta in Hres, Hstate. rewrite Hsym in Hres, Hstate.
  change (Z.of_nat (length (@nil string))) with 0 in Hres, Hstate.
  rewrite randomBelow_zero in Hres, Hstate.
  change (TradeGenerator.symbolAt [] 0) with (@None string) in Hres, Hstate.
  rewrite Hstate. split; [exact Hres|]. split; [reflexivity|].
  cbn [TradeGenerator.baselinePrices]. rewrite lookup_insert_eq. eexists; reflexivity.
Qed.

(** X4.  With an empty list of symbols, every batch of one trade or
    more fails on its first trade with 'Symbol is required'; by then ten
    random numbers were drawn and a baseline price was stored under
    [undefined]. *)
Theorem generateBatch_no_symbols (rng : nat -> Q) (n : Z)
    (g : TradeGenerator.TradeGeneratorServiceImpl) :
  TradeGenerator.symbols (TradeGenerator.config g) = [] ->
  1 <= n ->
  fst (TradeGenerator.generateBatch rng n g) = Throw (Error "Symbol is required")
  /\ TradeGenerator.draws (snd (TradeGenerator.generateBatch rng n g))
     = (10 + TradeGenerator.draws g)%nat
  /\ is_Some (TradeGenerator.baselinePrices
                (snd (TradeGenerator.generateBatch rng n g)) !! None).
Proof.
  intros Hsym Hn.
  destruct (generateTrade_no_symbols rng g Hsym) as (E & Hdraws & Hkey).
  rewrite (generateBatch_first rng n g _ Hn E). clear E. revert Hdraws Hkey.
  generalize (snd (TradeGenerator.generateTrade rng g)). intros g1 Hdraws Hkey.
  cbn [fst snd]. split; [reflexivity|]. split; assumption.
Qed.

Lemma generateBatch_no_symbols_witness :
  fst (TradeGenerator.generateBatch Sample.halves 3
         (TradeGenerator.createTradeGeneratorService Sample.halves
            (TradeGenerator.mkConfig 10 5 (newDate 0) (newDate 1000) []) 0))
  = Throw (Error "Symbol is required").
Proof.
  refine (proj1 (generateBatch_no_symbols Sample.halves 3 _ _ _)); [reflexivity | lia].
Defined.

(** The settings of a generator never change. *)
Lemma reachable_constructed (rng : nat -> Q)
    (config : TradeGenerator.TradeGenerationConfig)
    (g : TradeGenerator.TradeGeneratorServiceImpl) :
  reachable rng config g ->
  TradeGenerator.config g = config
  /\ TradeGenerator.startTimestamp g = getTime (TradeGenerator.startDate config)
  /\ TradeGenerator.timeRange g
     = match getTime (TradeGenerator.startDate config),
             getTime (TradeGenerator.endDate config) with
       | Some s, Some e => Some (e - s)
       | _, _ => None
       end.
Proof.
  intros Hreach. induction Hreach as [d|n g Hreach (E1 & E2 & E3)].
  - unfold TradeGenerator.createTradeGeneratorService.
    destruct (TradeGenerator.initializeBaselinePrices _ _ _ _) as [prices d'].
    repeat split.
  - destruct (generateLoop_settings rng (Z.to_nat n) [] g) as (F1 & F2 & F3).
    unfold TradeGenerator.generateBatch. now rewrite F1, F2, F3.
Qed.

(** X5.  [getTotalTrades] and [getRecommendedBatchSize] answer with the
    configured values, however many batches were generated. *)
Theorem getters_constant (rng : nat -> Q)
    (config : TradeGenerator.TradeGenerationConfig)
    (g : TradeGenerator.TradeGeneratorServiceImpl) :
  reachable rng config g ->
  TradeGenerator.getTotalTrades g = TradeGenerator.totalTrades config
  /\ TradeGenerator.getRecommendedBatchSize g = TradeGenerator.batchSize config.
Proof.
  intros Hreach. destruct (reachable_constructed _ _ _ Hreach) as (E & _).
  unfold TradeGenerator.getTotalTrades, TradeGenerator.getRecommendedBatchSize.
  now rewrite E.
Qed.

Lemma getters_constant_witness :
  let g := snd (TradeGenerator.generateBatch Sample.halves 4 Sample.generator) in
  TradeGenerator.getTotalTrades g = 1000
  /\ TradeGenerator.getRecommendedBatchSize g = 100.
Proof.
  apply (getters_constant Sample.halves Sample.config).
  apply reachable_batch, reachable_new.
Defined.

Lemma setters_invalid (h m s ms : Z) :
  setUTCMilliseconds ms (setUTCSeconds s (setUTCMinutes m (setUTCHours h (mkDate None))))
  = mkDate None.
Proof. reflexivity. Qed.

Lemma createTrade_invalid_timestamp {S : Type}
    (symbol : string) (side : S) (price amount : number) (timestamp : value) :
  isValidDate timestamp = false ->
  exists e,
    createTrade symbol side price amount timestamp = Throw e
    /\ In e [Error "Symbol is required"; Error "Price must be greater than zero";
             Error "Amount must be greater than zero";
             Error "Valid timestamp is required"].
Proof.
  intros E. unfold createTrade. rewrite E. cbn [negb In].
  destruct (_ || _); [eauto 6|].
  destruct (le0 price); [eauto 6|].
  destruct (le0 amount); eauto 7.
Qed.

(** X6.  If [startDate] or [endDate] is an invalid date, no batch of
    one trade or more is ever returned: [createTrade] refuses the first
    trade, with one of its four errors. *)
Theorem generateBatch_invalid_dates (rng : nat -> Q)
    (config : TradeGenerator.TradeGenerationConfig)
    (g : TradeGenerator.TradeGeneratorServiceImpl) (n : Z) :
  reachable rng config g ->
  getTime (TradeGenerator.startDate config) = None
  \/ getTime (TradeGenerator.endDate config) = None ->
  1 <= n ->
  exists e,
    fst (TradeGenerator.generateBatch rng n g) = Throw e
    /\ In e [Error "Symbol is required"; Error "Price must be greater than zero";
             Error "Amount must be greater than zero";
             Error "Valid timestamp is required"].
Proof.
  intros Hreach Hdate Hn.
  destruct (reachable_constructed _ _ _ Hreach) as (_ & Hs & Hr).
  assert (Hrange : TradeGenerator.timeRange g = None).
  { rewrite Hr. destruct Hdate as [-> | ->]; [reflexivity|].
    now destruct (getTime (TradeGenerator.startDate config)). }
  assert (E : exists e,
             fst (TradeGenerator.generateTrade rng g) = Throw e
             /\ In e [Error "Symbol is required";
                      Error "Price must be greater than zero";
                      Error "Amount must be greater than zero";
                      Error "Valid timestamp is required"]).
  { rewrite generateTrade_result. cbv zeta.
    destruct (TradeGenerator.symbolAt _ _) as [sym|];
      [|eexists; split; [reflexivity | now left]].
    apply createTrade_invalid_timestamp.
    rewrite generateRandomTimestamp_eq. cbv zeta.
    cbn [TradeGenerator.startTimestamp TradeGenerator.timeRange]. rewrite Hrange.
    now destruct (TradeGenerator.startTimestamp g). }
  destruct E as (e & E & Hin). exists e.
  rewrite (generateBatch_first rng n g e Hn E). clear E.
  generalize (snd (TradeGenerator.generateTrade rng g)). intros g1.
  split; [reflexivity | exact Hin].
Qed.

Lemma generateBatch_invalid_dates_witness :
  exists e,
    fst (TradeGenerator.generateBatch Sample.halves 2
           (TradeGenerator.createTradeGeneratorService Sample.halves
              (TradeGenerator.mkConfig 10 5 (mkDate None) (newDate 1735689599000)
                 ["AAPL"]) 0))
    = Throw e
    /\ In e [Error "Symbol is required"; Error "Price must be greater than zero";
             Error "Amount must be greater than zero";
             Error "Valid timestamp is required"].
Proof.
  apply (generateBatch_invalid_dates Sample.halves
           (TradeGenerator.mkConfig 10 5 (mkDate None) (newDate 1735689599000)
              ["AAPL"])).
  - apply reachable_new.
  - left. reflexivity.
  - lia.
Defined.

(** *** Baseline prices *)

Lemma initializeBaselinePrices_draws (rng : nat -> Q) (symbols : list string) :
  forall prices d,
    snd (TradeGenerator.initializeBaselinePrices rng symbols prices d)
    = (d + length symbols)%nat.
Proof.
  induction symbols as [|symbol rest IH]; intros prices d; cbn; [lia|].
  rewrite IH. lia.
Qed.

Lemma initializeBaselinePrices_other (rng : nat -> Q) (symbols : list string) :
  forall prices d k,
    (forall sym, In sym symbols -> k <> Some sym) ->
    fst (TradeGenerator.initializeBaselinePrices rng symbols prices d) !! k
    = prices !! k.
Proof.
  induction symbols as [|symbol rest IH]; intros prices d k Hk; [reflexivity|].
  cbn [TradeGenerator.initializeBaselinePrices].
  rewrite IH by (intros sym Hin; apply Hk; now right).
  apply lookup_insert_ne. intros E. now apply (Hk symbol); [left|].
Qed.

Lemma initializeBaselinePrices_symbol (rng : nat -> Q) (symbols : list string) :
  forall prices d sym,
    In sym symbols ->
    exists i,
      (i < length symbols)%nat
      /\ fst (TradeGenerator.initializeBaselinePrices rng symbols prices d) !! Some sym
         = Some (50 + rng (d + i)%nat * 450)%Q.
Proof.
  induction symbols as [|symbol rest IH]; intros prices d sym Hin; [destruct Hin|].
  cbn [TradeGenerator.initializeBaselinePrices length].
  destruct (in_dec string_dec sym rest) as [Hrest|Hrest].
  - destruct (IH (<[Some symbol := (50 + rng d * 450)%Q]> prices) (S d) sym Hrest)
      as (i & Hi & E).
    exists (S i). split; [lia|]. rewrite E.
    now replace (d + S i)%nat with (S d + i)%nat by lia.
  - destruct Hin as [->|Hin]; [|contradiction].
    exists 0%nat. split; [lia|].
    rewrite initializeBaselinePrices_other
      by (intros sym' Hin' [= ->]; contradiction).
    rewrite lookup_insert_eq. now replace (d + 0)%nat with d by lia.
Qed.

Lemma constructed_keys (rng : nat -> Q)
    (config : TradeGenerator.TradeGenerationConfig) (d : nat) (k : option string) :
  is_Some (TradeGenerator.baselinePrices
             (TradeGenerator.createTradeGeneratorService rng config d) !! k)
  <-> configured config k.
Proof.
  unfold TradeGenerator.createTradeGeneratorService.
  assert (Hother := initializeBaselinePrices_other rng (TradeGenerator.symbols config) ∅ d).
  assert (Hsym := initializeBaselinePrices_symbol rng (TradeGenerator.symbols config) ∅ d).
  destruct (TradeGenerator.initializeBaselinePrices rng _ ∅ d) as [prices d'].
  cbn [fst TradeGenerator.baselinePrices] in *. split.
  - intros [b E]. destruct k as [sym|].
    + destruct (in_dec string_dec sym (TradeGenerator.symbols config)) as [Hin|Hout];
        [now exists sym|].
      rewrite Hother in E by (intros sym' Hin' [= ->]; contradiction).
      rewrite lookup_empty in E. discriminate.
    + rewrite Hother in E by (intros sym' _; discriminate).
      rewrite lookup_empty in E. discriminate.
  - intros (sym & -> & Hin). destruct (Hsym sym Hin) as (i & _ & E).
    rewrite E. eexists; reflexivity.
Qed.

(** X7.  For random numbers in the unit interval, a new generator
    holds one baseline price for each configured symbol and for nothing
    else, each from 50 (included) to 500 (excluded), and has drawn one
    random number per entry of the list of symbols. *)
Theorem createTradeGeneratorService_baselines (rng : nat -> Q)
    (config : TradeGenerator.TradeGenerationConfig) (d : nat) :
  unitInterval rng ->
  let g := TradeGenerator.createTradeGeneratorService rng config d in
  (forall k, is_Some (TradeGenerator.baselinePrices g !! k)
             <-> exists sym, k = Some sym /\ In sym (TradeGenerator.symbols config))
  /\ (forall k b, TradeGenerator.baselinePrices g !! k = Some b ->
                  (50 <= b)%Q /\ (b < 500)%Q)
  /\ TradeGenerator.draws g = (d + length (TradeGenerator.symbols config))%nat.
Proof.
  intros Hrng g.
  assert (Hkeys := constructed_keys rng config d). fold g in Hkeys.
  split; [exact Hkeys|].
  revert Hkeys. unfold g, TradeGenerator.createTradeGeneratorService.
  assert (Hsym := initializeBaselinePrices_symbol rng (TradeGenerator.symbols config) ∅ d).
  assert (Hdraws := initializeBaselinePrices_draws rng (TradeGenerator.symbols config) ∅ d).
  destruct (TradeGenerator.initializeBaselinePrices rng _ ∅ d) as [prices d'].
  cbn [fst snd TradeGenerator.baselinePrices TradeGenerator.draws] in *.
  intros Hkeys. split; [|exact Hdraws].
  intros k b E. destruct (proj1 (Hkeys k) ltac:(eexists; exact E)) as (sym & -> & Hin).
  destruct (Hsym sym Hin) as (i & _ & E'). rewrite E' in E. injection E as <-.
  destruct (Hrng (d + i)%nat). split; lra.
Qed.

Lemma createTradeGeneratorService_baselines_witness :
  (forall k b, TradeGenerator.baselinePrices Sample.generator !! k = Some b ->
               (50 <= b)%Q /\ (b < 500)%Q)
  /\ TradeGenerator.draws Sample.generator
     = (0 + length (TradeGenerator.symbols Sample.config))%nat.
Proof.
  exact (proj2 (createTradeGeneratorService_baselines Sample.halves
                  Sample.config 0 unitInterval_halves)).
Defined.

Lemma generateTrade_symbol (rng : nat -> Q)
    (g : TradeGenerator.TradeGeneratorServiceImpl) :
  unitInterval rng ->
  TradeGenerator.symbols (TradeGenerator.config g) <> [] ->
  exists sym,
    In sym (TradeGenerator.symbols (TradeGenerator.config g))
    /\ TradeGenerator.baselinePrices (snd (TradeGenerator.generateTrade rng g))
       = <[Some sym :=
             (TradeGenerator.basePriceOf g (Some sym)
              * (1 + (rng (3 + TradeGenerator.draws g)%nat - (1 # 2)) * (1 # 100)))%Q]>
           (TradeGenerator.baselinePrices g).
Proof.
  intros Hrng Hne. rewrite generateTrade_state. cbv zeta.
  cbn [TradeGenerator.baselinePrices].
  set (symbols := TradeGenerator.symbols (TradeGenerator.config g)) in *.
  destruct (Hrng (TradeGenerator.draws g)) as [H0 H1].
  assert (Hlen : 0 < Z.of_nat (length symbols)).
  { destruct symbols; [contradiction | cbn; lia]. }
  destruct (symbolAt_in symbols _ (randomBelow_range _ _ H0 H1 Hlen))
    as (sym & Esym & Hin).
  exists sym. rewrite Esym. now split.
Qed.

Section Baselines.

Variable rng : nat -> Q.
Variable config : TradeGenerator.TradeGenerationConfig.
Hypothesis Hrng : unitInterval rng.
Hypothesis Hne : TradeGenerator.symbols config <> [].

Lemma generateTrade_keys (g : TradeGenerator.TradeGeneratorServiceImpl) :
  TradeGenerator.config g = config ->
  (forall k, is_Some (TradeGenerator.baselinePrices g !! k) <-> configured config k) ->
  forall k,
    is_Some (TradeGenerator.baselinePrices (snd (TradeGenerator.generateTrade rng g)) !! k)
    <-> configured config k.
Proof.
  intros Hcfg Hkeys k.
  destruct (generateTrade_symbol rng g Hrng) as (sym & Hin & ->);
    [now rewrite Hcfg|].
  rewrite Hcfg in Hin. rewrite lookup_insert_is_Some, Hkeys.
  split.
  - intros [<- | [_ Hk]]; [now exists sym | exact Hk].
  - intros Hk. destruct (decide (Some sym = k)); [now left | now right].
Qed.

Lemma generateLoop_keys (n : nat) :
  forall acc g,
    TradeGenerator.config g = config ->
    (forall k, is_Some (TradeGenerator.baselinePrices g !! k) <-> configured config k) ->
    forall k,
      is_Some (TradeGenerator.baselinePrices
                 (snd (TradeGenerator.generateLoop rng n acc g)) !! k)
      <-> configured config k.
Proof.
  induction n as [|n IH]; intros acc g Hcfg Hkeys; [exact Hkeys|].
  rewrite generateLoop_S.
  assert (Hstep := generateTrade_keys g Hcfg Hkeys).
  assert (Hstate := generateTrade_state rng g). cbv zeta in Hstate.
  destruct (TradeGenerator.generateTrade rng g) as [[trade|e] g1];
    cbn [snd] in *; [|exact Hstep].
  apply IH; [|exact Hstep]. now rewrite Hstate.
Qed.

(** X8.  For random numbers in the unit interval and a list of
    symbols that is not empty, in every state of a generator the
    baseline prices are those of the configured symbols and of nothing
    else, and each is positive, so that the fallback price of 100 is
    never used for a configured symbol. *)
Theorem reachable_baselines (g : TradeGenerator.TradeGeneratorServiceImpl) :
  reachable rng config g ->
  (forall k, is_Some (TradeGenerator.baselinePrices g !! k)
             <-> exists sym, k = Some sym /\ In sym (TradeGenerator.symbols config))
  /\ (forall sym, In sym (TradeGenerator.symbols config) ->
        TradeGenerator.baselinePrices g !! Some sym
        = Some (TradeGenerator.basePriceOf g (Some sym))
        /\ (0 < TradeGenerator.basePriceOf g (Some sym))%Q).
Proof.
  intros Hreach.
  assert (Hkeys : forall k, is_Some (TradeGenerator.baselinePrices g !! k)
                            <-> configured config k).
  { induction Hreach as [d|n g Hreach IH].
    - exact (constructed_keys rng config d).
    - apply generateLoop_keys; [|exact IH].
      exact (proj1 (reachable_constructed _ _ _ Hreach)). }
  split; [exact Hkeys|].
  intros sym Hin.
  destruct (proj2 (Hkeys (Some sym))) as [b E]; [now exists sym|].
  assert (Hb : (0 < b)%Q) by exact (reachable_positive _ _ _ Hrng Hreach _ _ E).
  rewrite (basePriceOf_lookup _ _ _ E Hb). now split.
Qed.

Lemma generateTrade_drift (g : TradeGenerator.TradeGeneratorServiceImpl)
    (k : option string) (b : Q) :
  positivePrices (TradeGenerator.baselinePrices g) ->
  TradeGenerator.baselinePrices g !! k = Some b ->
  exists b',
    TradeGenerator.baselinePrices (snd (TradeGenerator.generateTrade rng g)) !! k
    = Some b'
    /\ (b * (199 # 200) <= b')%Q /\ (b' <= b * (201 # 200))%Q.
Proof.
  intros Hpos E. rewrite generateTrade_state. cbv zeta.
  cbn [TradeGenerator.baselinePrices].
  assert (Hb : (0 < b)%Q) by exact (Hpos _ _ E).
  destruct (Hrng (3 + TradeGenerator.draws g)%nat) as [H0 H1].
  destruct (drift_factor_bounds _ H0 H1) as [Hlo Hhi].
  match goal with |- context [<[?k0 := _]> _] => destruct (decide (k0 = k)) as [->|Hk] end.
  - rewrite lookup_insert_eq, (basePriceOf_lookup _ _ _ E Hb).
    eexists. split; [reflexivity|]. split; nra.
  - rewrite lookup_insert_ne by exact Hk. exists b. split; [exact E|]. split; lra.
Qed.

Lemma growth_range (n : nat) : (1 <= growth n)%Q.
Proof. induction n as [|n IH]; cbn [growth]; lra. Qed.

Lemma generateLoop_drift (n : nat) :
  forall acc g k b,
    positivePrices (TradeGenerator.baselinePrices g) ->
    TradeGenerator.baselinePrices g !! k = Some b ->
    exists b',
      TradeGenerator.baselinePrices (snd (TradeGenerator.generateLoop rng n acc g)) !! k
      = Some b'
      /\ (b * decay n <= b')%Q /\ (b' <= b * growth n)%Q.
Proof.
  induction n as [|n IH]; intros acc g k b Hpos E.
  - exists b. split; [exact E|]. cbn [decay growth]. split; lra.
  - rewrite generateLoop_S.
    assert (Hb : (0 < b)%Q) by exact (Hpos _ _ E).
    destruct (generateTrade_drift g k b Hpos E) as (b1 & E1 & Hlo1 & Hhi1).
    assert (Hpos1 := generateTrade_positive rng g Hrng Hpos).
    destruct (decay_range n) as [Hd0 Hd1]. assert (Hg := growth_range n).
    destruct (TradeGenerator.generateTrade rng g) as [[trade|e] g1]; cbn [snd] in *.
    + destruct (IH (acc ++ [trade]) g1 k b1 Hpos1 E1) as (b' & E' & Hlo & Hhi).
      exists b'. split; [exact E'|]. cbn [decay growth].
      assert (0 < b1)%Q by lra. split; nra.
    + exists b1. split; [exact E1|]. cbn [decay growth]. split; nra.
Qed.

(** X9.  In a reachable state, a call [generateBatch n] moves no
    baseline price below [0.995 ^ n] times or above [1.005 ^ n] times its
    value, whether the call returns or fails. *)
Theorem generateBatch_drift (g : TradeGenerator.TradeGeneratorServiceImpl)
    (n : Z) (k : option string) (b : Q) :
  reachable rng config g ->
  TradeGenerator.baselinePrices g !! k = Some b ->
  exists b',
    TradeGenerator.baselinePrices (snd (TradeGenerator.generateBatch rng n g)) !! k
    = Some b'
    /\ (b * decay (Z.to_nat n) <= b')%Q /\ (b' <= b * growth (Z.to_nat n))%Q.
Proof.
  intros Hreach E. apply generateLoop_drift; [|exact E].
  exact (reachable_positive _ _ _ Hrng Hreach).
Qed.

(** X10.  For random numbers in the unit interval,
    [generateRandomAmount] returns an integer from 1 to 1000; it draws
    one random number and leaves the baseline prices alone. *)
Theorem generateRandomAmount_range (g : TradeGenerator.TradeGeneratorServiceImpl) :
  1 <= fst (TradeGenerator.generateRandomAmount rng g) <= 1000
  /\ TradeGenerator.draws (snd (TradeGenerator.generateRandomAmount rng g))
     = S (TradeGenerator.draws g)
  /\ TradeGenerator.baselinePrices (snd (TradeGenerator.generateRandomAmount rng g))
     = TradeGenerator.baselinePrices g.
Proof.
  destruct (Hrng (TradeGenerator.draws g)) as [H0 H1].
  split; [exact (randomAmount_range _ H0 H1) | split; reflexivity].
Qed.

End Baselines.

Lemma Sample_config_symbols : TradeGenerator.symbols Sample.config <> [].
Proof. discriminate. Qed.

Lemma reachable_baselines_witness :
  TradeGenerator.baselinePrices
    (snd (TradeGenerator.generateBatch Sample.halves 2 Sample.generator)) !! Some "MSFT"
  = Some (TradeGenerator.basePriceOf
            (snd (TradeGenerator.generateBatch Sample.halves 2 Sample.generator))
            (Some "MSFT"))
  /\ (0 < TradeGenerator.basePriceOf
            (snd (TradeGenerator.generateBatch Sample.halves 2 Sample.generator))
            (Some "MSFT"))%Q.
Proof.
  refine (proj2 (reachable_baselines Sample.halves Sample.config unitInterval_halves
                   Sample_config_symbols _ _) "MSFT" _).
  - apply reachable_batch, reachable_new.
  - right; left; reflexivity.
Defined.

Lemma generateBatch_drift_witness :
  exists b',
    TradeGenerator.baselinePrices
      (snd (TradeGenerator.generateBatch Sample.halves 3 Sample.generator)) !! Some "AAPL"
    = Some b'
    /\ ((50 + (1 # 2) * 450) * decay (Z.to_nat 3) <= b')%Q
    /\ (b' <= (50 + (1 # 2) * 450) * growth (Z.to_nat 3))%Q.
Proof.
  apply (generateBatch_drift Sample.halves Sample.config unitInterval_halves
           Sample.generator 3 (Some "AAPL") (50 + (1 # 2) * 450)%Q).
  - apply reachable_new.
  - vm_compute. reflexivity.
Defined.

Lemma generateRandomAmount_range_witness :
  1 <= fst (TradeGenerator.generateRandomAmount Sample.halves Sample.generator) <= 1000.
Proof.
  exact (proj1 (generateRandomAmount_range Sample.halves unitInterval_halves
                  Sample.generator)).
Defined.




(** ** The repository: further properties *)

Lemma TradeSide_value_injective (s1 s2 : TradeSide) :
  TradeSide_value s1 = TradeSide_value s2 -> s1 = s2.
Proof. destruct s1, s2; intros E; try reflexivity; discriminate E. Qed.



Lemma writeTrades_settings (trades : list (Trade TradeSide)) :
  forall r,
    InfluxDB.repo_org (InfluxDB.writeTrades trades r) = InfluxDB.repo_org r
    /\ InfluxDB.repo_bucket (InfluxDB.writeTrades trades r) = InfluxDB.repo_bucket r
    /\ InfluxDB.precision (InfluxDB.writeTrades trades r) = InfluxDB.precision r
    /\ InfluxDB.writeOptions (InfluxDB.writeTrades trades r) = InfluxDB.writeOptions r.
Proof.
  unfold InfluxDB.writeTrades.
  induction trades as [|trade trades IH]; intros r; [repeat split|].
  cbn [map fold_left]. destruct (IH (InfluxDB.writePoint (InfluxDB.tradeToPoint trade) r))
    as (E1 & E2 & E3 & E4).
  rewrite E1, E2, E3, E4. repeat split.
Qed.


(** ** The ingestion service: further properties *)

Lemma progressData_app (evs1 evs2 : list event) :
  progressData (evs1 ++ evs2) = progressData evs1 ++ progressData evs2.
Proof. apply omap_app. Qed.

Lemma sumSizes_app (l1 l2 : list Z) : sumSizes (l1 ++ l2) = sumSizes l1 + sumSizes l2.
Proof.
  unfold sumSizes. induction l1 as [|n l1 IH]; cbn [app fold_right]; [reflexivity|].
  rewrite IH. lia.
Qed.

Lemma runningTotals_snoc (sizes : list Z) (n : Z) :
  forall acc,
    runningTotals acc (sizes ++ [n])
    = runningTotals acc sizes ++ [acc + sumSizes (sizes ++ [n])].
Proof.
  induction sizes as [|m sizes IH]; intros acc; cbn [app runningTotals].
  - unfold sumSizes. cbn [fold_right]. now replace (acc + (n + 0)) with (acc + n) by lia.
  - rewrite IH. unfold sumSizes. cbn [fold_right app].
    now replace (acc + m + fold_right Z.add 0 (sizes ++ [n]))
      with (acc + (m + fold_right Z.add 0 (sizes ++ [n]))) by lia.
Qed.

Section Accounting.

Context {G R : Type} `{TradeGeneratorService G} `{InfluxDBRepository R}.
Variable now : nat -> Z.

(** The loop, entered with every requested batch acknowledged. *)
Lemma iterate_accounted (f : frame) (w : service G R) (base tr : list action)
    (target : Z) (fulfilled : nat) :
  trace w = base ++ tr ->
  totalTrades f = target ->
  processedTrades f = sumSizes (batchSizes tr) ->
  (length (batchSizes tr) <= fulfilled)%nat ->
  map processed (progressData (events tr)) = runningTotals 0 (batchSizes tr) ->
  Forall (withinTarget target) (progressData (events tr)) ->
  length (writes tr) = length (batchSizes tr) ->
  sumSizes (batchSizes tr) <= Z.max 0 target ->
  exists tr',
    trace (fst (iterate now f w)) = base ++ tr'
    /\ accounted target fulfilled tr' (snd (iterate now f w)).
Proof.
  intros Htr Htarget Hproc Hful Hmap Hall Hwrites Hsum.
  destruct (iterate_cases now f w)
    as [(_ & ->)
       | [(_ & Hge & w' & d & -> & _ & Etr & _)
         | [(_ & Hlt & w' & trades & g' & -> & _ & Etr & _)
           | (_ & Hlt & w' & e & -> & _ & Etr)]]]; cbn [fst snd].
  - exists tr. split; [exact Htr|].
    exists (batchSizes tr), []. rewrite app_nil_r.
    repeat (split; [first [assumption | reflexivity | cbn; lia]|]). exact I.
  - exists (tr ++ [Emit (complete d)]). split; [now rewrite Etr, Htr, <- app_assoc|].
    exists (batchSizes tr), [].
    rewrite batchSizes_app, events_app, progressData_app, writes_app, !app_nil_r.
    repeat (split; [first [assumption | reflexivity | cbn; lia]|]). exact I.
  - set (cbs := Z.min (batchSize f) (totalTrades f - processedTrades f)) in *.
    exists (tr ++ [GenerateBatch cbs; WriteTrades trades]).
    split; [now rewrite Etr, Htr, <- app_assoc|].
    exists (batchSizes tr), [cbs].
    rewrite batchSizes_app, events_app, progressData_app, writes_app, !app_nil_r.
    change (batchSizes [GenerateBatch cbs; WriteTrades trades]) with [cbs].
    change (writes [GenerateBatch cbs; WriteTrades trades]) with [trades].
    rewrite sumSizes_app, !length_app. cbn [length sumSizes fold_right].
    cbn [totalTrades processedTrades currentBatchSize].
    repeat (split; [first [assumption | reflexivity | lia]|]).
    repeat (split; [first [assumption | reflexivity | lia]|]). lia.
  - set (cbs := Z.min (batchSize f) (totalTrades f - processedTrades f)) in *.
    exists (tr ++ [GenerateBatch cbs; Emit (error e)]).
    split; [now rewrite Etr, Htr, <- app_assoc|].
    exists (batchSizes tr), [cbs].
    rewrite batchSizes_app, events_app, progressData_app, writes_app.
    change (batchSizes [GenerateBatch cbs; Emit (error e)]) with [cbs].
    change (writes [GenerateBatch cbs; Emit (error e)]) with (@nil (list (Trade TradeSide))).
    change (progressData (events [GenerateBatch cbs; Emit (error e)]))
      with (@nil ProgressData).
    rewrite sumSizes_app, !length_app, !app_nil_r. cbn [length sumSizes fold_right].
    repeat (split; [first [assumption | reflexivity | lia]|]). exact I.
Qed.

Lemma step_accounted (w : service G R) (t : task) (i : input)
    (base tr : list action) (target : Z) (fulfilled : nat) :
  trace w = base ++ tr ->
  accounted target fulfilled tr t ->
  exists tr',
    trace (fst (step now (w, t) i)) = base ++ tr'
    /\ accounted target (fulfilled + count isFulfilled [i])
         tr' (snd (step now (w, t) i)).
Proof.
  intros Htr Hacc. destruct i as [|[e|]].
  - (* stop *)
    exists (tr ++ [Emit stopped]). cbn [step fst snd stopIngestion].
    split; [cbn; now rewrite Htr, <- app_assoc|].
    destruct Hacc as (sizes & rest & HB & Hrest & Hful & Hmap & Hall & Hw1 & Hw2 & Hsum & Ht).
    exists sizes, rest.
    rewrite batchSizes_app, events_app, progressData_app, writes_app, !app_nil_r.
    cbn [count isFulfilled List.filter length].
    repeat (split; [first [assumption | lia]|]). exact Ht.
  - (* the write fails *)
    destruct t as [f| |e'].
    + exists (tr ++ [Emit (error e)]). cbn [step fst snd resume].
      split; [cbn; now rewrite Htr, <- app_assoc|].
      destruct Hacc as (sizes & rest & HB & Hrest & Hful & Hmap & Hall & Hw1 & Hw2 & Hsum & Ht).
      exists sizes, rest.
      rewrite batchSizes_app, events_app, progressData_app, writes_app, !app_nil_r.
      cbn [count isFulfilled List.filter length].
      repeat (split; [first [assumption | lia]|]). exact I.
    + exists tr. cbn [step fst snd]. split; [exact Htr|].
      destruct Hacc as (sizes & rest & HB & Hrest & Hful & Hmap & Hall & Hw1 & Hw2 & Hsum & Ht).
      exists sizes, rest. cbn [count isFulfilled List.filter length].
      repeat (split; [first [assumption | lia]|]). exact I.
    + exists tr. cbn [step fst snd]. split; [exact Htr|].
      destruct Hacc as (sizes & rest & HB & Hrest & Hful & Hmap & Hall & Hw1 & Hw2 & Hsum & Ht).
      exists sizes, rest. cbn [count isFulfilled List.filter length].
      repeat (split; [first [assumption | lia]|]). exact I.
  - (* the write is acknowledged *)
    destruct t as [f| |e'].
    + destruct Hacc as (sizes & rest & HB & Hrest & Hful & Hmap & Hall & Hw1 & Hw2 & Hsum
                         & Htarget & -> & Hproc & Hwrites & Hle).
      cbn [step].
      destruct (resume_fulfilled now f w) as (w1 & d & -> & _ & _ & Etr & Hd & Htot).
      apply iterate_accounted with (tr := tr ++ [Emit (progress d)]).
      * now rewrite Etr, Htr, <- app_assoc.
      * exact Htarget.
      * rewrite batchSizes_app, app_nil_r, HB, sumSizes_app. cbn. lia.
      * rewrite batchSizes_app, app_nil_r, HB, length_app.
        cbn [count isFulfilled List.filter length]. lia.
      * rewrite batchSizes_app, events_app, progressData_app, app_nil_r, HB, map_app, Hmap.
        rewrite runningTotals_snoc. cbn [progressData events omap map].
        change (progressData (events [Emit (progress d)])) with [d].
        cbn [map]. rewrite Hd, Hproc, sumSizes_app. cbn. do 2 f_equal. lia.
      * rewrite events_app, progressData_app.
        change (progressData (events [Emit (progress d)])) with [d].
        apply Forall_app. split; [exact Hall|]. constructor; [|constructor].
        split; [congruence | lia].
      * rewrite batchSizes_app, writes_app, !app_nil_r, HB, length_app. cbn. lia.
      * rewrite batchSizes_app, app_nil_r, HB, sumSizes_app. cbn. lia.
    + exists tr. cbn [step fst snd]. split; [exact Htr|].
      destruct Hacc as (sizes & rest & HB & Hrest & Hful & Hmap & Hall & Hw1 & Hw2 & Hsum & Ht).
      exists sizes, rest. cbn [count isFulfilled List.filter length].
      repeat (split; [first [assumption | lia]|]). exact I.
    + exists tr. cbn [step fst snd]. split; [exact Htr|].
      destruct Hacc as (sizes & rest & HB & Hrest & Hful & Hmap & Hall & Hw1 & Hw2 & Hsum & Ht).
      exists sizes, rest. cbn [count isFulfilled List.filter length].
      repeat (split; [first [assumption | lia]|]). exact I.
Qed.

Lemma exec_accounted (schedule : list input) :
  forall (w : service G R) (t : task) (base tr : list action) (target : Z)
         (fulfilled : nat),
    trace w = base ++ tr ->
    accounted target fulfilled tr t ->
    exists tr',
      trace (fst (exec now (w, t) schedule)) = base ++ tr'
      /\ accounted target (fulfilled + count isFulfilled schedule)
           tr' (snd (exec now (w, t) schedule)).
Proof.
  induction schedule as [|i schedule IH]; intros w t base tr target fulfilled Htr Hacc.
  - exists tr. cbn [exec fold_left fst snd count List.filter length].
    rewrite Nat.add_0_r. now split.
  - destruct (step_accounted w t i base tr target fulfilled Htr Hacc) as (tr1 & Htr1 & Hacc1).
    change (exec now (w, t) (i :: schedule))
      with (exec now (step now (w, t) i) schedule).
    destruct (step now (w, t) i) as [w1 t1]. cbn [fst snd] in *.
    destruct (IH w1 t1 base tr1 target _ Htr1 Hacc1) as (tr' & Htr' & Hacc').
    exists tr'. split; [exact Htr'|].
    change (i :: schedule) with ([i] ++ schedule). rewrite count_app.
    now rewrite Nat.add_assoc.
Qed.

Lemma run_accounted (w : service G R) (schedule : list input) :
  exists tr,
    trace (fst (run now w schedule)) = trace w ++ tr
    /\ accounted (getTotalTrades (tradeGenerator w)) (count isFulfilled schedule)
         tr (snd (run now w schedule)).
Proof.
  unfold run, startIngestion.
  cbn [set_isStopped Date_now tradeGenerator influxDBRepository isStopped trace clock].
  match goal with |- context [iterate now ?f ?w0] =>
    destruct (iterate_accounted f w0 (trace w) [] (getTotalTrades (tradeGenerator w)) 0%nat)
      as (tr0 & Htr0 & Hacc0);
    [cbn; now rewrite app_nil_r | reflexivity | reflexivity | cbn; lia | reflexivity
    | constructor | reflexivity | cbn; lia |];
    destruct (iterate now f w0) as [w1 t1]
  end.
  cbn [fst snd] in *.
  exact (exec_accounted schedule w1 t1 (trace w) tr0 _ 0%nat Htr0 Hacc0).
Qed.

(** X14.  Under every schedule of stop requests and settlements, a
    run never asks the generator for more trades in total than the
    target, and every progress event reports the target as its total and
    a count of processed trades that does not exceed it. *)
Theorem run_within_target (w : service G R) (schedule : list input) :
  let target := getTotalTrades (tradeGenerator w) in
  exists tr,
    trace (fst (run now w schedule)) = trace w ++ tr
    /\ Forall (withinTarget target) (progressData (events tr))
    /\ sumSizes (batchSizes tr) <= Z.max 0 target.
Proof.
  destruct (run_accounted w schedule)
    as (tr & Htr & sizes & rest & HB & _ & _ & _ & Hall & _ & _ & Hsum & _).
  exists tr. rewrite HB. now repeat split.
Qed.

(** X15.  Under every schedule, the batches requested so far are
    those reported by the progress events, in order, followed by at most
    one more; each progress event carries the sum of the batch sizes up
    to its own; there are no more reports than fulfilled writes; every
    batch written was requested before; and while the run is pending,
    exactly one batch is in flight and all requested batches were
    written. *)
Theorem run_one_batch_in_flight (w : service G R) (schedule : list input) :
  exists tr sizes rest,
    trace (fst (run now w schedule)) = trace w ++ tr
    /\ batchSizes tr = sizes ++ rest
    /\ (length rest <= 1)%nat
    /\ (length sizes <= count isFulfilled schedule)%nat
    /\ map processed (progressData (events tr)) = runningTotals 0 sizes
    /\ (length sizes <= length (writes tr))%nat
    /\ (length (writes tr) <= length (batchSizes tr))%nat
    /\ match snd (run now w schedule) with
       | Awaiting f =>
           rest = [currentBatchSize f]
           /\ processedTrades f = sumSizes sizes
           /\ length (writes tr) = length (batchSizes tr)
       | Resolved | Rejected _ => True
       end.
Proof.
  destruct (run_accounted w schedule) as (tr & Htr & Hacc). revert Hacc.
  destruct (snd (run now w schedule)) as [f| |e];
    intros (sizes & rest & HB & Hrest & Hful & Hmap & _ & Hw1 & Hw2 & _ & Ht);
    exists tr, sizes, rest; rewrite HB;
    repeat (split; [first [assumption | reflexivity]|]); try exact I.
  destruct Ht as (_ & -> & Hproc & Hwrites & _).
  rewrite length_app. cbn. repeat split; [assumption | lia].
Qed.

End Accounting.

(** *** The generator fails, or never finishes *)

Section Iterations.

Context {G R : Type} `{TradeGeneratorService G} `{InfluxDBRepository R}.
Variable now : nat -> Z.

Lemma iterate_batch (f : frame) (w : service G R)
    (trades : list (Trade TradeSide)) (g' : G) :
  let cbs := Z.min (batchSize f) (totalTrades f - processedTrades f) in
  isStopped w = false ->
  processedTrades f < totalTrades f ->
  generateBatch cbs (tradeGenerator w) = (Ok trades, g') ->
  iterate now f w
  = (mkService g' (writeTrades trades (influxDBRepository w)) false
       (trace w ++ [GenerateBatch cbs; WriteTrades trades]) (clock w),
     Awaiting (mkFrame (totalTrades f) (batchSize f) (processedTrades f)
                 (startTime f) cbs)).
Proof.
  intros cbs Hstop Hlt Hgen. unfold iterate. fold cbs. rewrite Hstop.
  destruct (Z.ltb_spec (processedTrades f) (totalTrades f)) as [_|]; [|lia].
  cbn [andb negb record tradeGenerator influxDBRepository isStopped trace clock].
  rewrite Hgen. cbn [tradeGenerator influxDBRepository isStopped trace clock].
  now rewrite Hstop, <- app_assoc.
Qed.

Lemma iterate_throw (f : frame) (w : service G R) (e : exn) (g' : G) :
  let cbs := Z.min (batchSize f) (totalTrades f - processedTrades f) in
  isStopped w = false ->
  processedTrades f < totalTrades f ->
  generateBatch cbs (tradeGenerator w) = (Throw e, g') ->
  iterate now f w
  = (mkService g' (influxDBRepository w) false
       (trace w ++ [GenerateBatch cbs; Emit (error e)]) (clock w),
     Rejected e).
Proof.
  intros cbs Hstop Hlt Hgen. unfold iterate. fold cbs. rewrite Hstop.
  destruct (Z.ltb_spec (processedTrades f) (totalTrades f)) as [_|]; [|lia].
  cbn [andb negb record tradeGenerator influxDBRepository isStopped trace clock].
  rewrite Hgen. unfold emit, record.
  cbn [tradeGenerator influxDBRepository isStopped trace clock].
  now rewrite Hstop, <- app_assoc.
Qed.

Lemma resume_fulfilled_state (f : frame) (w : service G R) :
  exists d,
    resume now None f w
    = iterate now (mkFrame (totalTrades f) (batchSize f)
                     (processedTrades f + currentBatchSize f)
                     (startTime f) (currentBatchSize f))
        (mkService (tradeGenerator w) (influxDBRepository w) (isStopped w)
           (trace w ++ [Emit (progress d)]) (S (clock w)))
    /\ processed d = processedTrades f + currentBatchSize f
    /\ total d = totalTrades f.
Proof. eexists. split; [reflexivity|]. split; reflexivity. Qed.

Lemma exec_rejected (schedule : list input) :
  forall (w : service G R) (e : exn),
    snd (exec now (w, Rejected e) schedule) = Rejected e.
Proof.
  induction schedule as [|i schedule IH]; intros w e; [reflexivity|].
  change (exec now (w, Rejected e) (i :: schedule))
    with (exec now (step now (w, Rejected e) i) schedule).
  destruct i as [|o]; cbn [step]; apply IH.
Qed.

(** X16.  If a run is pending on a write, is not stopped and has
    trades left, and the generator fails on the next batch, then once the
    write is fulfilled the run reports the progress made, asks for the
    batch, emits [error] with what the generator threw and is rejected
    with it; nothing is written for that batch, the changes the generator
    made to itself before failing remain, and the promise stays rejected
    whatever follows. *)
Theorem generator_failure_aborts (w w1 : service G R) (schedule rest : list input)
    (f1 : frame) (e : exn) (g' : G) :
  let done := processedTrades f1 + currentBatchSize f1 in
  let cbs := Z.min (batchSize f1) (totalTrades f1 - done) in
  run now w schedule = (w1, Awaiting f1) ->
  isStopped w1 = false ->
  done < totalTrades f1 ->
  generateBatch cbs (tradeGenerator w1) = (Throw e, g') ->
  let st := run now w (schedule ++ [settle None]) in
  snd st = Rejected e
  /\ (exists d,
        trace (fst st)
        = trace w1 ++ [Emit (progress d); GenerateBatch cbs; Emit (error e)]
        /\ processed d = done)
  /\ tradeGenerator (fst st) = g'
  /\ influxDBRepository (fst st) = influxDBRepository w1
  /\ snd (exec now st rest) = Rejected e.
Proof.
  intros done cbs Hrun Hstop Hlt Hgen st.
  assert (Est : exists d,
             st = (mkService g' (influxDBRepository w1) false
                     (trace w1 ++ [Emit (progress d); GenerateBatch cbs; Emit (error e)])
                     (S (clock w1)),
                   Rejected e)
             /\ processed d = done).
  { unfold st, run in *. rewrite exec_app, Hrun.
    change (exec now (w1, Awaiting f1) [settle None]) with (resume now None f1 w1).
    destruct (resume_fulfilled_state f1 w1) as (d & -> & Hd & _).
    exists d. split; [|exact Hd].
    rewrite (iterate_throw _ _ e g'); cbn [isStopped tradeGenerator totalTrades
      batchSize processedTrades influxDBRepository trace clock];
      [now rewrite <- app_assoc | assumption | assumption | assumption]. }
  destruct Est as (d & -> & Hd). cbn [fst snd].
  split; [reflexivity|]. split; [now exists d|].
  split; [reflexivity|]. split; [reflexivity|]. apply exec_rejected.
Qed.

End Iterations.

Lemma generator_failure_aborts_witness :
  snd (run (H := Server.generatorImpl Sample.zerosThenHalves)
         (H0 := Server.repositoryImpl) Sample.now
         (Server.createServices Sample.zerosThenHalves Sample.blankSymbol
            Sample.influxDB)
         ([] ++ [settle None]))
  = Rejected (Error "Symbol is required").
Proof.
  pose proof (@generator_failure_aborts _ _
                (Server.generatorImpl Sample.zerosThenHalves) Server.repositoryImpl
                Sample.now
                (Server.createServices Sample.zerosThenHalves Sample.blankSymbol
                   Sample.influxDB)
                (fst (run (H := Server.generatorImpl Sample.zerosThenHalves)
                        (H0 := Server.repositoryImpl) Sample.now
                        (Server.createServices Sample.zerosThenHalves
                           Sample.blankSymbol Sample.influxDB) []))
                [] [] (mkFrame 2 1 0 1704067200000 1)
                (Error "Symbol is required")
                (snd (TradeGenerator.generateBatch Sample.zerosThenHalves 1
                        (tradeGenerator
                           (fst (run (H := Server.generatorImpl Sample.zerosThenHalves)
                                   (H0 := Server.repositoryImpl) Sample.now
                                   (Server.createServices Sample.zerosThenHalves
                                      Sample.blankSymbol Sample.influxDB) [])))))) as H.
  cbv zeta in H.
  assert (E1 : run (H := Server.generatorImpl Sample.zerosThenHalves)
                 (H0 := Server.repositoryImpl) Sample.now
                 (Server.createServices Sample.zerosThenHalves Sample.blankSymbol
                    Sample.influxDB) []
               = (fst (run (H := Server.generatorImpl Sample.zerosThenHalves)
                         (H0 := Server.repositoryImpl) Sample.now
                         (Server.createServices Sample.zerosThenHalves
                            Sample.blankSymbol Sample.influxDB) []),
                  Awaiting (mkFrame 2 1 0 1704067200000 1)))
    by (vm_compute; reflexivity).
  specialize (H E1 ltac:(vm_compute; reflexivity) ltac:(vm_compute; reflexivity)
                ltac:(vm_compute; reflexivity)).
  destruct H as [H _]. exact H.
Defined.

(** *** A batch size of zero or less *)

Lemma generateBatch_none (rng : nat -> Q) (n : Z)
    (g : TradeGenerator.TradeGeneratorServiceImpl) :
  n <= 0 -> TradeGenerator.generateBatch rng n g = (Ok [], g).
Proof.
  intros Hn. unfold TradeGenerator.generateBatch.
  now replace (Z.to_nat n) with 0%nat by lia.
Qed.

Section Idle.

Context {G R : Type} `{TradeGeneratorService G} `{InfluxDBRepository R}.
Variable now : nat -> Z.

(** The collaborators do nothing with an empty batch, as those of
    [createServer] do. *)
Hypothesis generateBatch_empty :
  forall (n : Z) (g : G), n <= 0 -> generateBatch n g = (Ok [], g).
Hypothesis writeTrades_empty : forall r : R, writeTrades [] r = r.

Lemma exec_empty_batches (k : nat) :
  forall (f : frame) (w : service G R),
    isStopped w = false ->
    batchSize f <= 0 ->
    processedTrades f < totalTrades f ->
    exists w' f',
      exec now (iterate now f w) (repeat (settle None) k) = (w', Awaiting f')
      /\ processedTrades f' = processedTrades f + Z.of_nat k * batchSize f
      /\ currentBatchSize f' = batchSize f
      /\ tradeGenerator w' = tradeGenerator w
      /\ influxDBRepository w' = influxDBRepository w
      /\ exists tr,
           trace w' = trace w ++ tr
           /\ batchSizes tr = repeat (batchSize f) (S k)
           /\ writes tr = repeat [] (S k).
Proof.
  induction k as [|k IH]; intros f w Hstop Hbs Hlt.
  - assert (Hcbs : Z.min (batchSize f) (totalTrades f - processedTrades f) = batchSize f)
      by lia.
    rewrite (iterate_batch now f w [] (tradeGenerator w) Hstop Hlt)
      by (apply generateBatch_empty; lia).
    rewrite Hcbs, writeTrades_empty. eexists _, _. split; [reflexivity|].
    cbn [processedTrades currentBatchSize tradeGenerator influxDBRepository trace].
    split; [lia|]. split; [reflexivity|]. split; [reflexivity|].
    split; [reflexivity|]. eexists. split; [reflexivity|]. now split.
  - assert (Hcbs : Z.min (batchSize f) (totalTrades f - processedTrades f) = batchSize f)
      by lia.
    rewrite (iterate_batch now f w [] (tradeGenerator w) Hstop Hlt)
      by (apply generateBatch_empty; lia).
    rewrite Hcbs, writeTrades_empty. cbn [repeat].
    match goal with |- context [exec now (?w1, Awaiting ?f1) (settle None :: ?s)] =>
      change (exec now (w1, Awaiting f1) (settle None :: s))
        with (exec now (resume now None f1 w1) s);
      destruct (resume_fulfilled_state now f1 w1) as (d & -> & _)
    end.
    cbn [totalTrades batchSize processedTrades startTime currentBatchSize
         tradeGenerator influxDBRepository isStopped trace clock].
    match goal with |- context [iterate now ?f2 ?w2] =>
      destruct (IH f2 w2) as (w' & f' & -> & Hp & Hc & Hg & Hr & tr & Htr & HB & HW);
      [reflexivity | exact Hbs
      | cbn [totalTrades batchSize processedTrades]; lia |]
    end.
    cbn [totalTrades batchSize processedTrades startTime currentBatchSize
         tradeGenerator influxDBRepository isStopped trace clock] in *.
    exists w', f'. split; [reflexivity|].
    split; [lia|]. split; [exact Hc|]. split; [exact Hg|].
    split; [exact Hr|].
    eexists. split; [rewrite Htr, <- !app_assoc; reflexivity|].
    rewrite !batchSizes_app, !writes_app, HB, HW. now split.
Qed.

(** X17.  With a batch size of zero or less and a positive target,
    and collaborators that do nothing with an empty batch, a run never
    ends: after any number of fulfilled writes it is pending on a further
    write of an empty batch, with a counter that has not advanced. *)
Theorem run_nonpositive_batchSize (w : service G R) (k : nat) :
  getRecommendedBatchSize (tradeGenerator w) <= 0 ->
  0 < getTotalTrades (tradeGenerator w) ->
  exists w' f,
    run now w (repeat (settle None) k) = (w', Awaiting f)
    /\ processedTrades f = Z.of_nat k * getRecommendedBatchSize (tradeGenerator w)
    /\ tradeGenerator w' = tradeGenerator w
    /\ influxDBRepository w' = influxDBRepository w
    /\ exists tr,
         trace w' = trace w ++ tr
         /\ batchSizes tr = repeat (getRecommendedBatchSize (tradeGenerator w)) (S k)
         /\ writes tr = repeat [] (S k).
Proof.
  intros Hbs Htotal. unfold run, startIngestion.
  cbn [set_isStopped Date_now tradeGenerator influxDBRepository isStopped trace clock].
  match goal with |- context [iterate now ?f0 ?w0] =>
    destruct (exec_empty_batches k f0 w0)
      as (w' & f & -> & Hp & _ & Hg & Hr & tr & Htr & HB & HW);
    [reflexivity | exact Hbs | exact Htotal |]
  end.
  cbn [totalTrades batchSize processedTrades startTime currentBatchSize
       tradeGenerator influxDBRepository isStopped trace clock] in *.
  exists w', f. split; [reflexivity|]. split; [exact Hp|].
  split; [exact Hg|]. split; [exact Hr|]. exists tr. now repeat split.
Qed.

End Idle.

Lemma run_nonpositive_batchSize_witness :
  exists w' f,
    run (H := Server.generatorImpl Sample.halves) (H0 := Server.repositoryImpl)
      Sample.now
      (Server.createServices Sample.halves Sample.noBatch Sample.influxDB)
      (repeat (settle None) 3)
    = (w', Awaiting f)
    /\ processedTrades f = Z.of_nat 3 * 0.
Proof.
  destruct (@run_nonpositive_batchSize _ _ (Server.generatorImpl Sample.halves)
              Server.repositoryImpl Sample.now
              (generateBatch_none Sample.halves) (fun r => eq_refl)
              (Server.createServices Sample.halves Sample.noBatch Sample.influxDB) 3)
    as (w' & f & E & Hp & _).
  - vm_compute. discriminate.
  - vm_compute. reflexivity.
  - exists w', f. split; [exact E | exact Hp].
Defined.

(** *** What a run does to the generator and to the repository *)

Section Collaborators.

Context {G R : Type} `{TradeGeneratorService G} `{InfluxDBRepository R}.
Variable now : nat -> Z.

(** A property of the generator that its calls keep, and what a call
    guarantees of the batch it returns. *)
Variable invariant : G -> Prop.
Variable guarantee : list (Trade TradeSide) -> Prop.
Hypothesis generateBatch_keeps :
  forall (n : Z) (g g' : G) (r : result (list (Trade TradeSide))),
    invariant g -> generateBatch n g = (r, g') ->
    invariant g' /\ match r with Ok trades => guarantee trades | Throw _ => True end.

Lemma iterate_collaborators (f : frame) (w : service G R) (r0 : R)
    (base tr : list action) :
  trace w = base ++ tr -> linked invariant guarantee r0 w tr ->
  exists tr',
    trace (fst (iterate now f w)) = base ++ tr'
    /\ linked invariant guarantee r0 (fst (iterate now f w)) tr'.
Proof.
  intros Htr (Hrepo & Hall & Hinv). unfold iterate.
  destruct ((processedTrades f <? totalTrades f) && negb (isStopped w)).
  - cbn [record tradeGenerator influxDBRepository isStopped trace clock].
    set (cbs := Z.min (batchSize f) (totalTrades f - processedTrades f)).
    assert (Hkeep := generateBatch_keeps cbs (tradeGenerator w)).
    destruct (generateBatch cbs (tradeGenerator w)) as [[trades|e] g'].
    + destruct (Hkeep g' _ Hinv eq_refl) as [Hinv' Hg].
      exists (tr ++ [GenerateBatch cbs; WriteTrades trades]).
      cbn [fst tradeGenerator influxDBRepository isStopped trace clock].
      split; [now rewrite Htr, <- !app_assoc|].
      unfold linked. cbn [tradeGenerator influxDBRepository].
      rewrite writes_app.
      change (writes [GenerateBatch cbs; WriteTrades trades]) with [trades].
      rewrite fold_left_app, <- Hrepo. cbn [fold_left].
      split; [reflexivity|]. split; [|exact Hinv'].
      apply Forall_app. split; [exact Hall|]. now constructor.
    + destruct (Hkeep g' _ Hinv eq_refl) as [Hinv' _].
      exists (tr ++ [GenerateBatch cbs; Emit (error e)]).
      unfold emit, record.
      cbn [fst tradeGenerator influxDBRepository isStopped trace clock].
      split; [now rewrite Htr, <- !app_assoc|].
      unfold linked. cbn [tradeGenerator influxDBRepository].
      rewrite writes_app.
      change (writes [GenerateBatch cbs; Emit (error e)])
        with (@nil (list (Trade TradeSide))).
      rewrite app_nil_r. now repeat split.
  - destruct (negb (isStopped w)).
    + eexists (tr ++ [Emit (complete _)]). unfold emit, record, Date_now.
      cbn [fst tradeGenerator influxDBRepository isStopped trace clock].
      split; [now rewrite Htr, <- !app_assoc|].
      unfold linked. cbn [tradeGenerator influxDBRepository].
      rewrite writes_app, app_nil_r. now repeat split.
    + exists tr. cbn [fst]. now split.
Qed.

Lemma step_collaborators (w : service G R) (t : task) (i : input) (r0 : R)
    (base tr : list action) :
  trace w = base ++ tr -> linked invariant guarantee r0 w tr ->
  exists tr',
    trace (fst (step now (w, t) i)) = base ++ tr'
    /\ linked invariant guarantee r0 (fst (step now (w, t) i)) tr'.
Proof.
  intros Htr Hlink. destruct i as [|[e|]]; cbn [step].
  - exists (tr ++ [Emit stopped]). unfold stopIngestion, emit, record, set_isStopped.
    cbn [fst tradeGenerator influxDBRepository isStopped trace clock].
    split; [now rewrite Htr, <- !app_assoc|].
    destruct Hlink as (Hrepo & Hall & Hinv). unfold linked.
    cbn [tradeGenerator influxDBRepository]. rewrite writes_app, app_nil_r.
    now repeat split.
  - destruct t as [f| |e']; [|now exists tr | now exists tr].
    exists (tr ++ [Emit (error e)]). rewrite resume_rejected. unfold emit, record.
    cbn [fst tradeGenerator influxDBRepository isStopped trace clock].
    split; [now rewrite Htr, <- !app_assoc|].
    destruct Hlink as (Hrepo & Hall & Hinv). unfold linked.
    cbn [tradeGenerator influxDBRepository]. rewrite writes_app, app_nil_r.
    now repeat split.
  - destruct t as [f| |e']; [|now exists tr | now exists tr].
    destruct (resume_fulfilled_state now f w) as (d & -> & _).
    apply iterate_collaborators with (tr := tr ++ [Emit (progress d)]).
    + cbn [trace]. now rewrite Htr, <- !app_assoc.
    + destruct Hlink as (Hrepo & Hall & Hinv). unfold linked.
      cbn [tradeGenerator influxDBRepository]. rewrite writes_app, app_nil_r.
      now repeat split.
Qed.

Lemma exec_collaborators (schedule : list input) :
  forall (w : service G R) (t : task) (r0 : R) (base tr : list action),
    trace w = base ++ tr -> linked invariant guarantee r0 w tr ->
    exists tr',
      trace (fst (exec now (w, t) schedule)) = base ++ tr'
      /\ linked invariant guarantee r0 (fst (exec now (w, t) schedule)) tr'.
Proof.
  induction schedule as [|i schedule IH]; intros w t r0 base tr Htr Hlink.
  - exists tr. now split.
  - destruct (step_collaborators w t i r0 base tr Htr Hlink) as (tr1 & Htr1 & Hlink1).
    change (exec now (w, t) (i :: schedule))
      with (exec now (step now (w, t) i) schedule).
    destruct (step now (w, t) i) as [w1 t1]. cbn [fst] in *.
    exact (IH w1 t1 r0 base tr1 Htr1 Hlink1).
Qed.

Lemma run_linked (w : service G R) (schedule : list input) :
  invariant (tradeGenerator w) ->
  exists tr,
    trace (fst (run now w schedule)) = trace w ++ tr
    /\ linked invariant guarantee (influxDBRepository w) (fst (run now w schedule)) tr.
Proof.
  intros Hinv. unfold run, startIngestion.
  cbn [set_isStopped Date_now tradeGenerator influxDBRepository isStopped trace clock].
  match goal with |- context [iterate now ?f ?w0] =>
    destruct (iterate_collaborators f w0 (influxDBRepository w) (trace w) [])
      as (tr0 & Htr0 & Hlink0);
    [cbn [trace]; now rewrite app_nil_r
    | unfold linked; cbn [tradeGenerator influxDBRepository writes omap fold_left];
      now repeat split |];
    destruct (iterate now f w0) as [w1 t1]
  end.
  cbn [fst] in *.
  exact (exec_collaborators schedule w1 t1 _ _ tr0 Htr0 Hlink0).
Qed.

(** X18.  Under every schedule, the repository has received the
    batches that the trace records as written, each once and in order,
    and nothing else; whatever a call of [generateBatch] keeps of the
    generator and guarantees of the batch it returns holds of the
    generator at the end and of every batch written. *)
Theorem run_collaborators (w : service G R) (schedule : list input) :
  invariant (tradeGenerator w) ->
  exists tr,
    trace (fst (run now w schedule)) = trace w ++ tr
    /\ influxDBRepository (fst (run now w schedule))
       = fold_left (fun r trades => writeTrades trades r) (writes tr)
           (influxDBRepository w)
    /\ Forall guarantee (writes tr)
    /\ invariant (tradeGenerator (fst (run now w schedule))).
Proof.
  intros Hinv. destruct (run_linked w schedule Hinv) as (tr & Htr & Hrepo & Hall & Hinv').
  exists tr. split; [exact Htr|]. split; [exact Hrepo|]. now split.
Qed.

End Collaborators.

Lemma run_collaborators_witness :
  exists tr,
    trace (fst (run Sample.now (Mock.mockService 25 10) [settle None; stop]))
    = trace (Mock.mockService 25 10) ++ tr
    /\ influxDBRepository
         (fst (run Sample.now (Mock.mockService 25 10) [settle None; stop]))
       = fold_left (fun r trades => writeTrades trades r) (writes tr)
           (influxDBRepository (Mock.mockService 25 10))
    /\ Forall (fun trades => trades = Mock.sampleTrades) (writes tr)
    /\ mockBatch
         (tradeGenerator
            (fst (run Sample.now (Mock.mockService 25 10) [settle None; stop])))
       = Mock.sampleTrades.
Proof.
  apply (run_collaborators Sample.now
           (fun g => mockBatch g = Mock.sampleTrades)
           (fun trades => trades = Mock.sampleTrades)).
  - intros n g g' r Hg E. cbn in E. injection E as <- <-. now split.
  - reflexivity.
Defined.

(** *** A completed run of the wired services *)

Lemma writeTrades_buffered (trades : list (Trade TradeSide)) :
  forall r,
    InfluxDB.buffered (InfluxDB.writeTrades trades r)
    = InfluxDB.buffered r ++ map InfluxDB.tradeToPoint trades.
Proof.
  unfold InfluxDB.writeTrades.
  induction trades as [|trade trades IH]; intros r; cbn [map fold_left].
  - now rewrite app_nil_r.
  - rewrite IH. cbn [InfluxDB.writePoint InfluxDB.buffered]. now rewrite <- app_assoc.
Qed.

Lemma batches_buffered (batches : list (list (Trade TradeSide))) :
  forall r,
    InfluxDB.buffered
      (fold_left (fun r trades => InfluxDB.writeTrades trades r) batches r)
    = InfluxDB.buffered r ++ map InfluxDB.tradeToPoint (concat batches).
Proof.
  induction batches as [|trades batches IH]; intros r; cbn [fold_left concat].
  - now rewrite app_nil_r.
  - now rewrite IH, writeTrades_buffered, map_app, app_assoc.
Qed.

Lemma expectedBatchSizes_total (total batchSize : Z) :
  0 <= total -> 1 <= batchSize ->
  list_sum (map Z.to_nat (expectedBatchSizes total batchSize)) = Z.to_nat total.
Proof.
  intros Ht Hb. unfold expectedBatchSizes.
  assert (Hq : 0 <= total / batchSize) by (apply Z.div_pos; lia).
  assert (Hr := Z.mod_pos_bound total batchSize ltac:(lia)).
  assert (Hdiv := Z.div_mod total batchSize ltac:(lia)).
  rewrite map_app, list_sum_app.
  assert (Hfull : forall k, list_sum (map Z.to_nat (repeat batchSize k))
                            = (k * Z.to_nat batchSize)%nat).
  { induction k as [|k IH]; [reflexivity|]. cbn [repeat map].
    change (list_sum (Z.to_nat batchSize :: map Z.to_nat (repeat batchSize k)))
      with (Z.to_nat batchSize + list_sum (map Z.to_nat (repeat batchSize k)))%nat.
    rewrite IH. lia. }
  rewrite Hfull.
  destruct (Z.eqb_spec (total mod batchSize) 0) as [E|E];
    unfold list_sum; cbn [map fold_right]; nia.
Qed.

Lemma generatorImpl_keeps (rng : nat -> Q)
    (config : TradeGenerator.TradeGenerationConfig) (n : Z)
    (g g' : TradeGenerator.TradeGeneratorServiceImpl)
    (r : result (list (Trade TradeSide))) :
  TradeGenerator.config g = config ->
  TradeGenerator.generateBatch rng n g = (r, g') ->
  TradeGenerator.config g' = config
  /\ match r with
     | Ok trades => Forall (validated config) trades
     | Throw _ => True
     end.
Proof.
  intros Hcfg E. unfold TradeGenerator.generateBatch in E.
  destruct (generateLoop_settings rng (Z.to_nat n) [] g) as (Hc & _).
  rewrite E in Hc. cbn [snd] in Hc. split; [congruence|].
  destruct r as [trades|e]; [|exact I].
  destruct (generateLoop_shape _ _ _ _ _ _ E) as (new & -> & _ & Hall & _).
  now rewrite <- Hcfg.
Qed.



(** ** The routes: further properties *)

Import Routes Requests.

Lemma count_cons {A : Type} (p : A -> bool) (x : A) (l : list A) :
  count p (x :: l) = ((if p x then 1 else 0) + count p l)%nat.
Proof. unfold count. cbn [List.filter]. now destruct (p x). Qed.

Lemma count_insert {A : Type} (p : A -> bool) (l : list A) (i : nat) (x y : A) :
  l !! i = Some x ->
  (count p (<[i := y]> l) + (if p x then 1 else 0)
   = count p l + (if p y then 1 else 0))%nat.
Proof.
  intros E.
  rewrite insert_take_drop by (eapply lookup_lt_Some; exact E).
  assert (El := take_drop_middle l i x E).
  remember (take i l) as l1 eqn:E1. remember (drop (S i) l) as l2 eqn:E2.
  clear E1 E2. subst l. rewrite !count_app, !count_cons. lia.
Qed.

Section Tracker.

Context {G R : Type} `{TradeGeneratorService G} `{InfluxDBRepository R}.
Variable now : nat -> Z.

Lemma deliver_app (before after : service G R) (tr : list action)
    (currentStatus : StatusResponse) :
  trace after = trace before ++ tr ->
  deliver before after currentStatus = fold_left listen (events tr) currentStatus.
Proof.
  intros E. unfold deliver. now rewrite E, events_app, drop_app_length.
Qed.

(** A run that goes on has emitted nothing since the loop was entered. *)
Lemma iterate_pending (f : frame) (w : service G R) :
  exists tr,
    trace (fst (iterate now f w)) = trace w ++ tr
    /\ (finished (snd (iterate now f w)) = false -> events tr = []).
Proof.
  destruct (iterate_cases now f w)
    as [(_ & ->)
       | [(_ & _ & w' & d & -> & _ & Etr & _)
         | [(_ & _ & w' & trades & g' & -> & _ & Etr & _)
           | (_ & _ & w' & e & -> & _ & Etr)]]]; cbn [fst snd finished].
  - exists []. now rewrite app_nil_r.
  - eexists. split; [exact Etr | discriminate].
  - eexists. split; [exact Etr | reflexivity].
  - eexists. split; [exact Etr | discriminate].
Qed.

Lemma postStart_tracked (a : app (G := G) (R := R)) : tracked a -> tracked (snd (postStart now a)).
Proof.
  intros [Hle Hrun]. unfold postStart.
  destruct (status (currentStatus a)) eqn:Es; cbn [snd]; try (now split).
  all: assert (Hnone : pending a = 0%nat)
         by (destruct (pending a) as [|[|n]]; [reflexivity | | lia];
             specialize (Hrun eq_refl); congruence).
  all: unfold startIngestion;
    cbn [set_isStopped Date_now tradeGenerator influxDBRepository isStopped trace clock];
    match goal with |- context [iterate now ?f ?w0] =>
      destruct (iterate_pending f w0) as (tr & Etr & Hev);
      destruct (iterate now f w0) as [w1 t1]
    end;
    cbn [fst snd trace] in *;
    rewrite (deliver_app _ _ tr) by exact Etr;
    unfold tracked, pending in *; cbn [runs currentStatus];
    rewrite count_app, Hnone; unfold count; cbn [List.filter];
    destruct t1 as [f1| |e1]; cbn [finished negb length] in *;
    (split; [lia|]); intros E; try discriminate E;
    now rewrite Hev.
Qed.

Lemma postStop_tracked (a : app (G := G) (R := R)) : tracked a -> tracked (snd (postStop a)).
Proof.
  intros Ha. unfold postStop.
  destruct (status (currentStatus a)) eqn:Es; cbn [snd]; try exact Ha.
  unfold tracked, pending in *. cbn [runs currentStatus].
  rewrite (deliver_app _ _ [Emit stopped]) by reflexivity.
  change (events [Emit stopped]) with [stopped]. cbn [fold_left listen].
  exact Ha.
Qed.

Lemma settleRun_tracked (i : nat) (outcome : option exn) (a : app (G := G) (R := R)) :
  tracked a -> tracked (settleRun now i outcome a).
Proof.
  intros [Hle Hrun]. unfold settleRun.
  destruct (runs a !! i) as [[f| |e]|] eqn:Ei; try (now split).
  assert (Hcount := fun t => count_insert (fun t => negb (finished t)) _ _ _ t Ei).
  cbn [finished negb] in Hcount.
  destruct outcome as [e|].
  - rewrite resume_rejected. unfold tracked, pending in *. cbn [runs currentStatus].
    specialize (Hcount (Rejected e)). cbn [finished negb] in Hcount.
    split; [lia | intros E; lia].
  - destruct (resume_fulfilled now f (tradeIngestionService a))
      as (w1 & d & -> & _ & _ & Etr1 & _).
    match goal with |- context [iterate now ?f2 w1] =>
      destruct (iterate_pending f2 w1) as (tr & Etr & Hev);
      destruct (iterate now f2 w1) as [w2 t2]
    end.
    cbn [fst snd] in *.
    rewrite (deliver_app _ _ (Emit (progress d) :: tr))
      by (rewrite Etr, Etr1, <- app_assoc; reflexivity).
    unfold tracked, pending in *. cbn [runs currentStatus].
    specialize (Hcount t2).
    destruct t2 as [f2| |e2]; cbn [finished negb] in *;
      (split; [lia|]); intros E; try lia.
    change (events (Emit (progress d) :: tr)) with (progress d :: events tr).
    now rewrite Hev.
Qed.

Lemma serve_tracked (requests : list request) :
  forall a, tracked a -> tracked (serve now a requests).
Proof.
  induction requests as [|r requests IH]; intros a Ha; [exact Ha|].
  change (serve now a (r :: requests)) with (serve now (handle now a r) requests).
  apply IH. destruct r as [| |i outcome]; cbn [handle].
  - now apply postStart_tracked.
  - now apply postStop_tracked.
  - now apply settleRun_tracked.
Qed.

(** X20.  Whatever requests and settlements arrive after
    [registerRoutes], at most one run is pending at any time; while one
    is, the status is ['running'] and [POST /api/start] answers 409
    without touching anything. *)
Theorem serve_one_run (w : service G R) (requests : list request) :
  let a := serve now (registerRoutes w) requests in
  (pending a <= 1)%nat
  /\ (pending a = 1%nat -> status (getStatus a) = running)
  /\ (pending a = 1%nat ->
      fst (postStart now a) = Reply 409 "Trade ingestion is already running"
      /\ snd (postStart now a) = a).
Proof.
  intros a.
  assert (Ha : tracked a).
  { apply serve_tracked. split; [cbn; lia | intros E; discriminate E]. }
  destruct Ha as [Hle Hrun]. split; [exact Hle|]. split; [exact Hrun|].
  intros E. unfold postStart. now rewrite (Hrun E).
Qed.

(** X21.  An accepted [POST /api/stop] leaves the status at
    ['running'], and so does the end of the stopped run when its pending
    write is fulfilled; from then on [POST /api/start] answers 409, as
    often as it is tried. *)
Theorem postStop_keeps_running (a : app (G := G) (R := R)) (i : nat) (f : frame)
    (k : nat) :
  status (currentStatus a) = running ->
  runs a !! i = Some (Awaiting f) ->
  let a' := serve now a [PostStop; WriteSettles i None] in
  fst (postStop a) = Reply 200 "Trade ingestion stopped"
  /\ runs a' = <[i := Resolved]> (runs a)
  /\ status (getStatus a') = running
  /\ fst (postStart now a') = Reply 409 "Trade ingestion is already running"
  /\ serve now a' (repeat PostStart k) = a'.
Proof.
  intros Hs Hi a'.
  assert (E1 : snd (postStop a)
               = mkApp (currentStatus a) (stopIngestion (tradeIngestionService a))
                   (runs a)).
  { unfold postStop. rewrite Hs. cbn [snd].
    now rewrite (deliver_app _ _ [Emit stopped]) by reflexivity. }
  assert (Ea : exists w1 s,
             a' = mkApp s w1 (<[i := Resolved]> (runs a)) /\ status s = running).
  { unfold a'. cbn [serve fold_left handle]. rewrite E1. unfold settleRun.
    cbn [runs tradeIngestionService currentStatus]. rewrite Hi.
    destruct (resume_fulfilled now f (stopIngestion (tradeIngestionService a)))
      as (w1 & d & -> & Hstop & _ & Etr1 & _).
    match goal with |- context [iterate now ?f2 w1] =>
      destruct (iterate_cases now f2 w1)
        as [(_ & ->)
           | [(Hn & _) | [(Hn & _) | (Hn & _)]]];
      [|rewrite Hstop in Hn; discriminate Hn ..]
    end.
    eexists _, _. split; [reflexivity|].
    now rewrite (deliver_app _ w1 [Emit (progress d)]) by exact Etr1. }
  destruct Ea as (w1 & s & Ea & Estatus).
  split; [unfold postStop; now rewrite Hs|].
  unfold getStatus. rewrite Ea. cbn [runs currentStatus].
  split; [reflexivity|]. split; [exact Estatus|].
  split; [unfold postStart; cbn [currentStatus]; now rewrite Estatus|].
  induction k as [|k IH]; [reflexivity|].
  cbn [repeat].
  change (serve now (mkApp s w1 (<[i := Resolved]> (runs a)))
            (PostStart :: repeat PostStart k))
    with (serve now (snd (postStart now (mkApp s w1 (<[i := Resolved]> (runs a)))))
            (repeat PostStart k)).
  unfold postStart at 1. cbn [currentStatus]. rewrite Estatus. exact IH.
Qed.

End Tracker.

Lemma postStop_keeps_running_witness :
  status (getStatus
            (serve Sample.now
               (serve Sample.now (registerRoutes (Mock.mockService 100 10)) [PostStart])
               [PostStop; WriteSettles 0 None]))
  = running.
Proof.
  pose proof (@postStop_keeps_running _ _ _ _ Sample.now
                (serve Sample.now (registerRoutes (Mock.mockService 100 10)) [PostStart])
                0%nat (mkFrame 100 10 0 1704067200000 10) 2) as H.
  cbv zeta in H.
  specialize (H ltac:(reflexivity) ltac:(reflexivity)).
  exact (proj1 (proj2 (proj2 H))).
Defined.

(** *** The configuration route *)

Section GeneratorState.

Context {G R : Type} `{TradeGeneratorService G} `{InfluxDBRepository R}.
Variable now : nat -> Z.

(** A property of the generator that its calls keep. *)
Variable invariant : G -> Prop.
Hypothesis generateBatch_keeps :
  forall (n : Z) (g g' : G) (r : result (list (Trade TradeSide))),
    invariant g -> generateBatch n g = (r, g') -> invariant g'.

Lemma iterate_keeps (f : frame) (w : service G R) :
  invariant (tradeGenerator w) -> invariant (tradeGenerator (fst (iterate now f w))).
Proof.
  intros Hinv.
  assert (Hkeeps : forall (n : Z) (g g' : G) (r : result (list (Trade TradeSide))),
             invariant g -> generateBatch n g = (r, g') ->
             invariant g' /\ match r with Ok _ => True | Throw _ => True end).
  { intros n g g' r Hg E. split; [exact (generateBatch_keeps n g g' r Hg E)|].
    now destruct r. }
  destruct (iterate_collaborators now invariant (fun _ => True) Hkeeps
              f w (influxDBRepository w) (trace w) [])
    as (tr & _ & _ & _ & Hinv').
  - now rewrite app_nil_r.
  - unfold linked. now repeat split.
  - exact Hinv'.
Qed.

Lemma handle_keeps (a : app (G := G) (R := R)) (r : request) :
  invariant (tradeGenerator (tradeIngestionService a)) ->
  invariant (tradeGenerator (tradeIngestionService (handle now a r))).
Proof.
  intros Hinv. destruct r as [| |i outcome]; cbn [handle].
  - unfold postStart. destruct (status (currentStatus a)); cbn [snd]; try exact Hinv.
    all: unfold startIngestion;
      cbn [set_isStopped Date_now tradeGenerator influxDBRepository isStopped trace clock];
      match goal with |- context [iterate now ?f ?w0] =>
        assert (Hk := iterate_keeps f w0 Hinv); destruct (iterate now f w0) as [w1 t1]
      end; exact Hk.
  - unfold postStop. destruct (status (currentStatus a)); cbn [snd]; exact Hinv.
  - unfold settleRun. destruct (runs a !! i) as [[f| |e]|]; try exact Hinv.
    destruct outcome as [e|].
    + rewrite resume_rejected. exact Hinv.
    + destruct (resume_fulfilled_state now f (tradeIngestionService a)) as (d & -> & _).
      match goal with |- context [iterate now ?f2 ?w2] =>
        assert (Hk := iterate_keeps f2 w2 Hinv); destruct (iterate now f2 w2) as [w3 t3]
      end.
      exact Hk.
Qed.

Lemma serve_keeps (requests : list request) :
  forall a : app (G := G) (R := R),
    invariant (tradeGenerator (tradeIngestionService a)) ->
    invariant (tradeGenerator (tradeIngestionService (serve now a requests))).
Proof.
  induction requests as [|r requests IH]; intros a Hinv; [exact Hinv|].
  change (serve now a (r :: requests)) with (serve now (handle now a r) requests).
  apply IH. now apply handle_keeps.
Qed.

End GeneratorState.

(** X22.  With the services of [createServer], [GET /api/config]
    answers with the configured [totalTrades] and [batchSize], whatever
    requests and settlements came before. *)
Theorem getConfig_constant (rng : nat -> Q) (now : nat -> Z)
    (tradeGeneration : TradeGenerator.TradeGenerationConfig)
    (influxDB : InfluxDB.InfluxDBConfig) (requests : list request) :
  getConfig (H := Server.generatorImpl rng)
    (serve (H := Server.generatorImpl rng) (H0 := Server.repositoryImpl) now
       (registerRoutes (Server.createServices rng tradeGeneration influxDB)) requests)
  = (TradeGenerator.totalTrades tradeGeneration,
     TradeGenerator.batchSize tradeGeneration).
Proof.
  assert (Hcfg := serve_keeps (H := Server.generatorImpl rng)
                    (H0 := Server.repositoryImpl) now
                    (fun g => TradeGenerator.config g = tradeGeneration)
                    (fun n g g' r Hg E =>
                       proj1 (generatorImpl_keeps rng tradeGeneration n g g' r Hg E))
                    requests
                    (registerRoutes (Server.createServices rng tradeGeneration influxDB))).
  unfold getConfig. cbn [getTotalTrades getRecommendedBatchSize Server.generatorImpl].
  unfold TradeGenerator.getTotalTrades, TradeGenerator.getRecommendedBatchSize.
  rewrite Hcfg; [reflexivity|].
  exact (proj1 (reachable_constructed rng tradeGeneration _ (reachable_new _ _ 0%nat))).
Qed.
